(** * geojson-to-wfs-t-2: a shallow embedding of [dist/es5.es.js]

    The bundle turns GeoJSON features into GML 3.2 fragments and WFS-T 2.0
    transaction documents.  Every function of the bundle that the
    transaction builders reach is transcribed below, module by module as
    the source has them (geojson-to-gml-3, xml, ensure, utils,
    geojsonToWfst), over a small model of the JavaScript data the functions
    receive.

    Modelling conventions.
    - Data is JSON-like: [undefined], [null], booleans, numbers, strings,
      arrays and plain objects, plus the [Error] object that [geomToGml]
      builds.  A number is written as its literal, an integer or a decimal
      with an exponent, and stands for the binary64 value nearest to it;
      it is printed as [Number::toString] prints that value.  [NaN] is a
      value of its own.  Strings are sequences of 8-bit characters.
    - An object is the list of its own enumerable properties in enumeration
      order; reads look at own properties only (names inherited from
      [Object.prototype] are not modelled).
    - A JavaScript exception is an outcome [Throw]; [console.warn] appends to
      a log that every computation carries along.
    - The module-level [config] object, which the bundle neither writes
      nor exports, is passed explicitly.  Where the source mutates an array
      in place ([orderCoords], with the flag off), a second definition
      works on a store of arrays and is related to the first.
    - Recursion that the data does not bound ([Update] calling itself)
      takes the number of nested calls the engine allows, and throws
      [RangeError] beyond it. *)

From Stdlib Require Import String Ascii List ZArith Lia Bool.
From Stdlib Require Import DecimalString DecimalNat.
Import ListNotations.
Local Open Scope list_scope.
Local Open Scope string_scope.
Set Warnings "-register-all".

(** The double quote and the line feed, which string literals cannot hold. *)
Definition dq : string := String (ascii_of_nat 34) EmptyString.
Definition nl : string := String (ascii_of_nat 10) EmptyString.

Definition nat_to_string (n : nat) : string :=
  NilZero.string_of_uint (Nat.to_uint n).

(** An integer in decimal. *)
Definition Z_to_string (z : Z) : string :=
  NilZero.string_of_int (Z.to_int z).

(** ** Numbers

    A JavaScript number is a binary64 value.  [VNum n] and [VDec m e] stand
    for the numbers that the literals [n] and [m] times ten to the [e]
    denote: the binary64 value nearest to them, ties going to the even
    significand.  What follows is that rounding, and [Number::toString],
    which prints the shortest decimal that rounds to the same value. *)

Section Numbers.

Local Open Scope Z_scope.

(** The magnitude of a binary64 value: [DFinite m e] is [m] times two to
    the [e]. *)
Inductive double : Type :=
| DZero
| DInfinity
| DFinite (m e : Z).

Definition double_eqb (a b : double) : bool :=
  match a, b with
  | DZero, DZero | DInfinity, DInfinity => true
  | DFinite m e, DFinite m' e' => (m =? m') && (e =? e')
  | _, _ => false
  end.

(** [n / d] rounded to the nearest integer, a tie going to the even one. *)
Definition round_half_even (n d : Z) : Z :=
  let q := n / d in
  let r := n mod d in
  if 2 * r <? d then q
  else if d <? 2 * r then q + 1
  else if Z.even q then q else q + 1.

(** The fraction [num / den] divided by two to the [e]. *)
Definition scale2 (num den e : Z) : Z * Z :=
  if 0 <=? e then (num, den * 2 ^ e) else (num * 2 ^ (- e), den).

(** The fraction [num] times ten to the [p]. *)
Definition scale10 (num den p : Z) : Z * Z :=
  if 0 <=? p then (num * 10 ^ p, den) else (num, den * 10 ^ (- p)).

(** The binary64 value nearest to the positive fraction [num / den]: a
    significand of 53 bits, fewer below the normal range, and infinity
    from two to the 1024 on. *)
Definition to_double (num den : Z) : double :=
  let l := Z.log2 num - Z.log2 den in
  let '(n0, d0) := scale2 num den l in
  let e1 := if n0 <? d0 then l - 53 else l - 52 in
  let e2 := Z.max e1 (-1074) in
  let '(n, d) := scale2 num den e2 in
  let m := round_half_even n d in
  if m =? 0 then DZero
  else
    let '(m', e') := if m =? 2 ^ 53 then (2 ^ 52, e2 + 1) else (m, e2) in
    if 971 <? e' then DInfinity else DFinite m' e'.

(** The number of decimal digits of a positive integer. *)
Definition digits (z : Z) : Z := Z.of_nat (String.length (Z_to_string z)).

(** The [n] for which the positive [num / den] lies from ten to the [n - 1]
    up to, and not including, ten to the [n]. *)
Definition decimal_exponent (num den : Z) : Z :=
  if den <=? num then digits (num / den)
  else 1 - digits ((den + num - 1) / num - 1).

(** The decimal with [k] digits nearest to [num / den], as its digits [c]
    and the power of ten [p] they are multiplied by; [ok] tells which
    decimals are acceptable.  Of two acceptable neighbours the nearer is
    taken, the even one in a tie. *)
Definition nearest_decimal (ok : Z -> Z -> bool) (num den n k : Z)
  : option (Z * Z) :=
  let p := n - k in
  let '(xn, xd) := scale10 num den (- p) in
  let lo := xn / xd in
  let r := xn mod xd in
  match ok lo p, ok (lo + 1) p with
  | true, true =>
      Some (if 2 * r <? xd then lo
            else if xd <? 2 * r then lo + 1
            else if Z.even lo then lo else lo + 1, p)
  | true, false => Some (lo, p)
  | false, true => Some (lo + 1, p)
  | false, false => None
  end.

(** The shortest decimal that rounds to [DFinite m e]: [k] digits are tried
    for [k] from one up; seventeen digits tell any two binary64 values
    apart, so the seventeenth attempt takes the nearest decimal as it
    is. *)
Fixpoint shortest_from (more : nat) (k : Z) (m e num den n : Z) : Z * Z :=
  let rounds_back c p :=
    (0 <? c)
    && (let '(cn, cd) := scale10 c 1 p in
        double_eqb (to_double cn cd) (DFinite m e)) in
  match more with
  | O =>
      match nearest_decimal (fun _ _ => true) num den n k with
      | Some cp => cp
      | None => (0, 0)
      end
  | S more' =>
      match nearest_decimal rounds_back num den n k with
      | Some cp => cp
      | None => shortest_from more' (k + 1) m e num den n
      end
  end.

Definition shortest (m e : Z) : Z * Z :=
  let '(num, den) := scale2 m 1 (- e) in
  shortest_from 16 1 m e num den (decimal_exponent num den).

Fixpoint strip_zeros (s : string) : string :=
  match s with
  | EmptyString => EmptyString
  | String c r =>
      match strip_zeros r with
      | EmptyString => if (c =? "0")%char then EmptyString
                       else String c EmptyString
      | r' => String c r'
      end
  end.

Fixpoint zeros (n : nat) : string :=
  match n with
  | O => EmptyString
  | S k => String "0" (zeros k)
  end.

(** [Number::toString] of the positive number whose digits are those of
    [c], multiplied by ten to the [p]: plain digits up to 21 integer
    digits, a leading [0.] down to the seventh decimal place, and the
    exponent form beyond. *)
Definition decimal_text (c p : Z) : string :=
  let all := Z_to_string c in
  let s := strip_zeros all in
  let k := Z.of_nat (String.length s) in
  let n := p + Z.of_nat (String.length all) in
  if (k <=? n) && (n <=? 21) then s ++ zeros (Z.to_nat (n - k))
  else if (0 <? n) && (n <=? 21) then
    String.substring 0 (Z.to_nat n) s ++ "."
      ++ String.substring (Z.to_nat n) (Z.to_nat (k - n)) s
  else if (-6 <? n) && (n <=? 0) then "0." ++ zeros (Z.to_nat (- n)) ++ s
  else
    let exponent :=
      (if 0 <=? n - 1 then "+" else "-") ++ Z_to_string (Z.abs (n - 1)) in
    match s with
    | String d EmptyString => String d EmptyString ++ "e" ++ exponent
    | String d r => String d EmptyString ++ "." ++ r ++ "e" ++ exponent
    | EmptyString => EmptyString
    end.

(** The binary64 magnitude of the literal [m] times ten to the [e]. *)
Definition literal_double (m e : Z) : double :=
  if m =? 0 then DZero
  else let '(num, den) := scale10 (Z.abs m) 1 e in to_double num den.

(** [ToString] of the number that the literal denotes. *)
Definition number_to_string (m e : Z) : string :=
  match literal_double m e with
  | DZero => "0"
  | DInfinity => (if m <? 0 then "-" else "") ++ "Infinity"
  | DFinite m2 e2 =>
      let '(c, p) := shortest m2 e2 in
      (if m <? 0 then "-" else "") ++ decimal_text c p
  end.

(** [x >= 2] for the number that the literal denotes. *)
Definition number_ge2 (m e : Z) : bool :=
  (0 <? m)
  && match literal_double m e with
     | DZero => false
     | DInfinity => true
     | DFinite m2 e2 => let '(n, d) := scale2 m2 1 (- e2) in 2 * d <=? n
     end.

End Numbers.

#[global] Arguments to_double : simpl never.
#[global] Arguments literal_double : simpl never.
#[global] Arguments number_to_string : simpl never.
#[global] Arguments number_ge2 : simpl never.

(** ** JavaScript values

    [VNum n] is the number written [n]; [VDec m e] is the number written
    [m] with the exponent [e], so [VDec 15 (-1)] is [1.5] and [VDec 1 21] is
    [1e21]. *)

Inductive value : Type :=
| VUndef
| VNull
| VBool (b : bool)
| VNum (n : Z)
| VDec (m e : Z)
| VNaN
| VStr (s : string)
| VArr (items : list value)
| VObj (fields : list (string * value))
| VErr (message : string).

Definition obj : Type := list (string * value).

Fixpoint join_strings (sep : string) (l : list string) : string :=
  match l with
  | [] => ""
  | [s] => s
  | s :: r => s ++ sep ++ join_strings sep r
  end.

(** [ToBoolean]. *)
Definition truthy (v : value) : bool :=
  match v with
  | VUndef | VNull | VNaN => false
  | VBool b => b
  | VNum n => negb (n =? 0)%Z
  | VDec m e => match literal_double m e with DZero => false | _ => true end
  | VStr s => negb (s =? "")
  | VArr _ | VObj _ | VErr _ => true
  end.

(** [a || b] on values whose right operand has no effect. *)
Definition or_else (a b : value) : value := if truthy a then a else b.

(** [ToString]; an array joins its elements with a comma, printing
    [undefined] and [null] elements as nothing. *)
Fixpoint to_string (v : value) : string :=
  match v with
  | VUndef => "undefined"
  | VNull => "null"
  | VBool true => "true"
  | VBool false => "false"
  | VNum n => number_to_string n 0
  | VDec m e => number_to_string m e
  | VNaN => "NaN"
  | VStr s => s
  | VArr l =>
      join_strings ","
        (map (fun x => match x with
                       | VUndef | VNull => ""
                       | _ => to_string x
                       end) l)
  | VObj _ => "[object Object]"
  | VErr m => if m =? "" then "Error" else "Error: " ++ m
  end.

(** The text an element contributes to [Array.prototype.join]. *)
Definition elt_to_string (v : value) : string :=
  match v with
  | VUndef | VNull => ""
  | _ => to_string v
  end.

Definition is_nullish (v : value) : bool :=
  match v with VUndef | VNull => true | _ => false end.

Definition is_undefined (v : value) : bool :=
  match v with VUndef => true | _ => false end.

Definition is_null (v : value) : bool :=
  match v with VNull => true | _ => false end.

(** [Number.isNaN]. *)
Definition Number_isNaN (v : value) : bool :=
  match v with VNaN => true | _ => false end.

Fixpoint lookup (o : obj) (k : string) : option value :=
  match o with
  | [] => None
  | (k', v) :: r => if k' =? k then Some v else lookup r k
  end.

(** [o[k] = v]: an existing key keeps its place, a new one goes last. *)
Fixpoint set (o : obj) (k : string) (v : value) : obj :=
  match o with
  | [] => [(k, v)]
  | (k', v') :: r => if k' =? k then (k, v) :: r else (k', v') :: set r k v
  end.

Fixpoint chars (s : string) : list string :=
  match s with
  | EmptyString => []
  | String c r => String c EmptyString :: chars r
  end.

Definition index_keys (n : nat) : list string := map nat_to_string (seq 0 n).

Fixpoint lookup_index {A : Type} (ks : list string) (l : list A) (k : string)
  : option A :=
  match ks, l with
  | k' :: ks', x :: l' => if k' =? k then Some x else lookup_index ks' l' k
  | _, _ => None
  end.

(** [v[k]] for a value [v] that is neither [undefined] nor [null]. *)
Definition get (v : value) (k : string) : value :=
  match v with
  | VObj o => match lookup o k with Some x => x | None => VUndef end
  | VArr l =>
      if k =? "length" then VNum (Z.of_nat (length l))
      else match lookup_index (index_keys (length l)) l k with
           | Some x => x
           | None => VUndef
           end
  | VStr s =>
      if k =? "length" then VNum (Z.of_nat (String.length s))
      else match lookup_index (index_keys (String.length s)) (chars s) k with
           | Some c => VStr c
           | None => VUndef
           end
  | VErr m => if k =? "message" then VStr m else VUndef
  | _ => VUndef
  end.

(** The names every object inherits from [Object.prototype].  [get] does
    not see them; statements that range over property names leave them
    out. *)
Definition Object_prototype_names : list string :=
  ["constructor"; "hasOwnProperty"; "isPrototypeOf"; "propertyIsEnumerable";
   "toLocaleString"; "toString"; "valueOf"; "__proto__";
   "__defineGetter__"; "__defineSetter__"; "__lookupGetter__";
   "__lookupSetter__"].

(** ** Exceptions and warnings *)

(** [ErrorJSON p v] is an [Error] whose message is [p] followed by
    [JSON.stringify] of [v]. *)
Inductive exn : Type :=
| TypeError
| RangeError
| Error (msg : string)
| ErrorJSON (prefix : string) (payload : value).

Inductive outcome (A : Type) : Type :=
| Ret (a : A)
| Throw (e : exn).
Arguments Ret {A} a.
Arguments Throw {A} e.

(** A computation yields an outcome and the warnings it logged. *)
Definition M (A : Type) : Type := (outcome A * list string)%type.

Definition ret {A : Type} (a : A) : M A := (Ret a, []).
Definition throw {A : Type} (e : exn) : M A := (Throw e, []).
Definition warn (msg : string) : M unit := (Ret tt, [msg]).

Definition bind {A B : Type} (m : M A) (f : A -> M B) : M B :=
  match m with
  | (Ret a, w) => let (r, w') := f a in (r, (w ++ w')%list)
  | (Throw e, w) => (Throw e, w)
  end.

Notation "x <- m ;; k" := (bind m (fun x => k))
  (at level 61, m at next level, right associativity).
Notation "m ;;; k" := (bind m (fun _ => k))
  (at level 61, right associativity).

Fixpoint mapM {A B : Type} (f : A -> M B) (l : list A) : M (list B) :=
  match l with
  | [] => ret []
  | x :: r => y <- f x ;; ys <- mapM f r ;; ret (y :: ys)
  end.

(** A [for] loop that threads one accumulator through its body. *)
Fixpoint foldM {A S : Type} (f : S -> A -> M S) (l : list A) (s : S) : M S :=
  match l with
  | [] => ret s
  | x :: r => s' <- f s x ;; foldM f r s'
  end.

(** [v.k], which throws on [undefined] and [null]. *)
Definition getM (v : value) (k : string) : M value :=
  if is_nullish v then throw TypeError else ret (get v k).

(** [Object.keys(v)] (ES2015: primitives are coerced, nullish values throw). *)
Definition Object_keys (v : value) : M (list string) :=
  match v with
  | VUndef | VNull => throw TypeError
  | VObj o => ret (map fst o)
  | VArr l => ret (index_keys (length l))
  | VStr s => ret (index_keys (String.length s))
  | _ => ret []
  end.

(** The array methods ([map], [forEach], [join], [filter], [reverse], ...)
    exist on arrays only; calling one on anything else throws. *)
Definition as_array (v : value) : M (list value) :=
  match v with
  | VArr l => ret l
  | _ => throw TypeError
  end.

(** [v[Symbol.iterator]()], as [for ... of] uses it. *)
Definition iterate (v : value) : M (list value) :=
  match v with
  | VArr l => ret l
  | VStr s => ret (map VStr (chars s))
  | _ => throw TypeError
  end.

(** [v.join(sep)]. *)
Definition join (v : value) (sep : string) : M string :=
  l <- as_array v ;; ret (join_strings sep (map elt_to_string l)).

(** ** geojson-to-gml-3 *)

(** The module's configuration object; [config] is its initial content. *)
Record Config : Type := { coordinateOrder : bool }.

Definition config : Config := {| coordinateOrder := true |}.

(** The optional parameters of the geometry encoders. *)
Record GmlParams : Type := {
  srsName : value;
  srsDimension : value;
  gmlIds : value
}.

(** [params = {}]. *)
Definition no_params : GmlParams :=
  {| srsName := VUndef; srsDimension := VUndef; gmlIds := VUndef |}.

(** [coords.reverse()], seen through its return value.  The call reverses
    the caller's array as well; [orderCoords_ref] and [posList_ref] below
    show that on a store of arrays, and agree with the definitions on
    values as long as no array is reached twice.  No run of the bundle
    comes here: its flag is on. *)
Definition reverse (coords : value) : M value :=
  l <- as_array coords ;; ret (VArr (rev l)).

Definition orderCoords (cfg : Config) (coords : value) : M value :=
  if coordinateOrder cfg then ret coords
  else
    c2 <- getM coords "2" ;;
    if truthy c2 then
      ret (VArr [get coords "1"; get coords "0"; get coords "2"])
    else reverse coords.

(** [orderCoords] on arrays held in a store: [coords] and the result are
    references, so that what [reverse] does to the caller's array shows. *)
Definition store : Type := list (list value).

Fixpoint store_update (r : nat) (a : list value) (h : store) : store :=
  match h, r with
  | [], _ => []
  | _ :: h', O => a :: h'
  | b :: h', S r' => b :: store_update r' a h'
  end.

Definition deref (h : store) (r : nat) : list value := nth r h [].

Definition orderCoords_ref (cfg : Config) (coords : nat) (h : store)
  : nat * store :=
  if coordinateOrder cfg then (coords, h)
  else
    let a := VArr (deref h coords) in
    if truthy (get a "2") then
      (length h, (h ++ [[get a "1"; get a "0"; get a "2"]])%list)
    else (coords, store_update coords (rev (deref h coords)) h).

(** [coords.map((e)=>orderCoords(e).join(' ')).join(' ')] on arrays held in
    a store: [coords] lists the references of the tuples. *)
Definition posList_ref (cfg : Config) (coords : list nat) (h : store)
  : string * store :=
  let '(ps, h') :=
    fold_left
      (fun '(ps, h) e =>
         let '(r, h') := orderCoords_ref cfg e h in
         ((ps ++ [join_strings " " (map elt_to_string (deref h' r))])%list,
          h'))
      coords ([], h) in
  (join_strings " " ps, h').

Definition attrs (attrMappings : obj) : string :=
  fold_left
    (fun results '(attrName, v) =>
       results ++ (if truthy v
                   then " " ++ attrName ++ "=" ++ dq ++ to_string v ++ dq
                   else ""))
    attrMappings "".

Definition encoder : Type := value -> value -> GmlParams -> M string.

(** The [membercb] argument of [multi]: one encoder, or the [converter]
    table indexed by the member's type. *)
Inductive membercb : Type :=
| Callback (f : encoder)
| Table (t : string -> option encoder).

Definition multi (name memberName : string) (cb : membercb)
    (geom gmlId : value) (params : GmlParams) : M string :=
  let head :=
    "<gml:" ++ name
      ++ attrs [("srsName", srsName params); ("gml:id", gmlId)] ++ ">"
      ++ "<gml:" ++ memberName ++ ">" in
  members <- as_array geom ;;
  body <-
    foldM
      (fun acc '(i, member) =>
         member_id <- getM member "id" ;;
         let _gmlId :=
           or_else
             (or_else member_id
                (get (or_else (gmlIds params) (VArr [])) (nat_to_string i)))
             (VStr "") in
         if name =? "MultiGeometry" then
           let memberType := get member "type" in
           let member := get member "coordinates" in
           match cb with
           | Table t =>
               match t (to_string memberType) with
               | Some f => s <- f member _gmlId params ;; ret (acc ++ s)
               | None => throw TypeError
               end
           | Callback _ => throw TypeError
           end
         else
           match cb with
           | Callback f => s <- f member _gmlId params ;; ret (acc ++ s)
           | Table _ => throw TypeError
           end)
      (combine (seq 0 (length members)) members) head ;;
  ret (body ++ "</gml:" ++ memberName ++ ">" ++ "</gml:" ++ name ++ ">").

Definition Point (cfg : Config) : encoder := fun coords gmlId params =>
  c <- orderCoords cfg coords ;;
  pos <- join c " " ;;
  ret ("<gml:Point"
         ++ attrs [("srsName", srsName params); ("gml:id", gmlId)] ++ ">"
         ++ "<gml:pos" ++ attrs [("srsDimension", srsDimension params)] ++ ">"
         ++ pos ++ "</gml:pos>" ++ "</gml:Point>").

(** [coords.map((e)=>orderCoords(e).join(' ')).join(' ')]. *)
Definition posList (cfg : Config) (coords : value) : M string :=
  l <- as_array coords ;;
  ps <- mapM (fun e => c <- orderCoords cfg e ;; join c " ") l ;;
  ret (join_strings " " ps).

Definition LineString (cfg : Config) : encoder := fun coords gmlId params =>
  ps <- posList cfg coords ;;
  ret ("<gml:LineString"
         ++ attrs [("srsName", srsName params); ("gml:id", gmlId)] ++ ">"
         ++ "<gml:posList"
         ++ attrs [("srsDimension", srsDimension params)] ++ ">"
         ++ ps ++ "</gml:posList>" ++ "</gml:LineString>").

Definition LinearRing (cfg : Config) : encoder := fun coords gmlId params =>
  ps <- posList cfg coords ;;
  ret ("<gml:LinearRing"
         ++ attrs [("gml:id", gmlId); ("srsName", srsName params)] ++ ">"
         ++ "<gml:posList"
         ++ attrs [("srsDimension", srsDimension params)] ++ ">"
         ++ ps ++ "</gml:posList>" ++ "</gml:LinearRing>").

(** White space that [ToNumber] strips from both ends of a string. *)
Definition is_space (c : ascii) : bool :=
  let n := nat_of_ascii c in
  ((9 <=? n)%nat && (n <=? 13)%nat) || (n =? 32)%nat.

Fixpoint trim_left (s : string) : string :=
  match s with
  | String c r => if is_space c then trim_left r else s
  | EmptyString => EmptyString
  end.

Fixpoint trim_right (s : string) : string :=
  match s with
  | String c r =>
      match trim_right r with
      | EmptyString => if is_space c then EmptyString else String c EmptyString
      | r' => String c r'
      end
  | EmptyString => EmptyString
  end.

(** [ToNumber] where it gives an integer, [None] standing for [NaN].  A
    string converts when, once trimmed, it is empty or a signed decimal
    integer literal; the other numeric spellings (fractions, exponents,
    other radices, [Infinity]) are not recognised. *)
Definition string_to_number (s : string) : option Z :=
  match trim_right (trim_left s) with
  | EmptyString => Some 0%Z
  | String "+" r =>
      match r with
      | EmptyString => None
      | _ => option_map Z.of_uint (NilEmpty.uint_of_string r)
      end
  | String "-" r =>
      match r with
      | EmptyString => None
      | _ => option_map (fun u => Z.opp (Z.of_uint u))
               (NilEmpty.uint_of_string r)
      end
  | t => option_map Z.of_uint (NilEmpty.uint_of_string t)
  end.

Definition to_number (v : value) : option Z :=
  match v with
  | VNull => Some 0%Z
  | VBool b => Some (if b then 1 else 0)%Z
  | VNum n => Some n
  | VStr s => string_to_number s
  | VArr _ => string_to_number (to_string v)
  | VUndef | VDec _ _ | VNaN | VObj _ | VErr _ => None
  end.

(** [v >= 2]; a number written with an exponent is compared as it is. *)
Definition ge2 (v : value) : bool :=
  match v with
  | VDec m e => number_ge2 m e
  | _ =>
      match to_number v with
      | Some n => (2 <=? n)%Z
      | None => false
      end
  end.

(** [coords.slice(1)], which arrays and strings have. *)
Definition slice1 (coords : value) : M value :=
  match coords with
  | VArr l => ret (VArr (tl l))
  | VStr s => ret (VStr (match s with String _ r => r | EmptyString => "" end))
  | _ => throw TypeError
  end.

Definition Polygon (cfg : Config) : encoder := fun coords gmlId params =>
  c0 <- getM coords "0" ;;
  exterior <- LinearRing cfg c0 VUndef no_params ;;
  let polygon :=
    "<gml:Polygon"
      ++ attrs [("srsName", srsName params); ("gml:id", gmlId)] ++ ">"
      ++ "<gml:exterior>" ++ exterior ++ "</gml:exterior>" in
  polygon <-
    (if ge2 (get coords "length") then
       rest <- slice1 coords ;;
       rings <- iterate rest ;;
       foldM
         (fun polygon linearRing =>
            r <- LinearRing cfg linearRing VUndef no_params ;;
            ret (polygon ++ "<gml:interior>" ++ r ++ "</gml:interior>"))
         rings polygon
     else ret polygon) ;;
  ret (polygon ++ "</gml:Polygon>").

Definition MultiPoint (cfg : Config) : encoder :=
  multi "MultiPoint" "pointMembers" (Callback (Point cfg)).

Definition MultiLineString (cfg : Config) : encoder :=
  multi "MultiCurve" "curveMembers" (Callback (LineString cfg)).

Definition MultiPolygon (cfg : Config) : encoder :=
  multi "MultiSurface" "surfaceMembers" (Callback (Polygon cfg)).

Fixpoint list_max (l : list nat) : nat :=
  match l with
  | [] => 0
  | n :: r => Nat.max n (list_max r)
  end.

(** Nesting depth of a value: it bounds how often [GeometryCollection] can
    re-enter itself through its members. *)
Fixpoint depth (v : value) : nat :=
  match v with
  | VArr l => S (list_max (map depth l))
  | VObj o => S (list_max (map (fun p => match p with (_, x) => depth x end) o))
  | _ => 0
  end.

Fixpoint assoc {A : Type} (t : list (string * A)) (k : string) : option A :=
  match t with
  | [] => None
  | (k', a) :: r => if k' =? k then Some a else assoc r k
  end.

(** The [converter] table, given the encoder to use for member
    collections. *)
Definition converter_with (cfg : Config) (collection : encoder)
  : list (string * encoder) :=
  [ ("Point", Point cfg); ("LineString", LineString cfg);
    ("LinearRing", LinearRing cfg); ("Polygon", Polygon cfg);
    ("MultiPoint", MultiPoint cfg); ("MultiLineString", MultiLineString cfg);
    ("MultiPolygon", MultiPolygon cfg); ("GeometryCollection", collection) ].

(** [GeometryCollection] with a bound on its re-entries; the bound is
    never met when it is at least the depth of [geoms]
    ([GeometryCollection_n_enough]). *)
Fixpoint GeometryCollection_n (n : nat) (cfg : Config) : encoder :=
  fun geoms gmlId params =>
    multi "MultiGeometry" "geometryMembers"
      (Table (assoc (converter_with cfg
                       match n with
                       | O => fun _ _ _ => throw RangeError
                       | S k => GeometryCollection_n k cfg
                       end)))
      geoms gmlId params.

Definition GeometryCollection (cfg : Config) : encoder :=
  fun geoms gmlId params =>
    GeometryCollection_n (depth geoms) cfg geoms gmlId params.

Definition converter (cfg : Config) : string -> option encoder :=
  assoc (converter_with cfg (GeometryCollection cfg)).

(** The object a call site passes as [params], as [arguments] holds it. *)
Definition params_value (params : GmlParams) : value :=
  VObj [("srsName", srsName params); ("srsDimension", srsDimension params)].

(** [geomToGml]: the encoder's string, or the [Error] object that the local
    [warn] function builds and that [geomToGml] returns. *)
Definition geomToGml (cfg : Config) (geom gmlId : value) (params : GmlParams)
  : M value :=
  ty <- getM geom "type" ;;
  match converter cfg (to_string ty) with
  | Some convert =>
      s <- convert (or_else (get geom "coordinates") (get geom "geometries"))
             gmlId params ;;
      ret (VStr s)
  | None =>
      ret (VErr ("unkown: " ++ to_string ty ++ " "
                   ++ join_strings ","
                        (map elt_to_string
                           [geom; gmlId; params_value params])))
  end.

(** ** xml utilities *)

Definition escape_char (c : ascii) : string :=
  if (c =? "<")%char then "&lt;"
  else if (c =? ">")%char then "&gt;"
  else if (c =? "&")%char then "&amp;"
  else if (c =? "'")%char then "&apos;"
  else if (Nat.eqb (nat_of_ascii c) 34) then "&quot;"
  else String c EmptyString.

Fixpoint escape_string (s : string) : string :=
  match s with
  | EmptyString => EmptyString
  | String c r => escape_char c ++ escape_string r
  end.

(** [escape]: strings are escaped, anything else is handed back as it is. *)
Definition escape (input : value) : value :=
  match input with
  | VStr s => VStr (escape_string s)
  | _ => input
  end.

Definition attrs_1 (attrs : obj) : string :=
  String.concat ""
    (map (fun a =>
            if truthy (get (VObj attrs) a)
            then " " ++ a ++ "=" ++ dq
                   ++ to_string (escape (get (VObj attrs) a)) ++ dq
            else "")
       (map fst attrs)).

Definition tag (ns tagName : value) (attrsObj : obj) (inner : value)
  : M string :=
  let tag := (if truthy ns then to_string ns ++ ":" else "")
               ++ to_string tagName in
  if truthy tagName then
    ret ("<" ++ tag ++ attrs_1 attrsObj
           ++ (if is_null inner then " /"
               else ">" ++ to_string inner ++ "</" ++ tag)
           ++ ">")
  else
    throw (ErrorJSON "no tag supplied "
             (VObj [("ns", ns); ("tagName", tagName);
                    ("attrsObj", VObj attrsObj); ("inner", inner)])).

Definition wfs (tagName : string) (attrsObj : obj) (inner : value)
  : M string :=
  tag (VStr "wfs") (VStr tagName) attrsObj inner.

(** ** ensure: checks and coercions

    [idFilter] of the xml utilities follows [id$1], which it calls. *)

Fixpoint contains_dot (s : string) : bool :=
  match s with
  | EmptyString => false
  | String c r => (c =? ".")%char || contains_dot r
  end.

(** [array]: its one argument is a FeatureCollection, a feature or an array
    of features. *)
Definition array (maybe0 : value) : M (list value) :=
  features <- getM maybe0 "features" ;;
  l <- (if truthy features then as_array features
        else ret (match maybe0 with
                  | VArr l => l
                  | v => [v]
                  end)) ;;
  ret (List.filter truthy l).

(** [id$1]. *)
Definition id_1 (lyr _id : value) : value :=
  if contains_dot (to_string (or_else _id (VStr ""))) then _id
  else VStr (to_string lyr ++ "." ++ to_string _id).

Definition typeName (ns layer _typeName : value) : M value :=
  if negb (truthy _typeName) && negb (truthy ns && truthy layer) then
    throw (ErrorJSON "no typename possible: "
             (VObj [("typeName", _typeName); ("ns", ns); ("layer", layer)]))
  else
    ret (or_else _typeName
           (VStr (to_string ns ++ ":" ++ to_string layer ++ "Type"))).

Definition idFilter (lyr id : value) : string :=
  "<fes:ResourceId rid=" ++ dq ++ to_string (id_1 lyr id) ++ dq ++ "/>".

(** ** utils *)

Definition useWhitelistIfAvailable {S : Type} (whitelist properties : value)
    (cb : S -> value -> value -> M S) (s : S) : M S :=
  props <- (if truthy whitelist then iterate whitelist
            else ks <- Object_keys properties ;; ret (map VStr ks)) ;;
  foldM
    (fun s prop =>
       val <- getM properties (to_string prop) ;;
       if Number_isNaN val then throw (Error "NaN is not allowed.")
       else if negb (is_undefined val) then cb s prop val
       else ret s)
    props s.

Definition featureMembers : list string :=
  ["properties"; "geometry"; "id"; "layer"].

Definition has (set : list string) (k : string) : bool :=
  existsb (String.eqb k) set.

(** The value [unpack] stores under one requested name. *)
Definition unpack_arg (feature : value) (params : obj) (arg : string)
  : M value :=
  if arg =? "layer" then
    let pl := get (VObj params) "layer" in
    if truthy (get (or_else pl (VObj [])) "id")
    then ret (get (or_else pl (VObj [])) "id")
    else if truthy pl then ret pl
    else
      fl <- getM feature "layer" ;;
      if truthy (get (or_else fl (VObj [])) "id")
      then ret (get (or_else fl (VObj [])) "id")
      else ret (or_else fl (VStr ""))
  else if negb (has featureMembers arg) then
    fv <- getM feature arg ;;
    if truthy fv then ret fv
    else ret (or_else (get (VObj params) arg) (VStr ""))
  else
    if truthy (get (VObj params) arg) then ret (get (VObj params) arg)
    else fv <- getM feature arg ;; ret (or_else fv (VStr "")).

Definition unpack (feature : value) (params : obj) (args : list string)
  : M obj :=
  foldM
    (fun results arg =>
       v <- unpack_arg feature params arg ;; ret (set results arg v))
    args [].

(** *** Regular expressions of the bundle *)

Definition is_digit (c : ascii) : bool :=
  let n := nat_of_ascii c in (48 <=? n)%nat && (n <=? 57)%nat.

(** [\w]: a letter, a digit or the underscore. *)
Definition is_word_char (c : ascii) : bool :=
  let n := nat_of_ascii c in
  is_digit c
  || ((65 <=? n)%nat && (n <=? 90)%nat)
  || ((97 <=? n)%nat && (n <=? 122)%nat)
  || (n =? 95)%nat.

(** Every character of [s] passes [p]. *)
Fixpoint string_forallb (p : ascii -> bool) (s : string) : bool :=
  match s with
  | EmptyString => true
  | String c r => p c && string_forallb p r
  end.

Fixpoint strip_prefix (p s : string) : option string :=
  match p, s with
  | EmptyString, _ => Some s
  | String a p', String b s' => if (a =? b)%char then strip_prefix p' s' else None
  | String _ _, EmptyString => None
  end.

(** The longest run of word characters that starts [s], and what follows. *)
Fixpoint take_word (s : string) : string * string :=
  match s with
  | String c r =>
      if is_word_char c
      then let (w, rest) := take_word r in (String c w, rest)
      else (EmptyString, s)
  | EmptyString => (EmptyString, EmptyString)
  end.

(** One attempt, at the start of [s], of the pattern of
    [generateNsAssignments]: an opening angle bracket or [typeName=] with its
    double quote, then [\w+] (the second group), then a colon.  The result is
    the second group and the length of the match. *)
Definition ns_re_here (s : string) : option (string * nat) :=
  let after_opening :=
    match strip_prefix "<" s with
    | Some r => Some (r, 1)
    | None =>
        match strip_prefix ("typeName=" ++ dq) s with
        | Some r => Some (r, 10)
        | None => None
        end
    end in
  match after_opening with
  | Some (r, n) =>
      let (w, rest) := take_word r in
      match w, rest with
      | String _ _, String ":" _ => Some (w, n + String.length w + 1)
      | _, _ => None
      end
  | None => None
  end.

(** The [while ((arr = re.exec(xml)) !== null)] loop: the second group of
    every match, left to right; [skip] characters belong to the previous
    match. *)
Fixpoint ns_re_scan (skip : nat) (s : string) : list string :=
  match s with
  | EmptyString => []
  | String _ r =>
      match skip with
      | S k => ns_re_scan k r
      | O =>
          match ns_re_here s with
          | Some (w, n) => w :: ns_re_scan (Nat.pred n) r
          | None => ns_re_scan 0 r
          end
      end
  end.

(** Insertion into a [Set]: first occurrences, in order. *)
Fixpoint set_of (l : list string) (seen : list string) : list string :=
  match l with
  | [] => []
  | x :: r => if has seen x then set_of r seen else x :: set_of r (x :: seen)
  end.

(** One attempt of [/2\.0\.\d+/] at the start of [s]. *)
Definition version_re_here (s : string) : bool :=
  match strip_prefix "2.0." s with
  | Some (String d _) => is_digit d
  | _ => false
  end.

(** [/2\.0\.\d+/.exec(s)] finds a match. *)
Fixpoint version_re_test (s : string) : bool :=
  version_re_here s
  || match s with
     | EmptyString => false
     | String _ r => version_re_test r
     end.

Definition generateNsAssignments (nsAssignments xml : value) : M obj :=
  let makeNsAssignment (attrs : obj) (ns : string) (uri : value) : obj :=
    set attrs ("xmlns:" ++ ns) uri in
  ks <- Object_keys nsAssignments ;;
  let attrs :=
    fold_left (fun attrs ns => makeNsAssignment attrs ns (get nsAssignments ns))
      ks [] in
  let allNamespaces := set_of (ns_re_scan 0 (to_string xml)) [] in
  let attrs :=
    if has allNamespaces "fes"
    then makeNsAssignment attrs "fes" (VStr "http://www.opengis.net/fes/2.0")
    else attrs in
  let attrs :=
    makeNsAssignment attrs "xsi"
      (VStr "http://www.w3.org/2001/XMLSchema-instance") in
  let attrs :=
    makeNsAssignment attrs "gml" (VStr "http://www.opengis.net/gml/3.2") in
  let attrs :=
    makeNsAssignment attrs "wfs" (VStr "http://www.opengis.net/wfs/2.0") in
  foldM
    (fun (_ : unit) ns =>
       if negb (truthy (get (VObj attrs) ("xmlns:" ++ ns)))
       then throw (Error ("unassigned namespace " ++ ns))
       else ret tt)
    allNamespaces tt ;;;
  ret attrs.

(** [generateSchemaLines]; the module is strict code, so the assignment
    throws on a primitive as it does on [null]. *)
Definition generateSchemaLines (schemaLocations : value) : M string :=
  let uri := "http://www.opengis.net/wfs/2.0" in
  let xsd := VStr "http://schemas.opengis.net/wfs/2.0/wfs.xsd" in
  entries <-
    match schemaLocations with
    | VUndef => ret [(uri, xsd)]
    | VObj o => ret (set o uri xsd)
    | VArr l => ret (combine (index_keys (length l)) l ++ [(uri, xsd)])%list
    | VErr _ => ret [(uri, xsd)]
    | _ => throw TypeError
    end ;;
  ret (join_strings nl
         (map (fun '(k, v) => join_strings nl [k; elt_to_string v]) entries)).

(** The [fields] of one feature: the first part of the loop body [_loop] of
    [translateFeatures]; [u] is what [unpack] returned for the feature. *)
Definition feature_fields (cfg : Config) (srsName srsDimension : value)
    (feature : value) (u : obj) : M string :=
  let ns := get (VObj u) "ns" in
  let geometry_name := get (VObj u) "geometry_name" in
  let properties := get (VObj u) "properties" in
  let whitelist := get (VObj u) "whitelist" in
  fields <-
    (if truthy geometry_name then
       geometry <- getM feature "geometry" ;;
       gml <- geomToGml cfg geometry (VStr "")
                {| srsName := srsName; srsDimension := srsDimension;
                   gmlIds := VUndef |} ;;
       tag ns geometry_name [] gml
     else ret "") ;;
  useWhitelistIfAvailable whitelist properties
    (fun fields prop val =>
       if is_null val then ret fields
       else
         t <- tag ns prop [] (escape (get properties (to_string prop))) ;;
         ret (fields ++ t))
    fields.

Definition translateFeatures (cfg : Config) (features : list value)
    (params : obj) : M string :=
  let srsName := get (VObj params) "srsName" in
  let srsDimension := get (VObj params) "srsDimension" in
  foldM
    (fun inner feature =>
       u <- unpack feature params
              ["ns"; "layer"; "geometry_name"; "properties"; "id";
               "whitelist"] ;;
       let ns := get (VObj u) "ns" in
       let layer := get (VObj u) "layer" in
       let id := get (VObj u) "id" in
       fields <- feature_fields cfg srsName srsDimension feature u ;;
       t <- tag ns layer [("gml:id", id_1 layer id)] (VStr fields) ;;
       ret (inner ++ t))
    features "".

(** [filter] of the ensure module.  [unpack] is called without names, so
    what it hands to [idFilter] as the layer is an empty object. *)
Definition filter (filter : value) (features : list value) (params : obj)
  : M value :=
  if negb (truthy filter) then
    filter <-
      foldM
        (fun filter feature =>
           layer <- unpack feature params [] ;;
           id <- getM feature "id" ;;
           ret (filter ++ idFilter (VObj layer) id))
        features "" ;;
    ret (VStr ("<fes:Filter>" ++ filter ++ "</fes:Filter>"))
  else ret filter.

(** ** geojsonToWfst

    The options bag [params] is an object; a call that omits it passes the
    empty one. *)

Definition Insert (cfg : Config) (features : value) (params : obj)
  : M string :=
  features <- array features ;;
  let inputFormat := get (VObj params) "inputFormat" in
  let srsName := get (VObj params) "srsName" in
  let handle := get (VObj params) "handle" in
  if (length features =? 0)%nat then
    warn "no features supplied" ;;; ret ""
  else
    toInsert <- translateFeatures cfg features params ;;
    tag (VStr "wfs") (VStr "Insert")
      [("inputFormat", inputFormat); ("srsName", srsName); ("handle", handle)]
      (VStr toInsert).

(** [makeKvp], local to [Update]. *)
Definition makeKvp (prop val action : value) : M string :=
  value <-
    (if is_null val then wfs "Value" [("xsi:nil", VBool true)] (VStr "")
     else if negb (is_undefined val) then wfs "Value" [] val
     else ret "") ;;
  reference <- wfs "ValueReference" [("action", action)] prop ;;
  wfs "Property" [] (VStr (reference ++ value)).

(** The property loop of [Update]: one [wfs:Property] per pair that
    [useWhitelistIfAvailable] hands to the callback. *)
Definition Update_fields (whitelist properties : value) : M string :=
  useWhitelistIfAvailable whitelist properties
    (fun fields k v =>
       kvp <- makeKvp k (escape v) VUndef ;; ret (fields ++ kvp))
    "".

(** The branch of [Update] taken when [params.properties] is set;
    [features] is what [array] returned. *)
Definition Update_bulk (cfg : Config) (features : list value) (params : obj)
  : M string :=
  let inputFormat := get (VObj params) "inputFormat" in
  let filter__1 := get (VObj params) "filter" in
  let typeName__1 := get (VObj params) "typeName" in
  let whitelist := get (VObj params) "whitelist" in
  u <- unpack (or_else (get (VArr features) "0") (VObj [])) params
         ["srsName"; "ns"; "layer"; "geometry_name"] ;;
  let srsName := get (VObj u) "srsName" in
  let ns := get (VObj u) "ns" in
  let layer := get (VObj u) "layer" in
  let geometry_name := get (VObj u) "geometry_name" in
  typeName__1 <- typeName ns layer typeName__1 ;;
  filter__1 <- filter filter__1 features params ;;
  if negb (truthy filter__1) && (length features =? 0)%nat then
    warn "neither features nor filter supplied" ;;; ret ""
  else
    fields <- Update_fields whitelist (get (VObj params) "properties") ;;
    fields <-
      (if truthy geometry_name then
         gml <- geomToGml cfg (get (VObj params) "geometry") (VStr "")
                  {| srsName := srsName; srsDimension := VUndef;
                     gmlIds := VUndef |} ;;
         t <- tag ns geometry_name [] gml ;;
         kvp <- makeKvp geometry_name (VStr t) VUndef ;;
         ret (fields ++ kvp)
       else ret fields) ;;
    wfs "Update"
      [("inputFormat", inputFormat); ("srsName", srsName);
       ("typeName", typeName__1)]
      (VStr (fields ++ to_string filter__1)).

(** [Update].  Without [params.properties] it calls itself once per
    feature; [stack] is the number of nested calls the engine still allows,
    and [RangeError] is what the engine throws beyond it. *)
Fixpoint Update (stack : nat) (cfg : Config) (features : value) (params : obj)
  : M string :=
  features <- array features ;;
  if truthy (get (VObj params) "properties") then
    Update_bulk cfg features params
  else
    parts <-
      mapM
        (fun f =>
           match stack with
           | O => throw RangeError
           | S stack' =>
               Update stack' cfg f
                 (set params "properties" (get f "properties"))
           end)
        features ;;
    ret (String.concat "" parts).

Definition Delete (features : value) (params : obj) : M string :=
  features <- array features ;;
  let filter__1 := get (VObj params) "filter" in
  let typeName__1 := get (VObj params) "typeName" in
  u <- unpack (or_else (get (VArr features) "0") (VObj [])) params
         ["layer"; "ns"] ;;
  let ns := get (VObj u) "ns" in
  let layer := get (VObj u) "layer" in
  typeName__1 <- typeName ns layer typeName__1 ;;
  filter__1 <- filter filter__1 features params ;;
  wfs "Delete" [("typeName", typeName__1)] filter__1.

(** [Replace].  (For a first feature that is itself an array the source
    finds [Array.prototype.filter] under the name [filter]; the model reads
    own properties only.) *)
Definition Replace (cfg : Config) (features : value) (params : obj)
  : M string :=
  features <- array features ;;
  u <- unpack (or_else (get (VArr features) "0") (VObj [])) params
         ["filter"; "inputFormat"; "srsName"] ;;
  let filter__1 := get (VObj u) "filter" in
  let inputFormat := get (VObj u) "inputFormat" in
  let srsName := get (VObj u) "srsName" in
  replacements <-
    translateFeatures cfg (List.filter truthy [get (VArr features) "0"])
      params ;;
  filter__1 <- filter filter__1 features params ;;
  wfs "Replace" [("inputFormat", inputFormat); ("srsName", srsName)]
    (VStr (replacements ++ to_string filter__1)).

Definition is_string (v : value) : bool :=
  match v with VStr _ => true | _ => false end.

Definition is_array (v : value) : bool :=
  match v with VArr _ => true | _ => false end.

(** The [every] test of [Transaction]; on a non-array it is not reached. *)
Definition every_string (v : value) : bool :=
  match v with
  | VArr l => forallb is_string l
  | _ => false
  end.

(** The [version] attribute [Transaction] writes. *)
Definition transaction_version (version : value) : value :=
  if version_re_test (to_string (or_else version (VStr "")))
  then version
  else VStr "2.0.0".

(** The attributes of the [wfs:Transaction] element: the part of
    [Transaction] after [finalActions] is known. *)
Definition transaction_attrs (actions : value) (params : obj) : M obj :=
  let transactionParams := ["srsName"; "lockId"; "releaseAction"; "handle"] in
  let version := get (VObj params) "version" in
  let nsAssignments :=
    match get (VObj params) "nsAssignments" with
    | VUndef => VObj []
    | v => v
    end in
  attrs <- generateNsAssignments nsAssignments actions ;;
  schemaLines <- generateSchemaLines (get (VObj params) "schemaLocations") ;;
  let attrs := set attrs "xsi:schemaLocation" (VStr schemaLines) in
  let attrs := set attrs "service" (VStr "WFS") in
  let attrs := set attrs "version" (transaction_version version) in
  ret (fold_left
         (fun attrs param =>
            if truthy (get (VObj params) param)
            then set attrs param (get (VObj params) param)
            else attrs)
         transactionParams attrs).

(** The body of the [wfs:Transaction] element: [finalActions]. *)
Definition transaction_actions (stack : nat) (cfg : Config) (actions : value)
    (params : obj) : M string :=
  let _ref := or_else actions (VObj []) in
  let toInsert := get _ref "insert" in
  let toUpdate := get _ref "update" in
  let toDelete := get _ref "delete" in
  if is_array actions && every_string actions then join actions ""
  else if is_string actions then ret (to_string actions)
  else if existsb truthy [toInsert; toUpdate; toDelete] then
    i <- Insert cfg toInsert params ;;
    u <- Update stack cfg toUpdate params ;;
    d <- Delete toDelete params ;;
    ret (i ++ u ++ d)
  else throw (ErrorJSON "unexpected input: " actions).

Definition Transaction (stack : nat) (cfg : Config) (actions : value)
    (params : obj) : M string :=
  finalActions <- transaction_actions stack cfg actions params ;;
  attrs <- transaction_attrs actions params ;;
  wfs "Transaction" attrs (VStr finalActions).

(** ** Reading results *)

(** [needle] occurs in [hay]. *)
Fixpoint contains (needle hay : string) : bool :=
  String.prefix needle hay
  || match hay with
     | EmptyString => false
     | String _ r => contains needle r
     end.

(** The outcome of a computation, without its warnings. *)
Definition result {A : Type} (m : M A) : outcome A := fst m.
Definition warnings {A : Type} (m : M A) : list string := snd m.

(** ** The specification's wording, for comparison *)

(** [a ?? b]. *)
Definition coalesce (a b : value) : value := if is_nullish a then b else a.

(** A layer given as an object carrying an [id] field stands for that
    field. *)
Definition spec_unwrap_layer (v : value) : value :=
  match v with
  | VObj o => match lookup o "id" with Some x => x | None => v end
  | _ => v
  end.

(** The precedence the specification gives to AttributeResolver: the
    feature first for the reserved names, the options first for the
    others. *)
Definition spec_resolve (feature params : obj) (name : string) : value :=
  let f := get (VObj feature) name in
  let p := get (VObj params) name in
  if name =? "layer" then
    coalesce (coalesce (spec_unwrap_layer f) (spec_unwrap_layer p)) (VStr "")
  else if has featureMembers name then coalesce (coalesce f p) (VStr "")
  else coalesce (coalesce p f) (VStr "").

(** [a || b || ... || ''] on values already computed. *)
Fixpoint first_truthy (l : list value) : value :=
  match l with
  | [] => VStr ""
  | v :: r => if truthy v then v else first_truthy r
  end.

(** What [unpack] stores under [name], by the precedence it implements. *)
Definition resolve (feature : value) (params : obj) (name : string) : value :=
  let f := get feature name in
  let p := get (VObj params) name in
  if name =? "layer" then
    first_truthy [get (or_else p (VObj [])) "id"; p;
                  get (or_else f (VObj [])) "id"; f]
  else if has featureMembers name then first_truthy [p; f]
  else first_truthy [f; p].

(** The [wfs:Property] element of the property [k] with value [v], as the
    property loop of [Update] writes it. *)
Definition property_text (k : string) (v : value) : string :=
  let reference := "<wfs:ValueReference>" ++ k ++ "</wfs:ValueReference>" in
  match v with
  | VUndef => ""
  | VNull =>
      "<wfs:Property>" ++ reference
        ++ "<wfs:Value xsi:nil=" ++ dq ++ "true" ++ dq ++ "></wfs:Value>"
        ++ "</wfs:Property>"
  | _ =>
      "<wfs:Property>" ++ reference
        ++ "<wfs:Value>" ++ to_string (escape v) ++ "</wfs:Value>"
        ++ "</wfs:Property>"
  end.

(** The URI of the prefix [ns] once the defaults are in: [declared] is the
    caller's map, [found] the prefixes discovered in the text. *)
Definition uri_after_defaults (declared : obj) (found : list string)
    (ns : string) : value :=
  if ns =? "wfs" then VStr "http://www.opengis.net/wfs/2.0"
  else if ns =? "gml" then VStr "http://www.opengis.net/gml/3.2"
  else if ns =? "xsi" then VStr "http://www.w3.org/2001/XMLSchema-instance"
  else if (ns =? "fes") && has found "fes"
       then VStr "http://www.opengis.net/fes/2.0"
  else get (VObj declared) ns.

(** The prefixes [generateNsAssignments] discovers in a text. *)
Definition discovered (xml : string) : list string :=
  set_of (ns_re_scan 0 xml) [].

(** The specification's wording for a prefix: a non-empty run of letters,
    digits and underscores. *)
Definition is_prefix_name (ns : string) : bool :=
  negb (ns =? "") && string_forallb is_word_char ns.

(** The specification's wording for discovery: [ns] stands in the text
    after an opening angle bracket, or after [typeName=] and a double
    quote, and a colon follows it. *)
Definition stands_as_prefix (xml ns : string) : Prop :=
  is_prefix_name ns = true
  /\ exists pre post,
       xml = pre ++ "<" ++ ns ++ ":" ++ post
       \/ xml = pre ++ "typeName=" ++ dq ++ ns ++ ":" ++ post.

(** The first character of [s] that is no word character. *)
Fixpoint first_nonword (s : string) : option ascii :=
  match s with
  | EmptyString => None
  | String c r => if is_word_char c then first_nonword r else Some c
  end.

(** The specification's pattern [2.0.x], read as the whole version: the
    text [2.0.] followed by digits and nothing else. *)
Definition spec_version_form (s : string) : bool :=
  match strip_prefix "2.0." s with
  | Some (String d r) => is_digit d && string_forallb is_digit r
  | _ => false
  end.

(** The text holds [2.0.] followed by a digit, wherever that is. *)
Definition holds_2_0_digit (s : string) : Prop :=
  exists pre d post, s = pre ++ "2.0." ++ String d post /\ is_digit d = true.

(** The eight type tags of [converter]. *)
Definition recognized_types : list string :=
  ["Point"; "LineString"; "LinearRing"; "Polygon"; "MultiPoint";
   "MultiLineString"; "MultiPolygon"; "GeometryCollection"].

(** ** Sample data *)

(** The feature of the specification's end-to-end example. *)
Definition poi_feature : value :=
  VObj [("id", VStr "1");
        ("geometry",
         VObj [("type", VStr "Point");
               ("coordinates", VArr [VNum 1; VNum 2])]);
        ("properties", VObj [("name", VStr "a")])].

(** Its options as the specification spells them, and as the bundle reads
    them. *)
Definition poi_options_geometryName : obj :=
  [("ns", VStr "tiger"); ("layer", VStr "poi"); ("geometryName", VStr "geom")].

Definition poi_options_geometry_name : obj :=
  [("ns", VStr "tiger"); ("layer", VStr "poi");
   ("geometry_name", VStr "geom")].

Definition tiger_poi : obj := [("ns", VStr "tiger"); ("layer", VStr "poi")].

Definition road_5 : value := VObj [("id", VStr "5"); ("layer", VStr "roads")].

Definition circle : value :=
  VObj [("type", VStr "Circle"); ("coordinates", VArr [VNum 1; VNum 2])].

Definition swapped : Config := {| coordinateOrder := false |}.

(** A feature without a layer, one of whose properties is [NaN]. *)
Definition nan_feature : value :=
  VObj [("id", VStr "1"); ("properties", VObj [("n", VNaN)])].

(** A feature and an options bag that disagree on [id], [ns] and
    [layer]. *)
Definition topp_feature : obj :=
  [("id", VStr "f1"); ("ns", VStr "topp"); ("layer", VStr "roads")].

Definition tiger_options : obj :=
  [("id", VStr "p1"); ("ns", VStr "tiger"); ("layer", VStr "poi")].

(** The [wfs:Insert] of [poi_feature] without and with its geometry
    field. *)
Definition poi_insert_plain : string :=
  "<wfs:Insert><tiger:poi gml:id=" ++ dq ++ "poi.1" ++ dq ++ ">"
    ++ "<tiger:name>a</tiger:name></tiger:poi></wfs:Insert>".

Definition poi_insert_geom : string :=
  "<wfs:Insert><tiger:poi gml:id=" ++ dq ++ "poi.1" ++ dq ++ ">"
    ++ "<tiger:geom><gml:Point><gml:pos>1 2</gml:pos></gml:Point></tiger:geom>"
    ++ "<tiger:name>a</tiger:name></tiger:poi></wfs:Insert>".

(** The filter [filter] synthesizes for one feature whose id is [5]. *)
Definition filter_object_5 : string :=
  "<fes:Filter><fes:ResourceId rid=" ++ dq ++ "[object Object].5" ++ dq
    ++ "/></fes:Filter>".

(** The [wfs:Delete] of [poi_feature]. *)
Definition poi_delete : string :=
  "<wfs:Delete typeName=" ++ dq ++ "tiger:poiType" ++ dq ++ ">"
    ++ "<fes:Filter><fes:ResourceId rid=" ++ dq ++ "[object Object].1" ++ dq
    ++ "/></fes:Filter></wfs:Delete>".

(** Bulk-update options whose one property is [undefined], and the
    [wfs:Update] they give for [poi_feature]. *)
Definition update_undefined_options : obj :=
  [("ns", VStr "tiger"); ("layer", VStr "poi");
   ("properties", VObj [("name", VUndef)])].

Definition update_undefined_result : string :=
  "<wfs:Update typeName=" ++ dq ++ "tiger:poiType" ++ dq ++ ">"
    ++ "<fes:Filter><fes:ResourceId rid=" ++ dq ++ "[object Object].1" ++ dq
    ++ "/></fes:Filter></wfs:Update>".

(** Bulk-update options with a [null], an [undefined] and a string
    property. *)
Definition update_mixed_options : obj :=
  [("ns", VStr "tiger"); ("layer", VStr "poi");
   ("properties",
    VObj [("a", VNull); ("b", VUndef); ("c", VStr "x<y")])].

Definition update_mixed_result : string :=
  "<wfs:Update typeName=" ++ dq ++ "tiger:poiType" ++ dq ++ ">"
    ++ "<wfs:Property><wfs:ValueReference>a</wfs:ValueReference>"
    ++ "<wfs:Value xsi:nil=" ++ dq ++ "true" ++ dq ++ "></wfs:Value>"
    ++ "</wfs:Property>"
    ++ "<wfs:Property><wfs:ValueReference>c</wfs:ValueReference>"
    ++ "<wfs:Value>x&lt;y</wfs:Value></wfs:Property>"
    ++ "<fes:Filter><fes:ResourceId rid=" ++ dq ++ "[object Object].1" ++ dq
    ++ "/></fes:Filter></wfs:Update>".

(** ** Vocabulary of the further properties *)

(** The characters [escape] replaces. *)
Definition is_special (c : ascii) : bool :=
  (c =? "<")%char || (c =? ">")%char || (c =? "&")%char || (c =? "'")%char
  || Nat.eqb (nat_of_ascii c) 34.

(** The characters that would end a text node or an attribute value. *)
Definition is_markup (c : ascii) : bool :=
  (c =? "<")%char || (c =? ">")%char || (c =? "'")%char
  || Nat.eqb (nat_of_ascii c) 34.

(** One attribute as [attrs$1] writes it. *)
Definition attribute_text (k : string) (v : value) : string :=
  " " ++ k ++ "=" ++ dq ++ to_string (escape v) ++ dq.

(** A coordinate tuple and a list of them, as arrays of whole numbers, for
    the samples. *)
Definition tuple (t : list Z) : value := VArr (map VNum t).

Definition tuples (ts : list (list Z)) : value := VArr (map tuple ts).

(** The text of a tuple: its components as [join] prints them, a space
    between each two. *)
Definition components (t : list value) : string :=
  join_strings " " (map elt_to_string t).

(** Three positions with decimal and large components. *)
Definition decimal_positions : list (list value) :=
  [[VDec (-1224194) (-4); VDec 377749 (-4)];
   [VDec 25 (-1); VNum 0; VDec 1 21];
   [VDec 1 (-7); VNum (-3)]].

(** The text of a [gml:Point] whose position is [pos]. *)
Definition point_text (params : GmlParams) (gmlId : value) (pos : string)
  : string :=
  "<gml:Point" ++ attrs [("srsName", srsName params); ("gml:id", gmlId)]
    ++ ">" ++ "<gml:pos" ++ attrs [("srsDimension", srsDimension params)]
    ++ ">" ++ pos ++ "</gml:pos>" ++ "</gml:Point>".

(** A standard GeoJSON collection: its members are under [geometries]. *)
Definition nested_collection : value :=
  VObj [("type", VStr "GeometryCollection");
        ("geometries",
         VArr [VObj [("type", VStr "GeometryCollection");
                     ("geometries",
                      VArr [VObj [("type", VStr "Point");
                                  ("coordinates", tuple [1; 2]%Z)]])]])].

(** A computation that logs no warning. *)
Definition silent {A : Type} (m : M A) : Prop := warnings m = [].

(** A member callback of [multi] none of whose encoders logs. *)
Definition silent_cb (cb : membercb) : Prop :=
  match cb with
  | Callback f => forall c g p, silent (f c g p)
  | Table t => forall ty f, t ty = Some f -> forall c g p, silent (f c g p)
  end.

(** The filter [filter] hands back: the explicit one when it is truthy,
    one [fes:ResourceId] per feature otherwise. *)
Definition filter_result (explicit : value) (features : list value) : value :=
  if truthy explicit then explicit
  else VStr ("<fes:Filter>"
               ++ String.concat ""
                    (map (fun f => idFilter (VObj []) (get f "id")) features)
               ++ "</fes:Filter>").

(** The feature whose settings [Update], [Delete] and [Replace] read:
    [features[0] || {}]. *)
Definition first_feature (features : list value) : value :=
  or_else (get (VArr features) "0") (VObj []).

(** The type name [typeName] forms from a namespace and a layer. *)
Definition derived_typeName (ns layer : value) : value :=
  VStr (to_string ns ++ ":" ++ to_string layer ++ "Type").

(** Two features of different layers. *)
Definition road_and_river : list value :=
  [VObj [("id", VStr "5"); ("layer", VStr "roads"); ("ns", VStr "topp")];
   VObj [("id", VStr "6"); ("layer", VStr "rivers"); ("ns", VStr "topp")]].

(** An option that is left out or given as an object. *)
Definition absent_or_object (v : value) : bool :=
  match v with VUndef | VObj _ => true | _ => false end.

(** The declared namespace map [Transaction] passes on. *)
Definition declared_namespaces (params : obj) : obj :=
  match get (VObj params) "nsAssignments" with
  | VObj o => o
  | _ => []
  end.

(** The default schema location and the line of it in
    [xsi:schemaLocation]. *)
Definition wfs_uri : string := "http://www.opengis.net/wfs/2.0".
Definition wfs_xsd : string := "http://schemas.opengis.net/wfs/2.0/wfs.xsd".
Definition wfs_schema_line : string := wfs_uri ++ nl ++ wfs_xsd.

(** The element [Transaction] wraps around its actions. *)
Definition transaction_element (attrs : obj) (body : string) : string :=
  "<wfs:Transaction" ++ attrs_1 attrs ++ ">" ++ body ++ "</wfs:Transaction>".

(** The optional attributes of [wfs:Transaction]. *)
Definition transactionParams : list string :=
  ["srsName"; "lockId"; "releaseAction"; "handle"].

(** The field [translateFeatures] writes for the property [k] with value
    [v] under the namespace [ns]. *)
Definition field_text (ns : value) (k : string) (v : value) : string :=
  let qname := (if truthy ns then to_string ns ++ ":" else "") ++ k in
  match v with
  | VUndef | VNull => ""
  | _ => "<" ++ qname ++ ">" ++ to_string (escape v) ++ "</" ++ qname ++ ">"
  end.

(** * Properties *)

(** ** The monad *)

Section MonadFacts.

Context {A B : Type}.

Lemma bind_ret (a : A) (f : A -> M B) : bind (ret a) f = f a.
Proof. unfold bind, ret. destruct (f a); reflexivity. Qed.

Lemma bind_throw (e : exn) (w : list string) (f : A -> M B) :
  bind (Throw e, w) f = (Throw e, w).
Proof. reflexivity. Qed.

Lemma bind_Ret_inv (m : M A) (f : A -> M B) (b : B) (w : list string) :
  bind m f = (Ret b, w) ->
  exists a w1 w2,
    m = (Ret a, w1) /\ f a = (Ret b, w2) /\ w = (w1 ++ w2)%list.
Proof.
  destruct m as [[a | e] w1]; simpl; [| discriminate].
  destruct (f a) as [r w2] eqn:E. intros H. inversion H; subst.
  exists a, w1, w2. auto.
Qed.

Lemma bind_Throw_inv (m : M A) (f : A -> M B) (e : exn) (w : list string) :
  bind m f = (Throw e, w) ->
  m = (Throw e, w) \/
  exists a w1 w2,
    m = (Ret a, w1) /\ f a = (Throw e, w2) /\ w = (w1 ++ w2)%list.
Proof.
  destruct m as [[a | e'] w1]; simpl.
  - destruct (f a) as [r w2] eqn:E. intros H. inversion H; subst.
    right. exists a, w1, w2. auto.
  - intros H. inversion H; subst. auto.
Qed.

(** A computation ends one way or the other. *)
Lemma outcome_cases (m : M A) :
  (exists a w, m = (Ret a, w)) \/ (exists e w, m = (Throw e, w)).
Proof. destruct m as [[a | e] w]; eauto. Qed.

Lemma bind_throws_left (m : M A) (f : A -> M B) :
  (exists e w, m = (Throw e, w)) -> exists e w, bind m f = (Throw e, w).
Proof. intros (e & w & ->). exists e, w. reflexivity. Qed.

Lemma bind_throws_right (m : M A) (f : A -> M B) :
  (forall a, exists e w, f a = (Throw e, w)) ->
  exists e w, bind m f = (Throw e, w).
Proof.
  intros H. destruct m as [[a | e] w]; simpl; eauto.
  destruct (H a) as (e & w' & ->). eauto.
Qed.
End MonadFacts.

(** A loop throws when the body throws at one of its elements, whatever
    the accumulator is there. *)
Lemma foldM_throws {A S : Type} (f : S -> A -> M S) (l : list A) (x : A) :
  In x l ->
  (forall s, exists e w, f s x = (Throw e, w)) ->
  forall s, exists e w, foldM f l s = (Throw e, w).
Proof.
  intros Hin Hx. induction l as [| y l IH]; [contradiction |].
  intros s. simpl. destruct Hin as [-> | Hin].
  - apply bind_throws_left. apply Hx.
  - apply bind_throws_right. intros s'. apply IH, Hin.
Qed.

(** ** Numbers *)

(** Numbers print as JavaScript prints them: whole numbers in full up to
    21 digits and with an exponent beyond, decimals with the fewest digits
    that tell them apart, and a literal beyond the 53 bits of a significand
    as the nearest number that has them. *)
Lemma number_text_examples :
  to_string (VNum 5) = "5"
  /\ to_string (VNum (-3)) = "-3"
  /\ to_string (VNum 100000000000000000000) = "100000000000000000000"
  /\ to_string (VNum 1000000000000000000000) = "1e+21"
  /\ to_string (VNum 9007199254740993) = "9007199254740992"
  /\ to_string (VDec 15 (-1)) = "1.5"
  /\ to_string (VDec (-1224194) (-4)) = "-122.4194"
  /\ to_string (VDec 30000000000000004 (-17)) = "0.30000000000000004"
  /\ to_string (VDec 1 (-6)) = "0.000001"
  /\ to_string (VDec 1 (-7)) = "1e-7"
  /\ to_string (VDec 1 400) = "Infinity"
  /\ truthy (VDec 1 (-400)) = false
  /\ to_string (id_1 (VStr "roads") (VDec 1 21)) = "roads.1e+21".
Proof. repeat split; vm_compute; reflexivity. Qed.

(** ** Strings *)

Lemma append_empty_r (s : string) : s ++ "" = s.
Proof. induction s; simpl; congruence. Qed.

Lemma append_assoc (s t u : string) : (s ++ t) ++ u = s ++ t ++ u.
Proof. induction s; simpl; congruence. Qed.

Lemma string_forallb_app (p : ascii -> bool) (s t : string) :
  string_forallb p (s ++ t) = string_forallb p s && string_forallb p t.
Proof.
  induction s as [| c s IH]; simpl; [reflexivity |].
  rewrite IH, andb_assoc. reflexivity.
Qed.

Lemma length_append (a b : string) :
  String.length (a ++ b) = String.length a + String.length b.
Proof. induction a as [| c a IH]; simpl; [reflexivity | rewrite IH; reflexivity]. Qed.

Lemma append_eq_split (a b c d : string) :
  a ++ b = c ++ d ->
  exists e, (a = c ++ e /\ d = e ++ b) \/ (c = a ++ e /\ b = e ++ d).
Proof.
  revert c. induction a as [| x a IH]; intros c H.
  - exists c. right. split; [reflexivity | exact H].
  - destruct c as [| y c].
    + exists (String x a). left. split; [reflexivity |]. symmetry. exact H.
    + cbn [String.append] in H. inversion H; subst.
      match goal with E : a ++ b = c ++ d |- _ =>
        destruct (IH c E) as (e & [[-> ->] | [-> ->]]) end;
        exists e; [left | right]; split; reflexivity.
Qed.

Lemma concat_cons (s : string) (l : list string) :
  String.concat "" (s :: l) = s ++ String.concat "" l.
Proof. destruct l; simpl; [rewrite append_empty_r |]; reflexivity. Qed.

(** ** Objects *)

Lemma lookup_set (o : obj) (k k' : string) (v : value) :
  lookup (set o k v) k' = if k =? k' then Some v else lookup o k'.
Proof.
  induction o as [| [k0 v0] o IH]; simpl.
  - reflexivity.
  - destruct (k0 =? k) eqn:E0.
    + apply String.eqb_eq in E0; subst k0. simpl.
      destruct (k =? k'); reflexivity.
    + simpl. destruct (k0 =? k') eqn:E1.
      * apply String.eqb_eq in E1; subst k0. rewrite String.eqb_sym, E0.
        reflexivity.
      * apply IH.
Qed.

Lemma get_set (o : obj) (k k' : string) (v : value) :
  get (VObj (set o k v)) k' = if k =? k' then v else get (VObj o) k'.
Proof. simpl. rewrite lookup_set. destruct (k =? k'); reflexivity. Qed.

Lemma getM_not_nullish (v : value) (k : string) :
  is_nullish v = false -> getM v k = ret (get v k).
Proof. unfold getM. intros ->. reflexivity. Qed.

(** ** AttributeResolver: [unpack] *)

Lemma unpack_arg_resolve (feature : value) (params : obj) (name : string) :
  is_nullish feature = false ->
  unpack_arg feature params name = ret (resolve feature params name).
Proof.
  intros Hf. unfold unpack_arg, resolve. cbn [first_truthy].
  destruct (name =? "layer") eqn:E.
  - apply String.eqb_eq in E. subst name.
    destruct (truthy (get (or_else (get (VObj params) "layer") (VObj [])) "id"));
      [reflexivity |].
    destruct (truthy (get (VObj params) "layer")); [reflexivity |].
    rewrite (getM_not_nullish _ _ Hf), bind_ret.
    destruct (truthy (get (or_else (get feature "layer") (VObj [])) "id"));
      [reflexivity |].
    unfold or_else. destruct (truthy (get feature "layer")); reflexivity.
  - destruct (has featureMembers name); cbn [negb].
    + destruct (truthy (get (VObj params) name)); [reflexivity |].
      rewrite (getM_not_nullish _ _ Hf), bind_ret. unfold or_else.
      destruct (truthy (get feature name)); reflexivity.
    + rewrite (getM_not_nullish _ _ Hf), bind_ret.
      destruct (truthy (get feature name)); [reflexivity |].
      unfold or_else. destruct (truthy (get (VObj params) name)); reflexivity.
Qed.

Lemma unpack_from (feature : value) (params : obj) (args : list string) :
  is_nullish feature = false ->
  forall acc : obj,
  exists results,
    foldM
      (fun results arg =>
         v <- unpack_arg feature params arg ;; ret (set results arg v))
      args acc = ret results
    /\ forall name,
         get (VObj results) name =
         if has args name then resolve feature params name
         else get (VObj acc) name.
Proof.
  intros Hf. induction args as [| a args IH]; intros acc.
  - exists acc. split; reflexivity.
  - cbn [foldM]. rewrite (unpack_arg_resolve _ _ _ Hf), !bind_ret.
    destruct (IH (set acc a (resolve feature params a))) as (r & Hr & Hget).
    exists r. split; [exact Hr |]. intros name. rewrite Hget.
    unfold has. cbn [existsb]. fold (has args name).
    destruct (has args name).
    + rewrite orb_true_r. reflexivity.
    + rewrite orb_false_r, get_set, String.eqb_sym.
      destruct (name =? a) eqn:E; [| reflexivity].
      apply String.eqb_eq in E. subst. reflexivity.
Qed.

Lemma unpack_resolve (feature : value) (params : obj) (args : list string) :
  is_nullish feature = false ->
  exists results,
    unpack feature params args = ret results
    /\ forall name,
         get (VObj results) name =
         if has args name then resolve feature params name else VUndef.
Proof. intros Hf. exact (unpack_from feature params args Hf []). Qed.

Lemma has_In (l : list string) (k : string) : has l k = true <-> In k l.
Proof.
  unfold has. rewrite existsb_exists. split.
  - intros (x & Hin & E). apply String.eqb_eq in E. subst. exact Hin.
  - intros Hin. exists k. split; [exact Hin | apply String.eqb_refl].
Qed.

(** C1, as amended: for a feature object, an options bag and requested
    names (none of them a name that [Object.prototype] defines), [unpack]
    returns an object that holds, under every requested name, the first
    truthy value of a fixed sequence and the empty string when there is
    none.  For [layer] the sequence is the options' [layer.id], the options'
    [layer], the feature's [layer.id], the feature's [layer]; for the other
    reserved names ([properties], [geometry], [id]) it is the options'
    value, then the feature's; for every other name it is the feature's
    value, then the options'. *)
Theorem unpack_precedence :
  forall (feature params : obj) (args : list string),
    Forall (fun name => ~ In name Object_prototype_names) args ->
    exists results,
      unpack (VObj feature) params args = ret results
      /\ forall name, In name args ->
           let f := get (VObj feature) name in
           let p := get (VObj params) name in
           let r := get (VObj results) name in
           (name = "layer" ->
            r = first_truthy [get (or_else p (VObj [])) "id"; p;
                              get (or_else f (VObj [])) "id"; f])
           /\ (name <> "layer" -> has featureMembers name = true ->
               r = first_truthy [p; f])
           /\ (has featureMembers name = false -> r = first_truthy [f; p]).
Proof.
  intros feature params args _.
  destruct (unpack_resolve (VObj feature) params args eq_refl)
    as (results & Hr & Hget).
  exists results. split; [exact Hr |]. intros name Hin. cbv zeta.
  rewrite Hget. apply has_In in Hin. rewrite Hin. unfold resolve.
  repeat split.
  - intros ->. reflexivity.
  - intros Hn Hm. apply String.eqb_neq in Hn. rewrite Hn, Hm. reflexivity.
  - intros Hm. destruct (name =? "layer") eqn:E.
    + apply String.eqb_eq in E. subst. discriminate.
    + rewrite Hm. reflexivity.
Qed.

Lemma unpack_precedence_witness :
  Forall (fun name => ~ In name Object_prototype_names) ["id"; "ns"; "layer"]
  /\ exists results,
       unpack (VObj topp_feature) tiger_options ["id"; "ns"; "layer"]
       = ret results
       /\ forall name, In name ["id"; "ns"; "layer"] ->
            let f := get (VObj topp_feature) name in
            let p := get (VObj tiger_options) name in
            let r := get (VObj results) name in
            (name = "layer" ->
             r = first_truthy [get (or_else p (VObj [])) "id"; p;
                               get (or_else f (VObj [])) "id"; f])
            /\ (name <> "layer" -> has featureMembers name = true ->
                r = first_truthy [p; f])
            /\ (has featureMembers name = false -> r = first_truthy [f; p]).
Proof.
  assert (H : Forall (fun name => ~ In name Object_prototype_names)
                ["id"; "ns"; "layer"]).
  { repeat constructor; simpl; intros H;
      repeat (destruct H as [H | H]; [discriminate H |]); exact H. }
  split; [exact H |].
  exact (unpack_precedence topp_feature tiger_options ["id"; "ns"; "layer"] H).
Defined.

(** C1, as the specification states it, fails: where the feature and the
    options both carry [id], [ns] and [layer], [unpack] takes [id] and
    [layer] from the options and [ns] from the feature, the opposite of the
    stated precedence on all three names. *)
Lemma unpack_contradicts_spec_precedence :
  unpack (VObj topp_feature) tiger_options ["id"; "ns"; "layer"]
  = ret [("id", VStr "p1"); ("ns", VStr "topp"); ("layer", VStr "poi")]
  /\ spec_resolve topp_feature tiger_options "id" = VStr "f1"
  /\ spec_resolve topp_feature tiger_options "ns" = VStr "tiger"
  /\ spec_resolve topp_feature tiger_options "layer" = VStr "roads"
  /\ ~ (exists results,
          unpack (VObj topp_feature) tiger_options ["id"] = ret results
          /\ get (VObj results) "id"
             = spec_resolve topp_feature tiger_options "id").
Proof.
  repeat split; try reflexivity.
  intros (results & Hr & Hid). vm_compute in Hr. inversion Hr; subst.
  vm_compute in Hid. discriminate.
Qed.

(** ** FilterSynthesizer: [filter] and [id$1] *)

Lemma filter_explicit (flt : value) (features : list value) (params : obj) :
  truthy flt = true -> filter flt features params = ret flt.
Proof. unfold filter. intros ->. reflexivity. Qed.

Lemma filter_loop (features : list value) (params : obj) :
  Forall (fun f => is_nullish f = false) features ->
  forall acc,
    foldM
      (fun flt feature =>
         layer <- unpack feature params [] ;;
         id <- getM feature "id" ;;
         ret (flt ++ idFilter (VObj layer) id))
      features acc
    = ret (acc ++ String.concat ""
                    (map (fun f => idFilter (VObj []) (get f "id")) features)).
Proof.
  induction 1 as [| f l Hf _ IH]; intros acc.
  - simpl. rewrite append_empty_r. reflexivity.
  - cbn [foldM map]. unfold unpack at 1. cbn [foldM]. rewrite bind_ret.
    rewrite (getM_not_nullish _ _ Hf), !bind_ret, IH, concat_cons.
    rewrite append_assoc. reflexivity.
Qed.

(** Without an explicit filter, every predicate is built from an empty
    object in place of the layer: neither the feature's layer nor the
    options' is read. *)
Lemma filter_synthesized (features : list value) (params : obj) :
  Forall (fun f => is_nullish f = false) features ->
  filter VUndef features params
  = ret (VStr ("<fes:Filter>"
                 ++ String.concat ""
                      (map (fun f => idFilter (VObj []) (get f "id")) features)
                 ++ "</fes:Filter>")).
Proof.
  intros H. unfold filter. cbn [truthy negb].
  rewrite (filter_loop features params H ""), bind_ret. reflexivity.
Qed.

(** C2, at its failing input: for the feature [{id: '5', layer: 'roads'}]
    and the options [{layer: 'roads'}] the synthesized predicate addresses
    [[object Object].5], not [roads.5], although [id$1] itself formats
    [roads] and [5] as [roads.5] and leaves [other.5] as it is. *)
Theorem filter_rid_ignores_layer :
  filter VUndef [road_5] [("layer", VStr "roads")] = ret (VStr filter_object_5)
  /\ id_1 (VStr "roads") (VStr "5") = VStr "roads.5"
  /\ id_1 (VStr "roads") (VStr "other.5") = VStr "other.5".
Proof. repeat split. Qed.

(** ** TransactionAssembler: structured bags *)

Lemma array_nullish_throws (v : value) :
  is_nullish v = true -> array v = throw TypeError.
Proof. unfold array, getM. intros ->. reflexivity. Qed.

Lemma Insert_nullish_throws (cfg : Config) (v : value) (params : obj) :
  is_nullish v = true -> Insert cfg v params = throw TypeError.
Proof. intros H. unfold Insert. rewrite (array_nullish_throws v H). reflexivity. Qed.

Lemma Update_nullish_throws (stack : nat) (cfg : Config) (v : value)
    (params : obj) :
  is_nullish v = true -> Update stack cfg v params = throw TypeError.
Proof.
  intros H. destruct stack; cbn [Update];
    rewrite (array_nullish_throws v H); reflexivity.
Qed.

Lemma Delete_nullish_throws (v : value) (params : obj) :
  is_nullish v = true -> Delete v params = throw TypeError.
Proof. intros H. unfold Delete. rewrite (array_nullish_throws v H). reflexivity. Qed.

(** C3, where the code departs from it: a structured bag that lacks one of
    the keys [insert], [update], [delete] (or holds [null] there) never
    yields a transaction.  [Transaction] calls the three builders whatever
    keys are present, and [array] throws on the absent payload. *)
Theorem Transaction_partial_bag_throws :
  forall (stack : nat) (cfg : Config) (bag params : obj),
    is_nullish (get (VObj bag) "insert")
    || is_nullish (get (VObj bag) "update")
    || is_nullish (get (VObj bag) "delete") = true ->
    exists e w, Transaction stack cfg (VObj bag) params = (Throw e, w).
Proof.
  intros stack cfg bag params H.
  unfold Transaction. apply bind_throws_left.
  unfold transaction_actions. cbn [is_array is_string andb or_else truthy].
  destruct (existsb truthy _); [| do 2 eexists; reflexivity].
  destruct (is_nullish (get (VObj bag) "insert")) eqn:Hi.
  { rewrite (Insert_nullish_throws cfg _ params Hi).
    do 2 eexists. reflexivity. }
  apply bind_throws_right. intros i.
  destruct (is_nullish (get (VObj bag) "update")) eqn:Hu.
  { rewrite (Update_nullish_throws stack cfg _ params Hu).
    do 2 eexists. reflexivity. }
  apply bind_throws_right. intros u.
  cbn [orb] in H.
  rewrite (Delete_nullish_throws _ params H). do 2 eexists. reflexivity.
Qed.

Lemma Transaction_partial_bag_throws_witness :
  is_nullish (get (VObj [("delete", VArr [poi_feature])]) "insert")
  || is_nullish (get (VObj [("delete", VArr [poi_feature])]) "update")
  || is_nullish (get (VObj [("delete", VArr [poi_feature])]) "delete") = true
  /\ exists e w,
       Transaction 8 config (VObj [("delete", VArr [poi_feature])]) tiger_poi
       = (Throw e, w).
Proof.
  split; [reflexivity |].
  apply (Transaction_partial_bag_throws 8 config
           [("delete", VArr [poi_feature])] tiger_poi).
  reflexivity.
Defined.

(** The failing input of C3 run to its end: the delete-only bag raises a
    [TypeError], while [Delete] on the same payload returns its
    fragment. *)
Lemma Transaction_delete_only (stack : nat) :
  Transaction stack config (VObj [("delete", VArr [poi_feature])]) tiger_poi
  = throw TypeError
  /\ Delete (VArr [poi_feature]) tiger_poi = ret poi_delete.
Proof. split; reflexivity. Qed.

(** ** GeometryEncoder: nested collections *)

Lemma list_max_In (l : list nat) (n : nat) : In n l -> n <= list_max l.
Proof.
  induction l as [| m l IH]; simpl; [contradiction |].
  intros [-> | H]; [lia |]. specialize (IH H). lia.
Qed.

Lemma lookup_depth (o : obj) (k : string) (x : value) :
  lookup o k = Some x ->
  depth x <= list_max (map (fun p => match p with (_, y) => depth y end) o).
Proof.
  induction o as [| [k' v] o IH]; simpl; [discriminate |].
  destruct (k' =? k).
  - intros H. inversion H; subst. lia.
  - intros H. specialize (IH H). lia.
Qed.

Lemma lookup_index_In {A : Type} (ks : list string) (l : list A)
    (k : string) (x : A) :
  lookup_index ks l k = Some x -> In x l.
Proof.
  revert l. induction ks as [| k' ks IH]; intros l; simpl; [discriminate |].
  destruct l as [| y l]; [discriminate |].
  destruct (k' =? k).
  - intros H. inversion H. left. reflexivity.
  - intros H. right. eapply IH, H.
Qed.

(** A property of a value lies strictly inside it. *)
Lemma depth_get (v : value) (k : string) :
  depth (get v k) <= Nat.pred (depth v).
Proof.
  destruct v as [| | b | n | m e | | s | l | o | msg]; simpl; try lia.
  - destruct (k =? "length"); [simpl; lia |].
    destruct (lookup_index _ _ k); simpl; lia.
  - destruct (k =? "length"); [simpl; lia |].
    destruct (lookup_index (index_keys (length l)) l k) as [x |] eqn:E;
      [| simpl; lia].
    apply lookup_index_In in E. apply list_max_In, in_map, E.
  - destruct (lookup o k) as [x |] eqn:E; [| simpl; lia].
    apply lookup_depth in E. exact E.
  - destruct (k =? "message"); simpl; lia.
Qed.

Lemma bind_ext {A B : Type} (m : M A) (f g : A -> M B) :
  (forall a, f a = g a) -> bind m f = bind m g.
Proof. intros H. destruct m as [[a | e] w]; simpl; [rewrite H |]; reflexivity. Qed.

Lemma foldM_ext_in {A S : Type} (f g : S -> A -> M S) (l : list A) :
  (forall s x, In x l -> f s x = g s x) ->
  forall s, foldM f l s = foldM g l s.
Proof.
  induction l as [| x l IH]; intros H s; [reflexivity |].
  cbn [foldM]. rewrite (H s x (or_introl eq_refl)). apply bind_ext.
  intros s'. apply IH. intros s'' y Hy. apply H. right. exact Hy.
Qed.

Lemma bind_assoc {A B C : Type} (m : M A) (f : A -> M B) (g : B -> M C) :
  bind (bind m f) g = bind m (fun a => bind (f a) g).
Proof.
  destruct m as [[a | e] w]; simpl; [| reflexivity].
  destruct (f a) as [[b | e] w']; simpl; [| reflexivity].
  destruct (g b) as [r w'']. rewrite app_assoc. reflexivity.
Qed.

Lemma bind_ret_r {A : Type} (m : M A) : bind m ret = m.
Proof.
  destruct m as [[a | e] w]; simpl; [rewrite app_nil_r |]; reflexivity.
Qed.

Lemma bind_Ret {A B : Type} (a : A) (w : list string) (f : A -> M B) :
  bind (Ret a, w) f = (fst (f a), (w ++ snd (f a))%list).
Proof. simpl. destruct (f a); reflexivity. Qed.

Lemma foldM_app {A S : Type} (f : S -> A -> M S) (l1 l2 : list A) (s : S) :
  foldM f (l1 ++ l2) s = (s' <- foldM f l1 s ;; foldM f l2 s').
Proof.
  revert s. induction l1 as [| x l1 IH]; intros s.
  - cbn [app foldM]. rewrite bind_ret. reflexivity.
  - cbn [app foldM]. rewrite bind_assoc. apply bind_ext. intros s'. apply IH.
Qed.

Lemma GeometryCollection_n_unfold (n : nat) (cfg : Config)
    (geoms gmlId : value) (params : GmlParams) :
  GeometryCollection_n n cfg geoms gmlId params
  = multi "MultiGeometry" "geometryMembers"
      (Table (assoc (converter_with cfg
                       match n with
                       | O => fun _ _ _ => throw RangeError
                       | S k => GeometryCollection_n k cfg
                       end)))
      geoms gmlId params.
Proof. destruct n; reflexivity. Qed.

(** Two bounds that both cover the depth of [geoms] give the same
    result. *)
Lemma GeometryCollection_n_stable (cfg : Config) :
  forall (n m : nat) (geoms gmlId : value) (params : GmlParams),
    depth geoms <= n -> depth geoms <= m ->
    GeometryCollection_n n cfg geoms gmlId params
    = GeometryCollection_n m cfg geoms gmlId params.
Proof.
  induction n as [| n IH]; intros m geoms gmlId params Hn Hm;
    rewrite !GeometryCollection_n_unfold; unfold multi;
    destruct geoms as [| | b | z | dm de | | s | members | o | msg];
    try reflexivity; cbn [as_array]; rewrite !bind_ret.
  - simpl in Hn. lia.
  - destruct m as [| m]; [simpl in Hm; lia |].
    apply (f_equal (fun x => bind x _)).
    apply foldM_ext_in. intros acc [i member] Hin.
    apply in_combine_r in Hin. apply bind_ext. intros member_id.
    cbn [String.eqb Ascii.eqb Bool.eqb].
    assert (Hd : depth (get member "coordinates") <= n
                 /\ depth (get member "coordinates") <= m).
    { pose proof (depth_get member "coordinates") as H1.
      pose proof (list_max_In _ _ (in_map depth _ _ Hin)) as H2.
      simpl in Hn, Hm. lia. }
    destruct Hd as [Hdn Hdm].
    unfold converter_with. cbn [assoc].
    repeat match goal with
    | |- context [?k =? to_string ?t] =>
        destruct (k =? to_string t);
        [first [reflexivity | rewrite (IH m _ _ _ Hdn Hdm); reflexivity] |]
    end.
    reflexivity.
Qed.

(** [GeometryCollection] never meets the bound of [GeometryCollection_n]:
    any bound that covers the depth of the members gives its result. *)
Lemma GeometryCollection_n_enough (cfg : Config) (n : nat)
    (geoms gmlId : value) (params : GmlParams) :
  depth geoms <= n ->
  GeometryCollection_n n cfg geoms gmlId params
  = GeometryCollection cfg geoms gmlId params.
Proof.
  intros H. unfold GeometryCollection.
  apply GeometryCollection_n_stable; [exact H | lia].
Qed.

(** ** GeometryEncoder: unknown type tags *)

Lemma converter_unrecognized (cfg : Config) (ty : string) :
  ~ In ty recognized_types -> converter cfg ty = None.
Proof.
  intros H. unfold converter, converter_with. cbn [assoc].
  repeat match goal with
  | |- context [?k =? ty] =>
      let E := fresh "E" in
      destruct (k =? ty) eqn:E;
      [ apply String.eqb_eq in E; subst ty; exfalso; apply H; simpl; tauto | ]
  end.
  reflexivity.
Qed.

(** C4, where the code departs from it: for a geometry whose type tag is
    none of the eight (nor a name that [Object.prototype] defines, which the
    table lookup of the source would find), [geomToGml] returns normally,
    and what it returns is the [Error] object built by its [warn] function,
    whose message names the tag.  Nothing is raised. *)
Theorem geomToGml_unknown_type_returns_error :
  forall (cfg : Config) (geom gmlId : value) (params : GmlParams),
    is_nullish geom = false ->
    ~ In (to_string (get geom "type")) recognized_types ->
    ~ In (to_string (get geom "type")) Object_prototype_names ->
    geomToGml cfg geom gmlId params
    = ret (VErr ("unkown: " ++ to_string (get geom "type") ++ " "
                   ++ join_strings ","
                        (map elt_to_string
                           [geom; gmlId; params_value params]))).
Proof.
  intros cfg geom gmlId params Hg Hty _. unfold geomToGml.
  rewrite (getM_not_nullish _ _ Hg), bind_ret.
  rewrite (converter_unrecognized cfg _ Hty). reflexivity.
Qed.

Lemma geomToGml_unknown_type_witness :
  is_nullish circle = false
  /\ ~ In (to_string (get circle "type")) recognized_types
  /\ ~ In (to_string (get circle "type")) Object_prototype_names
  /\ geomToGml config circle (VStr "") no_params
     = ret (VErr "unkown: Circle [object Object],,[object Object]").
Proof.
  split; [reflexivity |].
  assert (H : ~ In (to_string (get circle "type")) recognized_types).
  { simpl. intros H.
    repeat (destruct H as [H | H]; [discriminate H |]). exact H. }
  assert (H' : ~ In (to_string (get circle "type")) Object_prototype_names).
  { simpl. intros H'.
    repeat (destruct H' as [H' | H']; [discriminate H' |]). exact H'. }
  split; [exact H |]. split; [exact H' |].
  exact (geomToGml_unknown_type_returns_error config circle (VStr "")
           no_params eq_refl H H').
Defined.

(** ** Insert: the end-to-end example *)

(** C5, as the specification states it, fails: with the options
    [{ns: 'tiger', layer: 'poi', geometryName: 'geom'}] the fragment has no
    [tiger:geom] element and no [gml:Point], because [translateFeatures]
    reads the option [geometry_name]. *)
Lemma Insert_geometryName_not_read :
  Insert config poi_feature poi_options_geometryName = ret poi_insert_plain
  /\ contains "<tiger:geom>" poi_insert_plain = false
  /\ contains "<gml:Point>" poi_insert_plain = false.
Proof. repeat split. Qed.

(** C5, as amended: with the options
    [{ns: 'tiger', layer: 'poi', geometry_name: 'geom'}] the fragment is one
    [wfs:Insert] element that holds the feature element with
    [gml:id] [poi.1], in it a [tiger:geom] element wrapping a [gml:Point]
    whose [gml:pos] is [1 2], followed by the field [tiger:name] with
    content [a]. *)
Theorem Insert_point_feature :
  Insert config poi_feature poi_options_geometry_name = ret poi_insert_geom
  /\ String.prefix "<wfs:Insert>" poi_insert_geom = true
  /\ contains ("gml:id=" ++ dq ++ "poi.1" ++ dq) poi_insert_geom = true
  /\ contains
       "<tiger:geom><gml:Point><gml:pos>1 2</gml:pos></gml:Point></tiger:geom>"
       poi_insert_geom = true
  /\ contains "<tiger:name>a</tiger:name>" poi_insert_geom = true
  /\ contains "</tiger:poi></wfs:Insert>" poi_insert_geom = true.
Proof. repeat split. Qed.

(** ** CoordinateOrderer: [orderCoords] *)


Lemma deref_app_new (h : store) (a : list value) :
  deref (h ++ [a])%list (length h) = a.
Proof. unfold deref. induction h; simpl; auto. Qed.

Lemma deref_store_update (h : store) (r : nat) (a : list value) :
  r < length h -> deref (store_update r a h) r = a.
Proof.
  unfold deref. revert r. induction h as [| b h IH]; intros r Hr; simpl in *.
  - lia.
  - destruct r; simpl; [reflexivity |]. apply IH. lia.
Qed.

(** [orderCoords] on values is [orderCoords_ref] seen through the array it
    returns. *)
Lemma orderCoords_ref_result (cfg : Config) (coords : nat) (h : store) :
  coords < length h ->
  orderCoords cfg (VArr (deref h coords))
  = ret (VArr (deref (snd (orderCoords_ref cfg coords h))
                 (fst (orderCoords_ref cfg coords h)))).
Proof.
  intros Hr. unfold orderCoords, orderCoords_ref.
  destruct (coordinateOrder cfg); [reflexivity |].
  unfold getM. cbn [is_nullish]. rewrite bind_ret.
  destruct (truthy (get (VArr (deref h coords)) "2")); cbn [fst snd].
  - rewrite deref_app_new. reflexivity.
  - rewrite (deref_store_update _ _ _ Hr). reflexivity.
Qed.

(** With the flag off and a truthy third component the result is a new
    array and the store is otherwise as it was. *)
Lemma orderCoords_ref_fresh (x y z : value) (h : store) (coords : nat) :
  deref h coords = [x; y; z] -> truthy z = true ->
  orderCoords_ref swapped coords h = (length h, (h ++ [[y; x; z]])%list).
Proof.
  intros E Hz. unfold orderCoords_ref. cbn [coordinateOrder swapped].
  rewrite E. cbn. rewrite Hz. reflexivity.
Qed.


(** What the text of [orderCoords] would do were the flag off.  The tuple
    [[10,20,0]] would come back as [[0,20,10]]: a third component that is
    zero is not seen, and the whole tuple is reversed.  Both it and the
    pair [[10,20]] would be reversed in place. *)
Lemma orderCoords_reverses_in_place :
  orderCoords_ref swapped 0 [[VNum 10; VNum 20; VNum 0]]
  = (0, [[VNum 0; VNum 20; VNum 10]])
  /\ orderCoords swapped (VArr [VNum 10; VNum 20; VNum 0])
     = ret (VArr [VNum 0; VNum 20; VNum 10])
  /\ orderCoords_ref swapped 0 [[VNum 10; VNum 20]]
     = (0, [[VNum 20; VNum 10]])
  /\ deref (snd (orderCoords_ref swapped 0 [[VNum 10; VNum 20]])) 0
     <> [VNum 10; VNum 20].
Proof. repeat split. discriminate. Qed.

(** The tuple [[10,20,5]]: unchanged when the flag is on; were it off, the
    new array [[20,10,5]]. *)
Lemma orderCoords_ref_examples :
  orderCoords_ref config 0 [[VNum 10; VNum 20; VNum 5]]
  = (0, [[VNum 10; VNum 20; VNum 5]])
  /\ orderCoords_ref swapped 0 [[VNum 10; VNum 20; VNum 5]]
     = (1, [[VNum 10; VNum 20; VNum 5]; [VNum 20; VNum 10; VNum 5]]).
Proof. split; reflexivity. Qed.

(** ** Update: the property loop *)

Lemma escape_is_null (v : value) : is_null (escape v) = is_null v.
Proof. destruct v; reflexivity. Qed.

Lemma escape_is_undefined (v : value) :
  is_undefined (escape v) = is_undefined v.
Proof. destruct v; reflexivity. Qed.

Lemma makeKvp_text (k : string) (v : value) :
  is_undefined v = false ->
  makeKvp (VStr k) (escape v) VUndef = ret (property_text k v).
Proof.
  intros Hu. unfold makeKvp. rewrite escape_is_null, escape_is_undefined, Hu.
  destruct (is_null v) eqn:Hn.
  - destruct v; try discriminate.
    cbn. repeat (rewrite append_assoc; cbn). reflexivity.
  - assert (E : property_text k v
                = "<wfs:Property>"
                    ++ ("<wfs:ValueReference>" ++ k ++ "</wfs:ValueReference>")
                    ++ "<wfs:Value>" ++ to_string (escape v) ++ "</wfs:Value>"
                    ++ "</wfs:Property>").
    { destruct v; try discriminate; reflexivity. }
    rewrite E. unfold wfs, tag.
    cbn [truthy negb String.eqb Ascii.eqb Bool.eqb].
    rewrite escape_is_null, Hn. unfold ret, bind.
    cbn [attrs_1 map String.concat fst is_null to_string app].
    repeat (rewrite ?append_assoc; cbn [String.append]).
    reflexivity.
Qed.

Lemma Update_fields_loop (names : list string) (properties : obj) :
  Forall (fun k => Number_isNaN (get (VObj properties) k) = false) names ->
  forall acc,
    useWhitelistIfAvailable (VArr (map VStr names)) (VObj properties)
      (fun fields k v =>
         kvp <- makeKvp k (escape v) VUndef ;; ret (fields ++ kvp))
      acc
    = ret (acc ++ String.concat ""
                    (map (fun k => property_text k (get (VObj properties) k))
                       names)).
Proof.
  intros H acc.
  unfold useWhitelistIfAvailable. cbn [truthy iterate]. rewrite bind_ret.
  revert acc. induction H as [| k names Hk _ IH]; intros acc.
  - simpl. rewrite append_empty_r. reflexivity.
  - cbn [map foldM]. unfold getM at 1. cbn [is_nullish to_string].
    rewrite bind_ret, Hk.
    destruct (is_undefined (get (VObj properties) k)) eqn:Hu; cbn [negb].
    + rewrite bind_ret, IH, concat_cons.
      destruct (get (VObj properties) k); try discriminate. reflexivity.
    + rewrite (makeKvp_text k _ Hu), !bind_ret, IH, concat_cons.
      rewrite append_assoc. reflexivity.
Qed.

Lemma Update_fields_loop_NaN (names : list string) (properties : obj) :
  Exists (fun k => Number_isNaN (get (VObj properties) k) = true) names ->
  forall acc,
    useWhitelistIfAvailable (VArr (map VStr names)) (VObj properties)
      (fun fields k v =>
         kvp <- makeKvp k (escape v) VUndef ;; ret (fields ++ kvp))
      acc
    = throw (Error "NaN is not allowed.").
Proof.
  intros HE acc.
  unfold useWhitelistIfAvailable. cbn [truthy iterate]. rewrite bind_ret.
  revert acc. induction names as [| k names IH]; intros acc.
  - inversion HE.
  - cbn [map foldM]. unfold getM at 1. cbn [is_nullish to_string].
    rewrite bind_ret.
    destruct (Number_isNaN (get (VObj properties) k)) eqn:Hk; [reflexivity |].
    assert (HE' : Exists
                    (fun k => Number_isNaN (get (VObj properties) k) = true)
                    names).
    { inversion HE; subst; [congruence | assumption]. }
    destruct (is_undefined (get (VObj properties) k)) eqn:Hu; cbn [negb].
    + rewrite bind_ret. apply IH, HE'.
    + rewrite (makeKvp_text k _ Hu), !bind_ret. apply IH, HE'.
Qed.

Lemma useWhitelist_keys {S : Type} (whitelist : value) (properties : obj)
    (cb : S -> value -> value -> M S) (s : S) :
  truthy whitelist = false ->
  useWhitelistIfAvailable whitelist (VObj properties) cb s
  = useWhitelistIfAvailable (VArr (map VStr (map fst properties)))
      (VObj properties) cb s.
Proof.
  intros H. unfold useWhitelistIfAvailable. rewrite H.
  cbn [truthy iterate Object_keys]. rewrite !bind_ret. reflexivity.
Qed.

(** C6, as amended: the property loop of bulk [Update] goes through the
    whitelisted names (none of them a name that [Object.prototype]
    defines), or through the keys of the property map when there is no
    whitelist.  A name whose value is [undefined] contributes nothing; a
    [null] value contributes a [wfs:Property] with the [ValueReference] and
    a [wfs:Value] that carries [xsi:nil]; any other value contributes a
    [wfs:Property] with the [ValueReference] and the escaped [wfs:Value].
    This holds when no value is [NaN]; when one is, the loop raises the
    error [NaN is not allowed.]. *)
Theorem Update_fields_per_property :
  forall (whitelist : value) (names : list string) (properties : obj),
    (whitelist = VArr (map VStr names)
     /\ Forall (fun k => ~ In k Object_prototype_names) names)
    \/ (truthy whitelist = false /\ names = map fst properties) ->
    (Forall (fun k => Number_isNaN (get (VObj properties) k) = false) names ->
     Update_fields whitelist (VObj properties)
     = ret (String.concat ""
              (map (fun k => property_text k (get (VObj properties) k))
                 names)))
    /\ (Exists (fun k => Number_isNaN (get (VObj properties) k) = true)
          names ->
        Update_fields whitelist (VObj properties)
        = throw (Error "NaN is not allowed.")).
Proof.
  intros whitelist names properties Hw. unfold Update_fields.
  assert (E : forall cb,
             useWhitelistIfAvailable whitelist (VObj properties) cb ""
             = useWhitelistIfAvailable (VArr (map VStr names))
                 (VObj properties) cb "").
  { intros cb. destruct Hw as [[-> _] | [Hf ->]]; [reflexivity |].
    apply useWhitelist_keys, Hf. }
  rewrite E. split; intros H.
  - exact (Update_fields_loop names properties H "").
  - exact (Update_fields_loop_NaN names properties H "").
Qed.

Lemma Update_fields_per_property_witness :
  Update_fields (VArr (map VStr ["a"; "b"; "c"]))
    (VObj [("a", VNull); ("b", VUndef); ("c", VStr "x<y")])
  = ret (property_text "a" VNull ++ property_text "c" (VStr "x<y"))
  /\ Update_fields VUndef (VObj [("n", VNaN)])
     = throw (Error "NaN is not allowed.").
Proof.
  split.
  - apply (Update_fields_per_property (VArr (map VStr ["a"; "b"; "c"]))
             ["a"; "b"; "c"]
             [("a", VNull); ("b", VUndef); ("c", VStr "x<y")]).
    + left. split; [reflexivity |].
      repeat constructor; simpl; intros H;
        repeat (destruct H as [H | H]; [discriminate H |]); exact H.
    + repeat constructor.
  - apply (Update_fields_per_property VUndef ["n"] [("n", VNaN)]
             (or_intror (conj eq_refl eq_refl))).
    constructor. reflexivity.
Defined.

(** C6, as the specification states it, fails: in bulk mode a property
    whose value is [undefined] gives no [wfs:Property] at all, not one
    reduced to its [ValueReference]. *)
Lemma Update_undefined_property_skipped :
  Update 0 config poi_feature update_undefined_options
  = ret update_undefined_result
  /\ contains "<wfs:Property>" update_undefined_result = false
  /\ contains "<wfs:ValueReference>" update_undefined_result = false.
Proof. repeat split. Qed.

(** Bulk [Update] on a [null], an [undefined] and a string property. *)
Lemma Update_bulk_example :
  Update 0 config poi_feature update_mixed_options = ret update_mixed_result.
Proof. reflexivity. Qed.

(** ** NamespaceRegistrar: [generateNsAssignments] *)

Lemma xmlns_key_eqb (a b : string) :
  ("xmlns:" ++ a =? "xmlns:" ++ b) = (a =? b).
Proof. reflexivity. Qed.

Lemma get_xmlns_set (o : obj) (a b : string) (v : value) :
  get (VObj (set o ("xmlns:" ++ a) v)) ("xmlns:" ++ b)
  = if a =? b then v else get (VObj o) ("xmlns:" ++ b).
Proof. rewrite get_set, xmlns_key_eqb. reflexivity. Qed.

Lemma lookup_not_key (o : obj) (k : string) :
  has (map fst o) k = false -> lookup o k = None.
Proof.
  induction o as [| [k' v] o IH]; simpl; [reflexivity |].
  rewrite String.eqb_sym. destruct (k' =? k); simpl; [discriminate | exact IH].
Qed.

(** The declared map, copied under the [xmlns:] keys. *)
Lemma declared_copied (declared : obj) (ks : list string) (acc : obj)
    (ns : string) :
  get (VObj (fold_left
               (fun attrs k => set attrs ("xmlns:" ++ k) (get (VObj declared) k))
               ks acc))
    ("xmlns:" ++ ns)
  = if has ks ns then get (VObj declared) ns
    else get (VObj acc) ("xmlns:" ++ ns).
Proof.
  revert acc. induction ks as [| k ks IH]; intros acc; [reflexivity |].
  cbn [fold_left]. rewrite IH. unfold has. cbn [existsb]. fold (has ks ns).
  destruct (has ks ns); [rewrite orb_true_r; reflexivity |].
  rewrite orb_false_r, get_xmlns_set, String.eqb_sym.
  destruct (ns =? k) eqn:E; [| reflexivity].
  apply String.eqb_eq in E. subst. reflexivity.
Qed.

Lemma declared_copied_all (declared : obj) (ns : string) :
  get (VObj (fold_left
               (fun attrs k => set attrs ("xmlns:" ++ k) (get (VObj declared) k))
               (map fst declared) []))
    ("xmlns:" ++ ns)
  = get (VObj declared) ns.
Proof.
  rewrite declared_copied. destruct (has (map fst declared) ns) eqn:E.
  - reflexivity.
  - cbn. rewrite (lookup_not_key _ _ E). reflexivity.
Qed.

(** The check loop of [generateNsAssignments]. *)
Lemma ns_check_passes (attrs : obj) (found : list string) :
  (forall ns, In ns found ->
     truthy (get (VObj attrs) ("xmlns:" ++ ns)) = true) ->
  foldM
    (fun (_ : unit) ns =>
       if negb (truthy (get (VObj attrs) ("xmlns:" ++ ns)))
       then throw (Error ("unassigned namespace " ++ ns))
       else ret tt)
    found tt = ret tt.
Proof.
  induction found as [| ns found IH]; intros H; [reflexivity |].
  cbn [foldM]. rewrite (H ns (or_introl eq_refl)). cbn [negb].
  rewrite bind_ret. apply IH. intros ns' Hin. apply H. right. exact Hin.
Qed.

Lemma ns_check_fails (attrs : obj) (found : list string) :
  (exists ns, In ns found
              /\ truthy (get (VObj attrs) ("xmlns:" ++ ns)) = false) ->
  exists missing,
    In missing found
    /\ truthy (get (VObj attrs) ("xmlns:" ++ missing)) = false
    /\ foldM
         (fun (_ : unit) ns =>
            if negb (truthy (get (VObj attrs) ("xmlns:" ++ ns)))
            then throw (Error ("unassigned namespace " ++ ns))
            else ret tt)
         found tt = throw (Error ("unassigned namespace " ++ missing)).
Proof.
  induction found as [| ns found IH]; intros (bad & Hin & Hbad).
  - contradiction.
  - cbn [foldM].
    destruct (truthy (get (VObj attrs) ("xmlns:" ++ ns))) eqn:E; cbn [negb].
    + destruct Hin as [-> | Hin]; [congruence |].
      destruct IH as (m & Hm & Hf & Hr); [exists bad; auto |].
      exists m. rewrite bind_ret. repeat split; auto. right. exact Hm.
    + exists ns. repeat split; auto. left. reflexivity.
Qed.

(** The attributes [generateNsAssignments] has assembled when its check
    loop starts. *)
Lemma ns_attrs_lookup (declared : obj) (found : list string) (ns : string) :
  get
    (VObj
       (set
          (set
             (set
                (if has found "fes"
                 then set
                        (fold_left
                           (fun attrs k =>
                              set attrs ("xmlns:" ++ k)
                                (get (VObj declared) k))
                           (map fst declared) [])
                        ("xmlns:" ++ "fes")
                        (VStr "http://www.opengis.net/fes/2.0")
                 else fold_left
                        (fun attrs k =>
                           set attrs ("xmlns:" ++ k) (get (VObj declared) k))
                        (map fst declared) [])
                ("xmlns:" ++ "xsi")
                (VStr "http://www.w3.org/2001/XMLSchema-instance"))
             ("xmlns:" ++ "gml") (VStr "http://www.opengis.net/gml/3.2"))
          ("xmlns:" ++ "wfs") (VStr "http://www.opengis.net/wfs/2.0")))
    ("xmlns:" ++ ns)
  = uri_after_defaults declared found ns.
Proof.
  unfold uri_after_defaults. rewrite !get_xmlns_set.
  rewrite (String.eqb_sym "wfs"), (String.eqb_sym "gml"),
    (String.eqb_sym "xsi").
  destruct (ns =? "wfs"); [reflexivity |].
  destruct (ns =? "gml"); [reflexivity |].
  destruct (ns =? "xsi"); [reflexivity |].
  destruct (has found "fes"); cbn [andb].
  - rewrite get_xmlns_set, (String.eqb_sym "fes").
    destruct (ns =? "fes"); [reflexivity |]. apply declared_copied_all.
  - rewrite andb_false_r. apply declared_copied_all.
Qed.

Lemma default_prefix_has_uri (declared : obj) (found : list string)
    (ns : string) :
  In ns found -> In ns ["fes"; "xsi"; "gml"; "wfs"] ->
  truthy (uri_after_defaults declared found ns) = true.
Proof.
  intros Hf Hd. unfold uri_after_defaults. simpl in Hd.
  destruct Hd as [<- | [<- | [<- | [<- | []]]]]; try reflexivity.
  cbn. apply has_In in Hf. rewrite Hf. reflexivity.
Qed.

(** *** What the scan discovers *)

Lemma strip_prefix_sound (p s r : string) :
  strip_prefix p s = Some r -> s = p ++ r.
Proof.
  revert s. induction p as [| a p IH]; intros s; simpl.
  - intros H. inversion H. reflexivity.
  - destruct s as [| b s]; [discriminate |].
    destruct (Ascii.eqb a b) eqn:E; [| discriminate].
    apply Ascii.eqb_eq in E. subst b. intros H. f_equal. apply IH, H.
Qed.

Lemma take_word_sound (s w rest : string) :
  take_word s = (w, rest) -> s = w ++ rest.
Proof.
  revert w rest. induction s as [| c s IH]; intros w rest; simpl.
  - intros H. inversion H. reflexivity.
  - destruct (is_word_char c).
    + destruct (take_word s) as [w' rest'] eqn:E. intros H. inversion H; subst.
      simpl. f_equal. apply IH. reflexivity.
    + intros H. inversion H. reflexivity.
Qed.

Lemma first_nonword_word (w : string) (c : ascii) (r : string) :
  string_forallb is_word_char w = true -> is_word_char c = false ->
  first_nonword (w ++ String c r) = Some c.
Proof.
  intros Hw Hc. induction w as [| x w IH]; cbn [String.append first_nonword].
  - rewrite Hc. reflexivity.
  - cbn [string_forallb] in Hw. apply andb_true_iff in Hw.
    destruct Hw as [Hx Hw]. rewrite Hx. apply IH, Hw.
Qed.

Lemma take_word_word (s w rest : string) :
  take_word s = (w, rest) -> string_forallb is_word_char w = true.
Proof.
  revert w rest. induction s as [| c s IH]; intros w rest; cbn [take_word].
  - intros H. inversion H. reflexivity.
  - destruct (is_word_char c) eqn:Hc.
    + destruct (take_word s) as [w' rest'] eqn:E. intros H. inversion H; subst.
      cbn [string_forallb]. rewrite Hc. exact (IH _ _ eq_refl).
    + intros H. inversion H. reflexivity.
Qed.

Lemma take_word_app (w : string) (c : ascii) (r : string) :
  string_forallb is_word_char w = true -> is_word_char c = false ->
  take_word (w ++ String c r) = (w, String c r).
Proof.
  intros Hw Hc. induction w as [| x w IH]; cbn [String.append take_word].
  - rewrite Hc. reflexivity.
  - cbn [string_forallb] in Hw. apply andb_true_iff in Hw.
    destruct Hw as [Hx Hw]. rewrite Hx, (IH Hw). reflexivity.
Qed.

Lemma strip_prefix_app (p r : string) : strip_prefix p (p ++ r) = Some r.
Proof.
  induction p as [| a p IH]; cbn [String.append strip_prefix];
    [reflexivity |].
  rewrite Ascii.eqb_refl. exact IH.
Qed.

Lemma is_prefix_name_inv (ns : string) :
  is_prefix_name ns = true ->
  ns <> "" /\ string_forallb is_word_char ns = true.
Proof.
  unfold is_prefix_name. intros H. apply andb_true_iff in H.
  destruct H as [H1 H2]. split; [| exact H2].
  intros ->. discriminate H1.
Qed.

(** An occurrence at the start of the text is matched there. *)
Lemma ns_re_here_complete (o ns post : string) :
  o = "<" \/ o = "typeName=" ++ dq ->
  is_prefix_name ns = true ->
  ns_re_here (o ++ ns ++ ":" ++ post)
  = Some (ns, String.length o + String.length ns + 1).
Proof.
  intros Ho Hns. apply is_prefix_name_inv in Hns. destruct Hns as [Hne Hw].
  unfold ns_re_here. change (":" ++ post) with (String ":" post).
  assert (T : take_word (ns ++ String ":" post) = (ns, String ":" post))
    by (apply take_word_app; [exact Hw | reflexivity]).
  destruct Ho as [-> | ->].
  - change (strip_prefix "<" ("<" ++ ns ++ String ":" post))
      with (Some (ns ++ String ":" post)).
    cbv beta iota zeta. rewrite T. destruct ns; [congruence | reflexivity].
  - change (strip_prefix "<" (("typeName=" ++ dq) ++ ns ++ String ":" post))
      with (@None string).
    rewrite strip_prefix_app. cbv beta iota zeta. rewrite T.
    destruct ns; [congruence | reflexivity].
Qed.

(** A match is an occurrence, and its length is that of the occurrence. *)
Lemma ns_re_here_match (s w : string) (n : nat) :
  ns_re_here s = Some (w, n) ->
  exists o post,
    (o = "<" \/ o = "typeName=" ++ dq)
    /\ is_prefix_name w = true
    /\ s = o ++ w ++ ":" ++ post
    /\ n = String.length o + String.length w + 1.
Proof.
  unfold ns_re_here.
  assert (K : forall o r,
             s = o ++ r ->
             (o = "<" \/ o = "typeName=" ++ dq) ->
             (let (w0, rest) := take_word r in
              match w0, rest with
              | String _ _, String ":" _ =>
                  Some (w0, String.length o + String.length w0 + 1)
              | _, _ => None
              end) = Some (w, n) ->
             exists o post,
               (o = "<" \/ o = "typeName=" ++ dq)
               /\ is_prefix_name w = true
               /\ s = o ++ w ++ ":" ++ post
               /\ n = String.length o + String.length w + 1).
  { intros o r Hs Ho.
    destruct (take_word r) as [w0 rest] eqn:E.
    pose proof (take_word_word _ _ _ E) as Hw.
    apply take_word_sound in E.
    destruct w0 as [| c w0]; [discriminate |].
    destruct rest as [| c' post]; [discriminate |].
    destruct (Ascii.eqb c' ":") eqn:Ec.
    - apply Ascii.eqb_eq in Ec. subst c'. intros H. inversion H; subst.
      exists o, post. repeat split; assumption.
    - intros H. exfalso. revert H.
      destruct c' as [[] [] [] [] [] [] [] []]; try discriminate. }
  destruct (strip_prefix "<" s) as [r |] eqn:E1.
  - apply strip_prefix_sound in E1. intros H.
    exact (K "<" r E1 (or_introl eq_refl) H).
  - destruct (strip_prefix ("typeName=" ++ dq) s) as [r |] eqn:E2;
      [| discriminate].
    apply strip_prefix_sound in E2. intros H.
    exact (K ("typeName=" ++ dq) r E2 (or_intror eq_refl) H).
Qed.

(** No occurrence begins inside a word or at the colon after it. *)
Lemma opening_not_in_word (o rest w post : string) :
  o = "<" \/ o = "typeName=" ++ dq ->
  string_forallb is_word_char w = true ->
  o ++ rest <> w ++ ":" ++ post.
Proof.
  intros Ho Hw E. change (":" ++ post) with (String ":" post) in E.
  apply (f_equal first_nonword) in E.
  rewrite (first_nonword_word _ ":" post Hw eq_refl) in E.
  destruct Ho as [-> | ->]; vm_compute in E; discriminate E.
Qed.

(** A match does not reach into a later occurrence. *)
Lemma ns_re_here_disjoint (s w : string) (n : nat)
    (pre o rest : string) :
  ns_re_here s = Some (w, n) ->
  s = pre ++ o ++ rest ->
  pre <> "" ->
  o = "<" \/ o = "typeName=" ++ dq ->
  n <= String.length pre.
Proof.
  intros Hm Hs Hpre Ho.
  destruct (ns_re_here_match _ _ _ Hm) as (o1 & post & Ho1 & Hw & Hs1 & ->).
  apply is_prefix_name_inv in Hw. destruct Hw as [Hne Hw].
  rewrite Hs1 in Hs. symmetry in Hs.
  destruct (append_eq_split _ _ _ _ Hs) as (e & [[-> He] | [Ho1e He]]).
  - (* the first opening lies inside [pre] *)
    rewrite length_append. symmetry in He.
    destruct (append_eq_split _ _ _ _ He) as (e' & [[-> He'] | [-> He']]).
    + (* [pre] goes beyond the word *)
      rewrite length_append.
      destruct e' as [| c e']; [| simpl; lia].
      exfalso. symmetry in He'.
      exact (opening_not_in_word o rest "" post Ho eq_refl He').
    + (* the occurrence would begin inside the word *)
      exfalso. rewrite string_forallb_app in Hw. apply andb_true_iff in Hw.
      destruct Hw as [_ Hw].
      exact (opening_not_in_word o rest e' post Ho Hw He').
  - (* [pre] ends inside the first opening *)
    exfalso. destruct e as [| c e].
    + exact (opening_not_in_word o rest w post Ho Hw He).
    + destruct Ho1 as [-> | ->].
      * destruct pre as [| x pre]; [congruence |].
        destruct pre; discriminate Ho1e.
      * assert (Hc : c <> "<"%char /\ c <> "t"%char).
        { clear - Ho1e Hpre. cbn in Ho1e.
          destruct pre as [| x pre]; [congruence |].
          inversion Ho1e; subst. clear Ho1e Hpre.
          repeat match goal with
          | H : _ = ?p ++ String c e |- _ =>
              destruct p; cbn [String.append] in H; inversion H; subst;
              clear H; try (split; discriminate)
          end. }
        destruct Hc as [Hc1 Hc2].
        destruct Ho as [-> | ->]; cbn [String.append] in He;
          inversion He; congruence.
Qed.

(** The scan finds every occurrence that its skipping has not passed. *)
Lemma ns_re_scan_complete (o ns post : string) :
  o = "<" \/ o = "typeName=" ++ dq ->
  is_prefix_name ns = true ->
  forall (pre : string) (skip : nat),
    skip <= String.length pre ->
    In ns (ns_re_scan skip (pre ++ o ++ ns ++ ":" ++ post)).
Proof.
  intros Ho Hns. induction pre as [| c pre IH]; intros skip Hskip.
  - assert (skip = 0) by (simpl in Hskip; lia). subst skip.
    change (In ns (ns_re_scan 0 (o ++ ns ++ ":" ++ post))).
    pose proof (ns_re_here_complete o ns post Ho Hns) as Hm.
    destruct (o ++ ns ++ ":" ++ post) as [| c s] eqn:E.
    + destruct Ho as [-> | ->]; discriminate E.
    + cbn [ns_re_scan]. rewrite Hm. left. reflexivity.
  - change (In ns (ns_re_scan skip
                     (String c (pre ++ o ++ ns ++ ":" ++ post)))).
    cbn [ns_re_scan]. destruct skip as [| k].
    + destruct (ns_re_here (String c (pre ++ o ++ ns ++ ":" ++ post)))
        as [[w n] |] eqn:Hm.
      * right. apply IH.
        pose proof (ns_re_here_disjoint _ _ _ (String c pre) o
                      (ns ++ ":" ++ post) Hm eq_refl) as Hd.
        cbn [String.length] in Hd.
        assert (n <= S (String.length pre))
          by (apply Hd; [discriminate | exact Ho]).
        lia.
      * apply IH. lia.
    + apply IH. simpl in Hskip. lia.
Qed.

Lemma set_of_subset (l seen : list string) (x : string) :
  In x (set_of l seen) -> In x l.
Proof.
  revert seen. induction l as [| y l IH]; intros seen; simpl; [tauto |].
  destruct (has seen y); simpl; intros H.
  - right. eapply IH, H.
  - destruct H as [-> | H]; [left; reflexivity | right; eapply IH, H].
Qed.

Lemma set_of_complete (l seen : list string) (x : string) :
  In x l -> has seen x = false -> In x (set_of l seen).
Proof.
  revert seen. induction l as [| y l IH]; intros seen Hin Hs; [contradiction |].
  cbn [set_of]. destruct (has seen y) eqn:Hy.
  - destruct Hin as [-> | Hin]; [congruence |]. apply IH; assumption.
  - destruct (String.eqb x y) eqn:E.
    + apply String.eqb_eq in E. subst. left. reflexivity.
    + right. destruct Hin as [-> | Hin];
        [rewrite String.eqb_refl in E; discriminate |].
      apply IH; [exact Hin |].
      unfold has. cbn [existsb]. rewrite E. exact Hs.
Qed.

(** The prefixes the scan discovers are those that stand in the text after
    an opening angle bracket or after [typeName=] and a double quote, as a
    non-empty run of word characters followed by a colon. *)
Lemma discovered_iff (xml ns : string) :
  In ns (discovered xml) <-> stands_as_prefix xml ns.
Proof.
  unfold discovered, stands_as_prefix. split.
  - intros H. apply set_of_subset in H.
    revert H. generalize 0 as skip. induction xml as [| c s IH]; intros skip H;
      [contradiction |].
    assert (K : forall skip', In ns (ns_re_scan skip' s) ->
              is_prefix_name ns = true /\
              exists pre post,
                String c s = pre ++ "<" ++ ns ++ ":" ++ post
                \/ String c s = pre ++ "typeName=" ++ dq ++ ns ++ ":" ++ post).
    { intros skip' H'. destruct (IH _ H') as (Hn & pre & post & Hs).
      split; [exact Hn |]. exists (String c pre), post.
      destruct Hs as [-> | ->]; [left | right]; reflexivity. }
    cbn [ns_re_scan] in H. destruct skip as [| k]; [| exact (K _ H)].
    destruct (ns_re_here (String c s)) as [[w n] |] eqn:E; [| exact (K _ H)].
    destruct H as [<- | H]; [| exact (K _ H)].
    destruct (ns_re_here_match _ _ _ E) as (o & post & Ho & Hw & Hs & _).
    split; [exact Hw |]. exists "", post.
    destruct Ho as [-> | ->]; [left | right]; exact Hs.
  - intros (Hn & pre & post & Hs).
    apply set_of_complete; [| reflexivity].
    destruct Hs as [-> | ->].
    + apply (ns_re_scan_complete "<" ns post (or_introl eq_refl) Hn pre 0).
      lia.
    + rewrite <- (append_assoc "typeName=" dq).
      apply (ns_re_scan_complete ("typeName=" ++ dq) ns post
               (or_intror eq_refl) Hn pre 0).
      lia.
Qed.

Lemma discovered_example :
  discovered ("<custom:a typeName=" ++ dq ++ "tiger:x" ++ dq
                ++ "><fes:Filter/><custom:b/>")
  = ["custom"; "tiger"; "fes"].
Proof. reflexivity. Qed.

(** C8: for a declared map and a subject text, the result of
    [generateNsAssignments] is decided by the prefixes discovered in the
    text, and those are exactly the non-empty runs of letters, digits and
    underscores that stand after an opening angle bracket, or after
    [typeName=] and a double quote, and before a colon.  When every such
    prefix has a URI once the defaults are in (the declared URI, replaced
    by the default for [xsi], [gml] and [wfs] always and for [fes] when
    [fes] is discovered), the result is the attribute object that holds
    exactly these URIs under the [xmlns:] keys.  When some such prefix has
    none, the call raises the error [unassigned namespace] followed by such
    a prefix, which is never one of [fes], [xsi], [gml], [wfs]. *)
Theorem generateNsAssignments_spec :
  forall (declared : obj) (xml : string),
    let found := discovered xml in
    let uri := uri_after_defaults declared found in
    (forall ns, In ns found <-> stands_as_prefix xml ns)
    /\ ((forall ns, stands_as_prefix xml ns -> truthy (uri ns) = true) ->
        exists attrs,
          generateNsAssignments (VObj declared) (VStr xml) = ret attrs
          /\ forall ns, get (VObj attrs) ("xmlns:" ++ ns) = uri ns)
    /\ ((exists ns, stands_as_prefix xml ns /\ truthy (uri ns) = false) ->
        exists missing,
          stands_as_prefix xml missing
          /\ truthy (uri missing) = false
          /\ ~ In missing ["fes"; "xsi"; "gml"; "wfs"]
          /\ generateNsAssignments (VObj declared) (VStr xml)
             = throw (Error ("unassigned namespace " ++ missing))).
Proof.
  intros declared xml found uri.
  assert (Hiff : forall ns, In ns found <-> stands_as_prefix xml ns)
    by (intros ns; apply discovered_iff).
  split; [exact Hiff |].
  unfold generateNsAssignments. cbn [Object_keys to_string].
  rewrite bind_ret. fold (discovered xml). fold found.
  split.
  - intros Hall. eexists. split.
    + rewrite ns_check_passes; [rewrite bind_ret; reflexivity |].
      intros ns Hin. rewrite ns_attrs_lookup. apply Hall, Hiff, Hin.
    + intros ns. apply ns_attrs_lookup.
  - intros (bad & Hin & Hbad). apply Hiff in Hin.
    edestruct ns_check_fails as (m & Hm & Hf & Hr);
      [exists bad; split; [exact Hin | rewrite ns_attrs_lookup; exact Hbad] |].
    exists m. rewrite ns_attrs_lookup in Hf.
    split; [exact (proj1 (Hiff m) Hm) |]. split; [exact Hf |]. split.
    + intros Hd. unfold uri in *.
      rewrite (default_prefix_has_uri declared found m Hm Hd) in Hf.
      discriminate.
    + rewrite Hr. reflexivity.
Qed.

Lemma generateNsAssignments_spec_witness :
  generateNsAssignments (VObj [("fes", VStr "urn:fes")]) (VStr "<custom:a/>")
  = throw (Error "unassigned namespace custom")
  /\ exists attrs,
       generateNsAssignments (VObj [("tiger", VStr "urn:tiger")])
         (VStr "<tiger:a><fes:Filter/></tiger:a>") = ret attrs
       /\ get (VObj attrs) "xmlns:tiger" = VStr "urn:tiger"
       /\ get (VObj attrs) "xmlns:fes" = VStr "http://www.opengis.net/fes/2.0"
       /\ get (VObj attrs) "xmlns:gml" = VStr "http://www.opengis.net/gml/3.2".
Proof.
  split.
  - destruct (generateNsAssignments_spec [("fes", VStr "urn:fes")]
                "<custom:a/>") as (Hiff & _ & H).
    assert (F : discovered "<custom:a/>" = ["custom"])
      by (vm_compute; reflexivity).
    cbv zeta in Hiff, H. rewrite F in Hiff, H.
    destruct H as (missing & Hin & _ & _ & Hr).
    + exists "custom". split; [apply Hiff; left; reflexivity |].
      vm_compute. reflexivity.
    + apply Hiff in Hin. destruct Hin as [<- | []]. exact Hr.
  - destruct (generateNsAssignments_spec [("tiger", VStr "urn:tiger")]
                "<tiger:a><fes:Filter/></tiger:a>") as (Hiff & H & _).
    assert (F : discovered "<tiger:a><fes:Filter/></tiger:a>"
                = ["tiger"; "fes"])
      by (vm_compute; reflexivity).
    cbv zeta in Hiff, H. rewrite F in Hiff, H.
    destruct H as (attrs & Hr & Hget).
    + intros ns Hns. apply Hiff in Hns.
      destruct Hns as [<- | [<- | []]]; vm_compute; reflexivity.
    + exists attrs. split; [exact Hr |].
      repeat split.
      * exact (Hget "tiger").
      * exact (Hget "fes").
      * exact (Hget "gml").
Defined.

(** ** TransactionAssembler: the [version] attribute *)

Lemma concat_app (l1 l2 : list string) :
  String.concat "" (l1 ++ l2)
  = String.concat "" l1 ++ String.concat "" l2.
Proof.
  induction l1 as [| s l1 IH]; [reflexivity |].
  change ((s :: l1) ++ l2)%list with (s :: (l1 ++ l2))%list.
  rewrite !concat_cons, IH, append_assoc. reflexivity.
Qed.

Lemma get_truthy_key (o : obj) (k : string) :
  truthy (get (VObj o) k) = true -> In k (map fst o).
Proof.
  simpl. induction o as [| [k' v] o IH]; simpl; [discriminate |].
  destruct (k' =? k) eqn:E.
  - apply String.eqb_eq in E. auto.
  - intros H. right. apply IH, H.
Qed.

(** A truthy attribute is written out, escaped, between double quotes. *)
Lemma attrs_1_writes (attrs : obj) (k : string) :
  truthy (get (VObj attrs) k) = true ->
  exists pre post,
    attrs_1 attrs
    = pre ++ (" " ++ k ++ "=" ++ dq
                ++ to_string (escape (get (VObj attrs) k)) ++ dq)
        ++ post.
Proof.
  intros Ht. unfold attrs_1.
  destruct (in_split _ _ (get_truthy_key _ _ Ht)) as (l1 & l2 & ->).
  rewrite map_app. cbn [map]. rewrite concat_app, concat_cons, Ht. eauto.
Qed.

Lemma transaction_version_truthy (version : value) :
  truthy (transaction_version version) = true.
Proof.
  unfold transaction_version, or_else.
  destruct (truthy version) eqn:E; [| reflexivity].
  destruct (version_re_test (to_string version)); [exact E | reflexivity].
Qed.

Lemma transaction_attrs_version (actions : value) (params attrs : obj)
    (w : list string) :
  transaction_attrs actions params = (Ret attrs, w) ->
  get (VObj attrs) "version"
  = transaction_version (get (VObj params) "version").
Proof.
  unfold transaction_attrs. intros H.
  apply bind_Ret_inv in H. destruct H as (a & w1 & w2 & _ & H & _).
  apply bind_Ret_inv in H. destruct H as (sl & w3 & w4 & _ & H & _).
  inversion H; subst. clear H. cbn [fold_left].
  repeat match goal with
  | |- context [if ?c then _ else _] => destruct c
  end;
  repeat (rewrite get_set; cbn [String.eqb Ascii.eqb Bool.eqb]);
  reflexivity.
Qed.

(** The pattern of [Transaction] is found in a string exactly when the
    string holds [2.0.] followed by a digit, wherever that is. *)
Lemma version_re_test_spec (s : string) :
  version_re_test s = true <->
  exists pre d post, s = pre ++ "2.0." ++ String d post /\ is_digit d = true.
Proof.
  split.
  - induction s as [| c s IH].
    + cbn. discriminate.
    + cbn [version_re_test]. intros H. apply orb_true_iff in H.
      destruct H as [H | H].
      * unfold version_re_here in H.
        destruct (strip_prefix "2.0." (String c s)) as [[| d post] |] eqn:E;
          try discriminate.
        apply strip_prefix_sound in E. exists "", d, post. auto.
      * destruct (IH H) as (pre & d & post & -> & Hd).
        exists (String c pre), d, post. auto.
  - intros (pre & d & post & -> & Hd).
    induction pre as [| c pre IH].
    + cbn. rewrite Hd. reflexivity.
    + cbn [String.append version_re_test]. cbn [String.append] in IH.
      rewrite IH. apply orb_true_r.
Qed.

(** C9, as amended: whenever [Transaction] returns, what it returns is the
    [wfs:Transaction] element whose attribute object holds a [version] that
    is [2.0.0] when the options carry no version, the supplied string when
    that string holds [2.0.] followed by a digit, wherever that is, and
    [2.0.0] for any other supplied string; the attribute is written out in
    the element's opening tag. *)
Theorem Transaction_version_attribute :
  forall (stack : nat) (cfg : Config) (actions : value) (params : obj)
         (s : string) (w : list string),
    Transaction stack cfg actions params = (Ret s, w) ->
    exists (attrs : obj) (body : string),
      s = "<wfs:Transaction" ++ attrs_1 attrs ++ ">" ++ body
            ++ "</wfs:Transaction>"
      /\ (get (VObj params) "version" = VUndef ->
          get (VObj attrs) "version" = VStr "2.0.0")
      /\ (forall v, get (VObj params) "version" = VStr v ->
            holds_2_0_digit v -> get (VObj attrs) "version" = VStr v)
      /\ (forall v, get (VObj params) "version" = VStr v ->
            ~ holds_2_0_digit v ->
            get (VObj attrs) "version" = VStr "2.0.0")
      /\ (exists pre post,
            attrs_1 attrs
            = pre ++ (" version=" ++ dq
                        ++ to_string (escape (get (VObj attrs) "version"))
                        ++ dq)
                ++ post).
Proof.
  intros stack cfg actions params s w H. unfold Transaction in H.
  apply bind_Ret_inv in H. destruct H as (body & w1 & w2 & _ & H & _).
  apply bind_Ret_inv in H. destruct H as (attrs & w3 & w4 & Ha & H & _).
  apply transaction_attrs_version in Ha.
  exists attrs, body. unfold wfs, tag in H. cbn [truthy] in H.
  inversion H; subst. clear H.
  split; [cbn; rewrite append_assoc; reflexivity |].
  rewrite Ha. unfold transaction_version.
  repeat split.
  - intros ->. reflexivity.
  - intros v -> Hv. apply version_re_test_spec in Hv.
    unfold or_else. cbn [truthy to_string].
    destruct (v =? "") eqn:Ev; cbn [negb to_string].
    + apply String.eqb_eq in Ev. subst v. discriminate Hv.
    + rewrite Hv. reflexivity.
  - intros v -> Hv.
    assert (Hf : version_re_test v = false).
    { destruct (version_re_test v) eqn:E; [| reflexivity].
      exfalso. apply Hv, version_re_test_spec, E. }
    unfold or_else. cbn [truthy to_string].
    destruct (negb (v =? "")); cbn [to_string]; [rewrite Hf |]; reflexivity.
  - fold (transaction_version (get (VObj params) "version")). rewrite <- Ha.
    apply (attrs_1_writes attrs "version"). rewrite Ha.
    apply transaction_version_truthy.
Qed.

Lemma Transaction_version_attribute_witness :
  exists s w,
    Transaction 0 config (VArr []) [("version", VStr "2.0.5")] = (Ret s, w)
    /\ exists (attrs : obj) (body : string),
         s = "<wfs:Transaction" ++ attrs_1 attrs ++ ">" ++ body
               ++ "</wfs:Transaction>"
         /\ get (VObj attrs) "version" = VStr "2.0.5".
Proof.
  destruct (Transaction 0 config (VArr []) [("version", VStr "2.0.5")])
    as [[s | e] w] eqn:E; [| vm_compute in E; discriminate E].
  exists s, w. split; [reflexivity |].
  destruct (Transaction_version_attribute 0 config (VArr [])
              [("version", VStr "2.0.5")] s w E)
    as (attrs & body & Hs & _ & Hkeep & _).
  exists attrs, body. split; [exact Hs |].
  apply Hkeep; [reflexivity |].
  exists "", "5"%char, "". split; reflexivity.
Defined.

(** C9 as the specification states it fails: [12.0.5] and [v2.0.12-beta]
    are not of the form [2.0.x], and the code keeps them. *)
Lemma Transaction_version_not_anchored :
  spec_version_form "12.0.5" = false
  /\ spec_version_form "v2.0.12-beta" = false
  /\ (exists attrs,
        transaction_attrs (VArr []) [("version", VStr "12.0.5")] = ret attrs
        /\ get (VObj attrs) "version" = VStr "12.0.5")
  /\ (exists attrs,
        transaction_attrs (VArr []) [("version", VStr "v2.0.12-beta")]
        = ret attrs
        /\ get (VObj attrs) "version" = VStr "v2.0.12-beta")
  /\ match result (Transaction 0 config (VArr [])
                     [("version", VStr "12.0.5")]) with
     | Ret s =>
         contains (" version=" ++ dq ++ "12.0.5" ++ dq) s
         && negb (contains (" version=" ++ dq ++ "2.0.0" ++ dq) s)
     | Throw _ => false
     end = true.
Proof.
  split; [reflexivity |]. split; [reflexivity |].
  split; [eexists; split; vm_compute; reflexivity |].
  split; [eexists; split; vm_compute; reflexivity |].
  vm_compute. reflexivity.
Qed.

(** The three runs of the specification's version example. *)
Lemma Transaction_version_examples :
  contains (" version=" ++ dq ++ "2.0.0" ++ dq)
    (match result (Transaction 0 config (VArr []) []) with
     | Ret s => s
     | Throw _ => ""
     end) = true
  /\ contains (" version=" ++ dq ++ "2.0.5" ++ dq)
       (match result (Transaction 0 config (VArr [])
                        [("version", VStr "2.0.5")]) with
        | Ret s => s
        | Throw _ => ""
        end) = true
  /\ contains (" version=" ++ dq ++ "2.0.0" ++ dq)
       (match result (Transaction 0 config (VArr [])
                        [("version", VStr "1.0.0")]) with
        | Ret s => s
        | Throw _ => ""
        end) = true.
Proof. repeat split; vm_compute; reflexivity. Qed.

(** ** Insert: a feature without a layer *)

Lemma truthy_not_nullish (v : value) :
  truthy v = true -> is_nullish v = false.
Proof. destruct v; simpl; congruence. Qed.

Lemma array_truthy (features : value) (fs : list value) (f : value) :
  array features = ret fs -> In f fs -> truthy f = true.
Proof.
  unfold array. intros H Hin.
  apply bind_Ret_inv in H. destruct H as (x & w1 & w2 & _ & H & _).
  apply bind_Ret_inv in H. destruct H as (l & w3 & w4 & _ & H & _).
  inversion H; subst. apply filter_In in Hin. tauto.
Qed.

(** The layer that [translateFeatures] reads from [unpack]'s result is the
    one [unpack_arg] computes. *)
Lemma unpack_layer (f : value) (params : obj) (u : obj) (w : list string)
    (layer : value) :
  is_nullish f = false ->
  unpack f params
    ["ns"; "layer"; "geometry_name"; "properties"; "id"; "whitelist"]
  = (Ret u, w) ->
  unpack_arg f params "layer" = ret layer ->
  get (VObj u) "layer" = layer.
Proof.
  intros Hf Hu Hl.
  destruct (unpack_resolve f params
              ["ns"; "layer"; "geometry_name"; "properties"; "id";
               "whitelist"] Hf) as (u' & Hu' & Hget).
  rewrite Hu' in Hu. inversion Hu; subst u'.
  rewrite (unpack_arg_resolve _ _ _ Hf) in Hl. inversion Hl.
  rewrite Hget. reflexivity.
Qed.

(** The loop body of [translateFeatures] throws at a feature whose layer
    resolves to the empty string. *)
Lemma translate_step_throws (cfg : Config) (params : obj) (f : value) :
  is_nullish f = false ->
  unpack_arg f params "layer" = ret (VStr "") ->
  forall inner : string,
  exists e w,
    (u <- unpack f params
            ["ns"; "layer"; "geometry_name"; "properties"; "id";
             "whitelist"] ;;
     fields <- feature_fields cfg (get (VObj params) "srsName")
                 (get (VObj params) "srsDimension") f u ;;
     t <- tag (get (VObj u) "ns") (get (VObj u) "layer")
            [("gml:id", id_1 (get (VObj u) "layer") (get (VObj u) "id"))]
            (VStr fields) ;;
     ret (inner ++ t))
    = (Throw e, w).
Proof.
  intros Hf Hl inner.
  destruct (unpack_resolve f params
              ["ns"; "layer"; "geometry_name"; "properties"; "id";
               "whitelist"] Hf) as (u & Hu & _).
  rewrite Hu, bind_ret.
  rewrite (unpack_layer f params u [] (VStr "") Hf Hu Hl).
  apply bind_throws_right. intros fields.
  apply bind_throws_left. unfold tag. cbn [truthy String.eqb negb].
  do 2 eexists. reflexivity.
Qed.

(** [translateFeatures] up to a feature, at it, and after it. *)
Lemma translateFeatures_split (cfg : Config) (pre : list value) (f : value)
    (rest : list value) (params : obj) :
  translateFeatures cfg (pre ++ f :: rest)%list params
  = (inner <- translateFeatures cfg pre params ;;
     inner' <-
       (u <- unpack f params
               ["ns"; "layer"; "geometry_name"; "properties"; "id";
                "whitelist"] ;;
        fields <- feature_fields cfg (get (VObj params) "srsName")
                    (get (VObj params) "srsDimension") f u ;;
        t <- tag (get (VObj u) "ns") (get (VObj u) "layer")
               [("gml:id", id_1 (get (VObj u) "layer") (get (VObj u) "id"))]
               (VStr fields) ;;
        ret (inner ++ t)) ;;
     foldM
       (fun inner feature =>
          u <- unpack feature params
                 ["ns"; "layer"; "geometry_name"; "properties"; "id";
                  "whitelist"] ;;
          fields <- feature_fields cfg (get (VObj params) "srsName")
                      (get (VObj params) "srsDimension") feature u ;;
          t <- tag (get (VObj u) "ns") (get (VObj u) "layer")
                 [("gml:id",
                   id_1 (get (VObj u) "layer") (get (VObj u) "id"))]
                 (VStr fields) ;;
          ret (inner ++ t))
       rest inner').
Proof. unfold translateFeatures. rewrite foldM_app. reflexivity. Qed.

(** C10, as amended: when the features handed to [Insert] include one whose
    layer resolves to the empty string, [Insert] returns nothing: it
    raises.  What it raises is the first error on the way: that of an
    earlier feature; or else that of the feature's own fields, which are
    built before its tag; or else, when the earlier features are
    translated and the fields are built, the error of [tag], whose message
    is [no tag supplied] followed by the JSON text of the call's arguments,
    the tag name among them being the empty string. *)
Theorem Insert_empty_layer_throws :
  forall (cfg : Config) (features : value) (params : obj)
         (pre rest : list value) (f : value),
    array features = ret (pre ++ f :: rest)%list ->
    unpack_arg f params "layer" = ret (VStr "") ->
    (exists e w, Insert cfg features params = (Throw e, w))
    /\ (forall e w,
          translateFeatures cfg pre params = (Throw e, w) ->
          Insert cfg features params = (Throw e, w))
    /\ (forall (inner : string) (w1 : list string) (u : obj),
          translateFeatures cfg pre params = (Ret inner, w1) ->
          unpack f params
            ["ns"; "layer"; "geometry_name"; "properties"; "id"; "whitelist"]
          = ret u ->
          (forall e w2,
             feature_fields cfg (get (VObj params) "srsName")
               (get (VObj params) "srsDimension") f u = (Throw e, w2) ->
             Insert cfg features params = (Throw e, (w1 ++ w2)%list))
          /\ (forall fields w2,
                feature_fields cfg (get (VObj params) "srsName")
                  (get (VObj params) "srsDimension") f u = (Ret fields, w2) ->
                Insert cfg features params
                = (Throw
                     (ErrorJSON "no tag supplied "
                        (VObj [("ns", get (VObj u) "ns");
                               ("tagName", VStr "");
                               ("attrsObj",
                                VObj [("gml:id",
                                       id_1 (VStr "") (get (VObj u) "id"))]);
                               ("inner", VStr fields)])),
                   (w1 ++ w2)%list))).
Proof.
  intros cfg features params pre rest f Ha Hl.
  assert (Hin : In f (pre ++ f :: rest)%list) by (apply in_elt).
  assert (Hf : is_nullish f = false).
  { apply truthy_not_nullish. exact (array_truthy _ _ _ Ha Hin). }
  unfold Insert. rewrite Ha, bind_ret.
  assert (Hlen : (length (pre ++ f :: rest)%list =? 0)%nat = false).
  { destruct pre; reflexivity. }
  rewrite Hlen. split; [| split].
  - apply bind_throws_left. unfold translateFeatures.
    apply (foldM_throws _ _ f Hin). intros inner.
    apply (translate_step_throws cfg params f Hf Hl).
  - intros e w He. rewrite translateFeatures_split, He. reflexivity.
  - intros inner w1 u Hpre Hu.
    rewrite translateFeatures_split, Hpre, bind_assoc, bind_Ret.
    rewrite Hu, bind_ret.
    rewrite (unpack_layer f params u [] (VStr "") Hf Hu Hl).
    split.
    + intros e w2 Hfields. rewrite Hfields. reflexivity.
    + intros fields w2 Hfields. rewrite Hfields.
      unfold tag. cbn [truthy String.eqb negb]. cbn [bind throw fst snd].
      rewrite !app_nil_r. reflexivity.
Qed.

Lemma Insert_empty_layer_throws_witness :
  array (VArr [road_5; poi_feature]) = ret ([road_5] ++ poi_feature :: [])%list
  /\ unpack_arg poi_feature [("ns", VStr "topp")] "layer" = ret (VStr "")
  /\ Insert config (VArr [road_5; poi_feature]) [("ns", VStr "topp")]
     = (Throw
          (ErrorJSON "no tag supplied "
             (VObj [("ns", VStr "topp"); ("tagName", VStr "");
                    ("attrsObj", VObj [("gml:id", VStr ".1")]);
                    ("inner", VStr "<topp:name>a</topp:name>")])),
        []).
Proof.
  assert (Ha : array (VArr [road_5; poi_feature])
               = ret ([road_5] ++ poi_feature :: [])%list) by reflexivity.
  assert (Hl : unpack_arg poi_feature [("ns", VStr "topp")] "layer"
               = ret (VStr "")) by reflexivity.
  split; [exact Ha |]. split; [exact Hl |].
  destruct (Insert_empty_layer_throws config (VArr [road_5; poi_feature])
              [("ns", VStr "topp")] [road_5] [] poi_feature Ha Hl)
    as (_ & _ & Hthird).
  destruct (Hthird
              ("<topp:roads gml:id=" ++ dq ++ "roads.5" ++ dq
                 ++ "></topp:roads>")
              []
              [("ns", VStr "topp"); ("layer", VStr "");
               ("geometry_name", VStr "");
               ("properties", VObj [("name", VStr "a")]); ("id", VStr "1");
               ("whitelist", VStr "")])
    as [_ Htag]; [vm_compute; reflexivity | vm_compute; reflexivity |].
  apply (Htag "<topp:name>a</topp:name>" []). vm_compute. reflexivity.
Defined.

(** C10 as the claim states it fails: the feature has no layer, and what
    [Insert] raises is not the error of [tag] but [NaN is not allowed.],
    raised while the fields are built. *)
Lemma Insert_empty_layer_NaN :
  unpack_arg nan_feature [] "layer" = ret (VStr "")
  /\ Insert config nan_feature [] = throw (Error "NaN is not allowed.").
Proof. split; reflexivity. Qed.

(** * Further properties *)

(** ** [escape] *)


Lemma escape_char_plain (c : ascii) :
  is_special c = false -> escape_char c = String c EmptyString.
Proof.
  unfold is_special, escape_char. intros H.
  repeat (apply orb_false_iff in H; destruct H as [H ?]).
  repeat match goal with E : _ = false |- _ => rewrite E; clear E end.
  reflexivity.
Qed.

Lemma is_special_cases (c : ascii) :
  is_special c = true ->
  c = "<"%char \/ c = ">"%char \/ c = "&"%char \/ c = "'"%char
  \/ c = ascii_of_nat 34.
Proof.
  unfold is_special. intros H.
  repeat (apply orb_true_iff in H; destruct H as [H | H]).
  - apply Ascii.eqb_eq in H. auto.
  - apply Ascii.eqb_eq in H. auto.
  - apply Ascii.eqb_eq in H. auto.
  - apply Ascii.eqb_eq in H. auto 6.
  - apply Nat.eqb_eq in H. right. right. right. right.
    rewrite <- H. symmetry. apply ascii_nat_embedding.
Qed.

(** X1: whatever the string, its escaped form holds no angle bracket and no
    quote of either kind; a value that is not a string is handed back as it
    is. *)
Theorem escape_leaves_no_markup :
  forall s : string,
    string_forallb (fun c => negb (is_markup c)) (escape_string s) = true
    /\ (forall v, is_string v = false -> escape v = v).
Proof.
  intros s. split.
  - induction s as [| c s IH]; [reflexivity |].
    cbn [escape_string]. rewrite string_forallb_app, IH, andb_true_r.
    destruct (is_special c) eqn:E.
    + apply is_special_cases in E.
      destruct E as [-> | [-> | [-> | [-> | ->]]]]; reflexivity.
    + rewrite (escape_char_plain c E). cbn. rewrite andb_true_r.
      unfold is_special in E. unfold is_markup.
      repeat (apply orb_false_iff in E; destruct E as [E ?]).
      repeat match goal with F : _ = false |- _ => rewrite F; clear F end.
      reflexivity.
  - intros v Hv. destruct v; try reflexivity. discriminate.
Qed.

Lemma escape_leaves_no_markup_witness :
  is_string (VNum 3) = false
  /\ string_forallb (fun c => negb (is_markup c)) (escape_string "a<b>&c")
     = true
  /\ escape (VNum 3) = VNum 3.
Proof.
  split; [reflexivity |].
  destruct (escape_leaves_no_markup "a<b>&c") as [H1 H2].
  split; [exact H1 | apply H2; reflexivity].
Defined.

(** X2: escaping loses nothing: two strings with the same escaped form are
    the same string. *)
Theorem escape_string_injective :
  forall s t : string, escape_string s = escape_string t -> s = t.
Proof.
  induction s as [| c s IH]; intros t H.
  - destruct t as [| d t]; [reflexivity |]. exfalso.
    cbn [escape_string] in H.
    destruct (is_special d) eqn:E.
    + apply is_special_cases in E.
      destruct E as [-> | [-> | [-> | [-> | ->]]]]; discriminate H.
    + rewrite (escape_char_plain d E) in H. discriminate H.
  - destruct t as [| d t].
    + exfalso. cbn [escape_string] in H.
      destruct (is_special c) eqn:E.
      * apply is_special_cases in E.
        destruct E as [-> | [-> | [-> | [-> | ->]]]]; discriminate H.
      * rewrite (escape_char_plain c E) in H. discriminate H.
    + cbn [escape_string] in H.
      destruct (is_special c) eqn:Ec; destruct (is_special d) eqn:Ed.
      * apply is_special_cases in Ec, Ed.
        destruct Ec as [-> | [-> | [-> | [-> | ->]]]];
          destruct Ed as [-> | [-> | [-> | [-> | ->]]]];
          try discriminate H;
          cbn in H; inversion H; f_equal; apply IH; assumption.
      * rewrite (escape_char_plain d Ed) in H.
        apply is_special_cases in Ec.
        destruct Ec as [-> | [-> | [-> | [-> | ->]]]];
          cbn in H; inversion H; subst d; discriminate Ed.
      * rewrite (escape_char_plain c Ec) in H.
        apply is_special_cases in Ed.
        destruct Ed as [-> | [-> | [-> | [-> | ->]]]];
          cbn in H; inversion H; subst c; discriminate Ec.
      * rewrite (escape_char_plain c Ec), (escape_char_plain d Ed) in H.
        cbn in H. inversion H. f_equal. apply IH. assumption.
Qed.

Lemma escape_string_injective_witness :
  escape_string "a<b" = escape_string "a<b" /\ "a<b" = "a<b".
Proof.
  split; [reflexivity |].
  apply (escape_string_injective "a<b" "a<b"). reflexivity.
Defined.

(** ** [attrs$1] *)

Lemma lookup_NoDup (o : obj) (k : string) (v : value) :
  NoDup (map fst o) -> In (k, v) o -> lookup o k = Some v.
Proof.
  induction o as [| [k' v'] o IH]; simpl; [contradiction |].
  intros Hnd [E | Hin].
  - inversion E; subst. rewrite String.eqb_refl. reflexivity.
  - inversion Hnd as [| ? ? Hnot Hnd']; subst.
    destruct (k' =? k) eqn:E.
    + apply String.eqb_eq in E. subst k'. exfalso. apply Hnot.
      apply (in_map fst) in Hin. exact Hin.
    + apply IH; assumption.
Qed.

Lemma attrs_1_pairs (o l : obj) :
  (forall k v, In (k, v) l -> get (VObj o) k = v) ->
  String.concat ""
    (map (fun a =>
            if truthy (get (VObj o) a)
            then " " ++ a ++ "=" ++ dq
                   ++ to_string (escape (get (VObj o) a)) ++ dq
            else "")
       (map fst l))
  = String.concat ""
      (map (fun p => attribute_text (fst p) (snd p))
         (List.filter (fun p => truthy (snd p)) l)).
Proof.
  induction l as [| [k v] l IH]; intros H; [reflexivity |].
  cbn [map fst List.filter snd]. rewrite concat_cons.
  rewrite (H k v (or_introl eq_refl)).
  rewrite IH by (intros k' v' Hin; apply H; right; exact Hin).
  destruct (truthy v); [| reflexivity].
  cbn [map]. rewrite concat_cons. reflexivity.
Qed.

(** X3: [attrs$1] writes the attributes whose value is truthy, in the order
    of the object, each with its escaped value between double quotes, and
    nothing for the others. *)
Theorem attrs_1_truthy_only :
  forall o : obj,
    NoDup (map fst o) ->
    attrs_1 o
    = String.concat ""
        (map (fun p => attribute_text (fst p) (snd p))
           (List.filter (fun p => truthy (snd p)) o)).
Proof.
  intros o Hnd. unfold attrs_1. apply attrs_1_pairs.
  intros k v Hin. simpl. rewrite (lookup_NoDup o k v Hnd Hin). reflexivity.
Qed.

Lemma attrs_1_truthy_only_witness :
  NoDup (map fst [("inputFormat", VUndef); ("srsName", VStr "EPSG:4326");
                  ("handle", VStr "")])
  /\ attrs_1 [("inputFormat", VUndef); ("srsName", VStr "EPSG:4326");
              ("handle", VStr "")]
     = attribute_text "srsName" (VStr "EPSG:4326").
Proof.
  assert (H : NoDup (map fst [("inputFormat", VUndef);
                              ("srsName", VStr "EPSG:4326");
                              ("handle", VStr "")])).
  { repeat constructor; simpl; intros H;
      repeat (destruct H as [H | H]; [discriminate H |]); exact H. }
  split; [exact H |].
  exact (attrs_1_truthy_only _ H).
Defined.

(** ** [id$1] *)

Lemma contains_dot_app (a b : string) :
  contains_dot (a ++ "." ++ b) = true.
Proof.
  induction a as [| c a IH]; [reflexivity |].
  cbn [String.append contains_dot]. cbn [String.append] in IH.
  rewrite IH. apply orb_true_r.
Qed.

Lemma app_dot_not_empty (a b : string) : (a ++ "." ++ b =? "") = false.
Proof. destruct a; reflexivity. Qed.

Lemma contains_dot_truthy (v : value) :
  contains_dot (to_string (or_else v (VStr ""))) = true ->
  or_else v (VStr "") = v.
Proof.
  unfold or_else. destruct (truthy v); [reflexivity |]. discriminate.
Qed.

(** X4: the identifier [id$1] returns always holds a dot, and formatting it
    again, under any layer, leaves it as it is. *)
Theorem id_1_stable :
  forall lyr lyr' _id : value,
    contains_dot (to_string (id_1 lyr _id)) = true
    /\ id_1 lyr' (id_1 lyr _id) = id_1 lyr _id.
Proof.
  intros lyr lyr' _id. unfold id_1 at 1 3 4.
  destruct (contains_dot (to_string (or_else _id (VStr "")))) eqn:E.
  - pose proof (contains_dot_truthy _ E) as Ho. rewrite Ho in E.
    split; [exact E |]. unfold id_1. rewrite Ho, E. reflexivity.
  - cbn [to_string]. split; [apply contains_dot_app |].
    unfold id_1, or_else. cbn [truthy to_string].
    rewrite app_dot_not_empty. cbn [negb to_string].
    rewrite contains_dot_app. reflexivity.
Qed.

(** ** [array] *)

Lemma string_of_uint_digit (d : Decimal.uint) :
  exists c r, NilZero.string_of_uint d = String c r /\ is_digit c = true.
Proof. destruct d; simpl; eauto. Qed.

Lemma index_keys_digit (n : nat) (k : string) :
  In k (index_keys n) -> exists c r, k = String c r /\ is_digit c = true.
Proof.
  unfold index_keys. intros H. apply in_map_iff in H.
  destruct H as (i & <- & _). apply string_of_uint_digit.
Qed.

Lemma lookup_index_key {A : Type} (ks : list string) (l : list A)
    (k : string) (x : A) :
  lookup_index ks l k = Some x -> In k ks.
Proof.
  revert l. induction ks as [| k' ks IH]; intros l; simpl; [discriminate |].
  destruct l as [| y l]; [discriminate |].
  destruct (k' =? k) eqn:E.
  - apply String.eqb_eq in E. auto.
  - intros H. right. eapply IH, H.
Qed.

(** A name that starts with a letter is no index of an array. *)
Lemma get_array_name (l : list value) (c : ascii) (r : string) :
  is_digit c = false -> (String c r =? "length") = false ->
  get (VArr l) (String c r) = VUndef.
Proof.
  intros Hc Hl. cbn [get]. rewrite Hl.
  destruct (lookup_index (index_keys (length l)) l (String c r)) eqn:E;
    [| reflexivity].
  apply lookup_index_key, index_keys_digit in E.
  destruct E as (c' & r' & E & Hd). inversion E; subst. congruence.
Qed.

Lemma filter_all {A : Type} (p : A -> bool) (l : list A) :
  Forall (fun x => p x = true) l -> List.filter p l = l.
Proof.
  induction 1 as [| x l Hx _ IH]; simpl; [reflexivity |].
  rewrite Hx, IH. reflexivity.
Qed.

(** X5: what [array] returns holds truthy values only, and is a fixed point
    of [array]: handing the result to [array] again returns it
    unchanged. *)
Theorem array_normal_form :
  forall (maybe0 : value) (features : list value),
    array maybe0 = ret features ->
    Forall (fun f => truthy f = true) features
    /\ array (VArr features) = ret features.
Proof.
  intros maybe0 features H.
  assert (Ht : Forall (fun f => truthy f = true) features).
  { apply Forall_forall. intros f Hin.
    unfold array in H.
    apply bind_Ret_inv in H. destruct H as (x & w1 & w2 & _ & H & _).
    apply bind_Ret_inv in H. destruct H as (l & w3 & w4 & _ & H & _).
    inversion H; subst. apply filter_In in Hin. tauto. }
  split; [exact Ht |].
  unfold array, getM. cbn [is_nullish].
  rewrite bind_ret, (get_array_name features "f" "eatures") by reflexivity.
  cbn [truthy]. rewrite bind_ret, (filter_all _ _ Ht). reflexivity.
Qed.

Lemma array_normal_form_witness :
  array (VObj [("features", VArr [VNull; road_5; VNum 0])]) = ret [road_5]
  /\ Forall (fun f => truthy f = true) [road_5]
  /\ array (VArr [road_5]) = ret [road_5].
Proof.
  assert (H : array (VObj [("features", VArr [VNull; road_5; VNum 0])])
              = ret [road_5]) by reflexivity.
  split; [exact H |].
  exact (array_normal_form _ _ H).
Defined.

(** ** Coordinate lists *)

Lemma join_strings_cons (sep s : string) (l : list string) :
  l <> [] -> join_strings sep (s :: l) = s ++ sep ++ join_strings sep l.
Proof. destruct l; [congruence | reflexivity]. Qed.

Lemma join_strings_app (sep : string) (l1 l2 : list string) :
  l1 <> [] -> l2 <> [] ->
  join_strings sep (l1 ++ l2)
  = join_strings sep l1 ++ sep ++ join_strings sep l2.
Proof.
  intros H1 H2. induction l1 as [| s l1 IH]; [congruence |].
  destruct l1 as [| s' l1].
  - cbn [app]. rewrite (join_strings_cons sep s l2 H2). reflexivity.
  - change ((s :: s' :: l1) ++ l2)%list with (s :: ((s' :: l1) ++ l2))%list.
    rewrite join_strings_cons by discriminate.
    rewrite IH by discriminate.
    rewrite (join_strings_cons sep s (s' :: l1)) by discriminate.
    rewrite !append_assoc. reflexivity.
Qed.

(** Joining the joined tuples is joining all their components. *)
Lemma join_strings_flat (sep : string) (ts : list (list string)) :
  Forall (fun t => t <> []) ts ->
  join_strings sep (map (join_strings sep) ts)
  = join_strings sep (List.concat ts).
Proof.
  induction 1 as [| t ts Ht Hts IH]; [reflexivity |].
  cbn [map List.concat]. destruct ts as [| t' ts].
  - cbn. rewrite app_nil_r. reflexivity.
  - rewrite join_strings_cons by discriminate. rewrite IH.
    rewrite join_strings_app; [reflexivity | exact Ht |].
    inversion Hts; subst. cbn [List.concat]. destruct t'; [congruence |].
    discriminate.
Qed.

Lemma mapM_ret {A B : Type} (f : A -> M B) (g : A -> B) (l : list A) :
  (forall x, In x l -> f x = ret (g x)) -> mapM f l = ret (map g l).
Proof.
  induction l as [| x l IH]; intros H; [reflexivity |].
  cbn [mapM map]. rewrite (H x (or_introl eq_refl)), bind_ret.
  rewrite IH by (intros y Hy; apply H; right; exact Hy).
  rewrite bind_ret. reflexivity.
Qed.

(** With the coordinate order kept, the position list of non-empty tuples
    is the text of all their components. *)
Lemma posList_kept (cfg : Config) (ts : list (list value)) :
  coordinateOrder cfg = true ->
  Forall (fun t => t <> []) ts ->
  posList cfg (VArr (map VArr ts)) = ret (components (List.concat ts)).
Proof.
  intros Hc Hts. unfold posList. cbn [as_array]. rewrite bind_ret.
  rewrite (mapM_ret _ (fun e => match e with
                                | VArr t => components t
                                | _ => ""
                                end)).
  - rewrite bind_ret, map_map. unfold ret, components. do 2 f_equal.
    rewrite concat_map, <- join_strings_flat.
    + rewrite map_map. reflexivity.
    + apply Forall_forall. intros t Ht.
      apply in_map_iff in Ht. destruct Ht as (t' & <- & Ht').
      rewrite Forall_forall in Hts. specialize (Hts t' Ht').
      destruct t'; [congruence | discriminate].
  - intros e He. apply in_map_iff in He. destruct He as (t & <- & _).
    unfold orderCoords. rewrite Hc, bind_ret. reflexivity.
Qed.

(** X6: with the coordinate order left as it is, a [gml:LineString] lists
    all components of all tuples, whatever values they are, in order and
    separated by single spaces; where one tuple ends and the next begins is
    not marked. *)
Theorem LineString_flattens :
  forall (cfg : Config) (ts : list (list value)) (gmlId : value)
         (params : GmlParams),
    coordinateOrder cfg = true ->
    Forall (fun t => t <> []) ts ->
    LineString cfg (VArr (map VArr ts)) gmlId params
    = ret ("<gml:LineString"
             ++ attrs [("srsName", srsName params); ("gml:id", gmlId)] ++ ">"
             ++ "<gml:posList"
             ++ attrs [("srsDimension", srsDimension params)] ++ ">"
             ++ components (List.concat ts)
             ++ "</gml:posList>" ++ "</gml:LineString>").
Proof.
  intros cfg ts gmlId params Hc Hts. unfold LineString.
  rewrite (posList_kept cfg ts Hc Hts), bind_ret. reflexivity.
Qed.

Lemma LineString_flattens_witness :
  coordinateOrder config = true
  /\ Forall (fun t : list value => t <> []) decimal_positions
  /\ LineString config (VArr (map VArr decimal_positions)) (VStr "") no_params
     = ret ("<gml:LineString><gml:posList>"
              ++ "-122.4194 37.7749 2.5 0 1e+21 1e-7 -3"
              ++ "</gml:posList></gml:LineString>").
Proof.
  assert (H : Forall (fun t : list value => t <> []) decimal_positions)
    by (repeat constructor; discriminate).
  split; [reflexivity |]. split; [exact H |].
  exact (LineString_flattens config decimal_positions (VStr "") no_params
           eq_refl H).
Defined.

(** X7: with the coordinate order left as it is, a [gml:LinearRing] lists
    all components of all tuples, whatever values they are, in order and
    separated by single spaces; its [gml:id] is written before its
    [srsName]. *)
Theorem LinearRing_components :
  forall (cfg : Config) (ts : list (list value)) (gmlId : value)
         (params : GmlParams),
    coordinateOrder cfg = true ->
    Forall (fun t => t <> []) ts ->
    LinearRing cfg (VArr (map VArr ts)) gmlId params
    = ret ("<gml:LinearRing"
             ++ attrs [("gml:id", gmlId); ("srsName", srsName params)] ++ ">"
             ++ "<gml:posList"
             ++ attrs [("srsDimension", srsDimension params)] ++ ">"
             ++ components (List.concat ts)
             ++ "</gml:posList>" ++ "</gml:LinearRing>").
Proof.
  intros cfg ts gmlId params Hc Hts. unfold LinearRing.
  rewrite (posList_kept cfg ts Hc Hts), bind_ret. reflexivity.
Qed.

Lemma LinearRing_components_witness :
  coordinateOrder config = true
  /\ Forall (fun t : list value => t <> []) decimal_positions
  /\ LinearRing config (VArr (map VArr decimal_positions)) (VStr "r1")
       {| srsName := VStr "EPSG:4326"; srsDimension := VNum 2;
          gmlIds := VUndef |}
     = ret ("<gml:LinearRing gml:id=" ++ dq ++ "r1" ++ dq
              ++ " srsName=" ++ dq ++ "EPSG:4326" ++ dq
              ++ "><gml:posList srsDimension=" ++ dq ++ "2" ++ dq ++ ">"
              ++ "-122.4194 37.7749 2.5 0 1e+21 1e-7 -3"
              ++ "</gml:posList></gml:LinearRing>").
Proof.
  assert (H : Forall (fun t : list value => t <> []) decimal_positions)
    by (repeat constructor; discriminate).
  split; [reflexivity |]. split; [exact H |].
  exact (LinearRing_components config decimal_positions (VStr "r1")
           {| srsName := VStr "EPSG:4326"; srsDimension := VNum 2;
              gmlIds := VUndef |} eq_refl H).
Defined.

(** ** [Polygon] *)

Lemma mapM_cons_inv {A B : Type} (f : A -> M B) (x : A) (l : list A)
    (ys : list B) :
  mapM f (x :: l) = ret ys ->
  exists y ys', ys = y :: ys' /\ f x = ret y /\ mapM f l = ret ys'.
Proof.
  cbn [mapM]. intros H.
  apply bind_Ret_inv in H. destruct H as (y & w1 & w2 & Hy & H & Hw).
  apply bind_Ret_inv in H. destruct H as (ys' & w3 & w4 & Hys & H & Hw').
  inversion H; subst. symmetry in Hw. apply app_eq_nil in Hw.
  destruct Hw as [-> Hw]. apply app_eq_nil in Hw. destruct Hw as [-> _].
  exists y, ys'. auto.
Qed.

Lemma interior_loop (cfg : Config) (rings : list value) (ts : list string) :
  mapM (fun r => LinearRing cfg r VUndef no_params) rings = ret ts ->
  forall polygon,
    foldM
      (fun polygon linearRing =>
         r <- LinearRing cfg linearRing VUndef no_params ;;
         ret (polygon ++ "<gml:interior>" ++ r ++ "</gml:interior>"))
      rings polygon
    = ret (polygon
             ++ String.concat ""
                  (map (fun t => "<gml:interior>" ++ t ++ "</gml:interior>")
                     ts)).
Proof.
  revert ts. induction rings as [| r rings IH]; intros ts H polygon.
  - inversion H; subst. cbn. rewrite append_empty_r. reflexivity.
  - apply mapM_cons_inv in H. destruct H as (t & ts' & -> & Ht & Hts).
    cbn [foldM map]. rewrite Ht, !bind_ret, (IH ts' Hts), concat_cons.
    rewrite !append_assoc. reflexivity.
Qed.

Lemma get_array_first (x : value) (l : list value) :
  get (VArr (x :: l)) "0" = x.
Proof. reflexivity. Qed.

(** X8: a [gml:Polygon] has one [gml:exterior], made from the first ring,
    followed by one [gml:interior] for each further ring, in order.  The
    rings are written without a [gml:id] and without the polygon's
    [srsName]. *)
Theorem Polygon_rings :
  forall (cfg : Config) (ring : value) (rings : list value)
         (t : string) (ts : list string) (gmlId : value) (params : GmlParams),
    mapM (fun r => LinearRing cfg r VUndef no_params) (ring :: rings)
    = ret (t :: ts) ->
    Polygon cfg (VArr (ring :: rings)) gmlId params
    = ret ("<gml:Polygon"
             ++ attrs [("srsName", srsName params); ("gml:id", gmlId)] ++ ">"
             ++ "<gml:exterior>" ++ t ++ "</gml:exterior>"
             ++ String.concat ""
                  (map (fun t => "<gml:interior>" ++ t ++ "</gml:interior>")
                     ts)
             ++ "</gml:Polygon>").
Proof.
  intros cfg ring rings t ts gmlId params H.
  apply mapM_cons_inv in H. destruct H as (t' & ts' & E & Ht & Hts).
  inversion E; subst t' ts'. clear E.
  unfold Polygon, getM. cbn [is_nullish]. rewrite bind_ret, get_array_first.
  rewrite Ht, bind_ret.
  destruct rings as [| r2 rings].
  - inversion Hts; subst. cbn. unfold ret. do 2 f_equal.
    repeat (rewrite ?append_assoc; cbn [String.append]). reflexivity.
  - assert (Hge : ge2 (get (VArr (ring :: r2 :: rings)) "length") = true).
    { cbn [get String.eqb Ascii.eqb Bool.eqb]. unfold ge2, to_number.
      apply Z.leb_le. cbn [length]. lia. }
    rewrite Hge. cbn [slice1 tl]. rewrite bind_ret.
    change (iterate (VArr (r2 :: rings))) with (ret (r2 :: rings)).
    rewrite bind_ret.
    rewrite (interior_loop cfg (r2 :: rings) ts Hts), bind_ret.
    repeat (rewrite ?append_assoc; cbn [String.append]). reflexivity.
Qed.

Lemma Polygon_rings_witness :
  mapM (fun r => LinearRing config r VUndef no_params)
    [tuples [[0; 0]; [4; 0]; [0; 4]; [0; 0]]%Z;
     tuples [[1; 1]; [2; 1]; [1; 2]; [1; 1]]%Z]
  = ret ["<gml:LinearRing><gml:posList>0 0 4 0 0 4 0 0</gml:posList></gml:LinearRing>";
         "<gml:LinearRing><gml:posList>1 1 2 1 1 2 1 1</gml:posList></gml:LinearRing>"]
  /\ Polygon config
       (VArr [tuples [[0; 0]; [4; 0]; [0; 4]; [0; 0]]%Z;
              tuples [[1; 1]; [2; 1]; [1; 2]; [1; 1]]%Z])
       (VStr "") no_params
     = ret ("<gml:Polygon><gml:exterior><gml:LinearRing><gml:posList>"
              ++ "0 0 4 0 0 4 0 0</gml:posList></gml:LinearRing>"
              ++ "</gml:exterior><gml:interior><gml:LinearRing><gml:posList>"
              ++ "1 1 2 1 1 2 1 1</gml:posList></gml:LinearRing>"
              ++ "</gml:interior></gml:Polygon>").
Proof.
  assert (H : mapM (fun r => LinearRing config r VUndef no_params)
                [tuples [[0; 0]; [4; 0]; [0; 4]; [0; 0]]%Z;
                 tuples [[1; 1]; [2; 1]; [1; 2]; [1; 1]]%Z]
              = ret ["<gml:LinearRing><gml:posList>0 0 4 0 0 4 0 0</gml:posList></gml:LinearRing>";
                     "<gml:LinearRing><gml:posList>1 1 2 1 1 2 1 1</gml:posList></gml:LinearRing>"])
    by (vm_compute; reflexivity).
  split; [exact H |].
  exact (Polygon_rings config _ _ _ _ (VStr "") no_params H).
Defined.

(** [Polygon] needs a first ring: on an empty array it throws. *)
Lemma Polygon_empty (cfg : Config) (gmlId : value) (params : GmlParams) :
  Polygon cfg (VArr []) gmlId params = throw TypeError.
Proof. reflexivity. Qed.

(** ** Multi-geometries *)

Lemma nat_to_string_not_length (i : nat) :
  (nat_to_string i =? "length") = false.
Proof.
  unfold nat_to_string.
  destruct (string_of_uint_digit (Nat.to_uint i)) as (c & r & -> & Hc).
  destruct (String c r =? "length") eqn:E; [| reflexivity].
  apply String.eqb_eq in E. inversion E; subst. discriminate Hc.
Qed.

Lemma get_empty_array_index (i : nat) :
  get (VArr []) (nat_to_string i) = VUndef.
Proof. cbn [get]. rewrite nat_to_string_not_length. reflexivity. Qed.

Lemma Point_kept (cfg : Config) (t : list value) (gmlId : value)
    (params : GmlParams) :
  coordinateOrder cfg = true ->
  Point cfg (VArr t) gmlId params
  = ret (point_text params gmlId (components t)).
Proof.
  intros Hc. unfold Point, orderCoords. rewrite Hc, bind_ret.
  unfold join. cbn [as_array]. rewrite !bind_ret. reflexivity.
Qed.

Lemma MultiPoint_loop (cfg : Config) (params : GmlParams)
    (ts : list (list value)) :
  coordinateOrder cfg = true ->
  truthy (gmlIds params) = false ->
  forall (start : nat) (acc : string),
    foldM
      (fun acc '(i, member) =>
         member_id <- getM member "id" ;;
         let _gmlId :=
           or_else
             (or_else member_id
                (get (or_else (gmlIds params) (VArr [])) (nat_to_string i)))
             (VStr "") in
         if "MultiPoint" =? "MultiGeometry" then
           let memberType := get member "type" in
           let member := get member "coordinates" in
           match Callback (Point cfg) with
           | Table t =>
               match t (to_string memberType) with
               | Some f => s <- f member _gmlId params ;; ret (acc ++ s)
               | None => throw TypeError
               end
           | Callback _ => throw TypeError
           end
         else
           match Callback (Point cfg) with
           | Callback f => s <- f member _gmlId params ;; ret (acc ++ s)
           | Table _ => throw TypeError
           end)
      (combine (seq start (length (map VArr ts))) (map VArr ts))
      acc
    = ret (acc
             ++ String.concat ""
                  (map (fun t => point_text params (VStr "") (components t))
                     ts)).
Proof.
  intros Hc Hg. induction ts as [| t ts IH]; intros start acc.
  - cbn. rewrite append_empty_r. reflexivity.
  - cbn [map length seq combine foldM].
    unfold getM at 1. cbn [is_nullish].
    rewrite (get_array_name t "i" "d") by reflexivity.
    rewrite bind_ret. cbn [String.eqb Ascii.eqb Bool.eqb].
    unfold or_else at 1 2 3. rewrite Hg. cbn [truthy].
    rewrite get_empty_array_index. cbn [truthy String.eqb negb].
    rewrite (Point_kept cfg t _ params Hc), !bind_ret, IH, concat_cons,
      append_assoc.
    reflexivity.
Qed.

(** X9: with the coordinate order left as it is, a [gml:MultiPoint] holds
    one [gml:Point] per tuple, in order, whatever values the components
    are; when no list of member ids is passed, each point repeats the
    [srsName] and carries no [gml:id]. *)
Theorem MultiPoint_points :
  forall (cfg : Config) (ts : list (list value)) (gmlId : value)
         (params : GmlParams),
    coordinateOrder cfg = true ->
    truthy (gmlIds params) = false ->
    MultiPoint cfg (VArr (map VArr ts)) gmlId params
    = ret ("<gml:MultiPoint"
             ++ attrs [("srsName", srsName params); ("gml:id", gmlId)] ++ ">"
             ++ "<gml:pointMembers>"
             ++ String.concat ""
                  (map (fun t => point_text params (VStr "") (components t))
                     ts)
             ++ "</gml:pointMembers>" ++ "</gml:MultiPoint>").
Proof.
  intros cfg ts gmlId params Hc Hg. unfold MultiPoint, multi.
  cbn [as_array]. rewrite bind_ret.
  rewrite (MultiPoint_loop cfg params ts Hc Hg 0), bind_ret.
  repeat (rewrite ?append_assoc; cbn [String.append]). reflexivity.
Qed.

Lemma MultiPoint_points_witness :
  coordinateOrder config = true
  /\ truthy (gmlIds {| srsName := VStr "EPSG:4326"; srsDimension := VUndef;
                       gmlIds := VUndef |}) = false
  /\ MultiPoint config
       (VArr (map VArr [[VDec (-1224194) (-4); VDec 377749 (-4)];
                        [VNum 3; VDec 45 (-1); VNum 10]]))
       (VStr "mp")
       {| srsName := VStr "EPSG:4326"; srsDimension := VUndef;
          gmlIds := VUndef |}
     = ret ("<gml:MultiPoint srsName=" ++ dq ++ "EPSG:4326" ++ dq
              ++ " gml:id=" ++ dq ++ "mp" ++ dq ++ "><gml:pointMembers>"
              ++ "<gml:Point srsName=" ++ dq ++ "EPSG:4326" ++ dq
              ++ "><gml:pos>-122.4194 37.7749</gml:pos></gml:Point>"
              ++ "<gml:Point srsName=" ++ dq ++ "EPSG:4326" ++ dq
              ++ "><gml:pos>3 4.5 10</gml:pos></gml:Point>"
              ++ "</gml:pointMembers></gml:MultiPoint>").
Proof.
  split; [reflexivity |]. split; [reflexivity |].
  exact (MultiPoint_points config
           [[VDec (-1224194) (-4); VDec 377749 (-4)];
            [VNum 3; VDec 45 (-1); VNum 10]]
           (VStr "mp")
           {| srsName := VStr "EPSG:4326"; srsDimension := VUndef;
              gmlIds := VUndef |} eq_refl eq_refl).
Defined.

(** ** [GeometryCollection] *)

Lemma In_combine_seq {A : Type} (l : list A) (x : A) :
  In x l -> forall start, exists i, In (i, x) (combine (seq start (length l)) l).
Proof.
  induction l as [| y l IH]; [contradiction |].
  intros [-> | H] start; cbn [length seq combine].
  - exists start. left. reflexivity.
  - destruct (IH H (S start)) as (i & Hi). exists i. right. exact Hi.
Qed.

Lemma converter_with_unrecognized (cfg : Config) (collection : encoder)
    (ty : string) :
  ~ In ty recognized_types -> assoc (converter_with cfg collection) ty = None.
Proof.
  intros H. unfold converter_with. cbn [assoc].
  repeat match goal with
  | |- context [?k =? ty] =>
      let E := fresh "E" in
      destruct (k =? ty) eqn:E;
      [ apply String.eqb_eq in E; subst ty; exfalso; apply H; simpl; tauto | ]
  end.
  reflexivity.
Qed.

Lemma GeometryCollection_n_not_array (n : nat) (cfg : Config)
    (geoms gmlId : value) (params : GmlParams) :
  is_array geoms = false ->
  GeometryCollection_n n cfg geoms gmlId params = throw TypeError.
Proof.
  intros H. rewrite GeometryCollection_n_unfold. unfold multi.
  destruct geoms; try discriminate H; reflexivity.
Qed.

(** X10: [geomToGml] raises on a collection one of whose members is
    [null] or [undefined], has a type that is none of the eight, or is
    itself a collection whose members are under [geometries] rather than
    [coordinates], as GeoJSON has them. *)
Theorem geomToGml_collection_member_throws :
  forall (cfg : Config) (geom gmlId : value) (params : GmlParams)
         (members : list value) (m : value),
    is_nullish geom = false ->
    to_string (get geom "type") = "GeometryCollection" ->
    or_else (get geom "coordinates") (get geom "geometries") = VArr members ->
    In m members ->
    is_nullish m = true
    \/ (~ In (to_string (get m "type")) recognized_types
        /\ ~ In (to_string (get m "type")) Object_prototype_names)
    \/ (to_string (get m "type") = "GeometryCollection"
        /\ is_array (get m "coordinates") = false) ->
    exists e w, geomToGml cfg geom gmlId params = (Throw e, w).
Proof.
  intros cfg geom gmlId params members m Hg Hty Hpay Hin Hbad.
  unfold geomToGml. rewrite (getM_not_nullish _ _ Hg), bind_ret, Hty, Hpay.
  change (converter cfg "GeometryCollection")
    with (Some (GeometryCollection cfg)).
  cbv iota. apply bind_throws_left.
  unfold GeometryCollection. rewrite GeometryCollection_n_unfold.
  unfold multi. cbn [as_array]. rewrite bind_ret.
  apply bind_throws_left.
  destruct (In_combine_seq members m Hin 0) as (i & Hi).
  apply (foldM_throws _ _ (i, m) Hi). intros acc.
  destruct (is_nullish m) eqn:Hm.
  { unfold getM. rewrite Hm. do 2 eexists. reflexivity. }
  rewrite (getM_not_nullish _ _ Hm), bind_ret.
  cbn [String.eqb Ascii.eqb Bool.eqb].
  destruct Hbad as [Hn | [[Hu _] | [Hc Ha]]].
  - discriminate Hn.
  - rewrite (converter_with_unrecognized cfg _ _ Hu).
    do 2 eexists. reflexivity.
  - rewrite Hc. cbn [assoc converter_with String.eqb Ascii.eqb Bool.eqb].
    apply bind_throws_left.
    destruct (depth (VArr members)) as [| k].
    + do 2 eexists. reflexivity.
    + rewrite (GeometryCollection_n_not_array k cfg _ _ _ Ha).
      do 2 eexists. reflexivity.
Qed.

Lemma geomToGml_collection_member_throws_witness :
  exists e w,
    geomToGml config nested_collection (VStr "") no_params = (Throw e, w).
Proof.
  apply (geomToGml_collection_member_throws config nested_collection
           (VStr "") no_params
           [VObj [("type", VStr "GeometryCollection");
                  ("geometries",
                   VArr [VObj [("type", VStr "Point");
                               ("coordinates", tuple [1; 2]%Z)]])]]
           (VObj [("type", VStr "GeometryCollection");
                  ("geometries",
                   VArr [VObj [("type", VStr "Point");
                               ("coordinates", tuple [1; 2]%Z)]])])).
  - reflexivity.
  - reflexivity.
  - reflexivity.
  - left. reflexivity.
  - right. right. split; reflexivity.
Defined.

(** ** Warnings *)

Lemma silent_ret {A : Type} (a : A) : silent (ret a).
Proof. reflexivity. Qed.

Lemma silent_throw {A : Type} (e : exn) : silent (@throw A e).
Proof. reflexivity. Qed.

Lemma silent_bind_dep {A B : Type} (m : M A) (f : A -> M B) :
  silent m -> (forall a, m = ret a -> silent (f a)) -> silent (bind m f).
Proof.
  unfold silent, warnings. destruct m as [[a | e] w]; simpl; intros -> H.
  - specialize (H a eq_refl). destruct (f a) as [r w']. simpl in *.
    exact H.
  - reflexivity.
Qed.

Lemma silent_bind {A B : Type} (m : M A) (f : A -> M B) :
  silent m -> (forall a, silent (f a)) -> silent (bind m f).
Proof. intros Hm Hf. apply silent_bind_dep; auto. Qed.

Lemma silent_foldM {A S : Type} (f : S -> A -> M S) (l : list A) :
  (forall s x, silent (f s x)) -> forall s, silent (foldM f l s).
Proof.
  intros H. induction l as [| x l IH]; intros s; cbn [foldM].
  - apply silent_ret.
  - apply silent_bind; auto.
Qed.

Lemma silent_mapM {A B : Type} (f : A -> M B) (l : list A) :
  (forall x, silent (f x)) -> silent (mapM f l).
Proof.
  intros H. induction l as [| x l IH]; cbn [mapM].
  - apply silent_ret.
  - apply silent_bind; [apply H | intros y].
    apply silent_bind; [exact IH | intros ys; apply silent_ret].
Qed.

Create HintDb silent.
#[local] Hint Resolve silent_ret silent_throw : silent.

Ltac silent_step :=
  match goal with
  | |- silent (ret _) => apply silent_ret
  | |- silent (throw _) => apply silent_throw
  | |- silent (bind _ _) => apply silent_bind; [| intros ?]
  | |- silent (foldM _ _ _) => apply silent_foldM; intros ? ?
  | |- silent (mapM _ _) => apply silent_mapM; intros ?
  | |- silent (if ?c then _ else _) => destruct c
  | |- silent (match ?x with _ => _ end) => destruct x
  end.

Ltac silence := repeat silent_step; auto with silent.

Lemma silent_getM (v : value) (k : string) : silent (getM v k).
Proof. unfold getM. silence. Qed.

Lemma silent_as_array (v : value) : silent (as_array v).
Proof. unfold as_array. silence. Qed.

Lemma silent_iterate (v : value) : silent (iterate v).
Proof. unfold iterate. silence. Qed.

Lemma silent_Object_keys (v : value) : silent (Object_keys v).
Proof. unfold Object_keys. silence. Qed.

#[local] Hint Resolve silent_getM silent_as_array silent_iterate
  silent_Object_keys : silent.

Lemma silent_join (v : value) (sep : string) : silent (join v sep).
Proof. unfold join. silence. Qed.

Lemma silent_orderCoords (cfg : Config) (c : value) :
  silent (orderCoords cfg c).
Proof. unfold orderCoords, reverse. silence. Qed.

#[local] Hint Resolve silent_join silent_orderCoords : silent.

Lemma silent_posList (cfg : Config) (c : value) : silent (posList cfg c).
Proof. unfold posList. silence. Qed.

#[local] Hint Resolve silent_posList : silent.

Lemma silent_Point (cfg : Config) (c g : value) (p : GmlParams) :
  silent (Point cfg c g p).
Proof. unfold Point. silence. Qed.

Lemma silent_LineString (cfg : Config) (c g : value) (p : GmlParams) :
  silent (LineString cfg c g p).
Proof. unfold LineString. silence. Qed.

Lemma silent_LinearRing (cfg : Config) (c g : value) (p : GmlParams) :
  silent (LinearRing cfg c g p).
Proof. unfold LinearRing. silence. Qed.

#[local] Hint Resolve silent_Point silent_LineString silent_LinearRing
  : silent.

Lemma silent_Polygon (cfg : Config) (c g : value) (p : GmlParams) :
  silent (Polygon cfg c g p).
Proof. unfold Polygon, slice1. silence. Qed.

#[local] Hint Resolve silent_Polygon : silent.

Lemma silent_multi (name memberName : string) (cb : membercb)
    (geom gmlId : value) (params : GmlParams) :
  silent_cb cb -> silent (multi name memberName cb geom gmlId params).
Proof.
  intros Hcb. unfold multi. silent_step; [silence |].
  silent_step; [| silence].
  apply silent_foldM. intros acc [i member].
  silent_step; [silence |].
  destruct (name =? "MultiGeometry"); destruct cb as [f | t];
    cbn [silent_cb] in Hcb; try apply silent_throw.
  - destruct (t (to_string (get member "type"))) as [f |] eqn:E;
      [| apply silent_throw].
    silent_step; [eapply Hcb, E | silence].
  - silent_step; [apply Hcb | silence].
Qed.

Lemma silent_MultiPoint (cfg : Config) (c g : value) (p : GmlParams) :
  silent (MultiPoint cfg c g p).
Proof. apply silent_multi. intros ? ? ?. apply silent_Point. Qed.

Lemma silent_MultiLineString (cfg : Config) (c g : value) (p : GmlParams) :
  silent (MultiLineString cfg c g p).
Proof. apply silent_multi. intros ? ? ?. apply silent_LineString. Qed.

Lemma silent_MultiPolygon (cfg : Config) (c g : value) (p : GmlParams) :
  silent (MultiPolygon cfg c g p).
Proof. apply silent_multi. intros ? ? ?. apply silent_Polygon. Qed.

Lemma silent_converter_with (cfg : Config) (collection : encoder) :
  (forall c g p, silent (collection c g p)) ->
  silent_cb (Table (assoc (converter_with cfg collection))).
Proof.
  intros Hc ty f. unfold converter_with. cbn [assoc].
  repeat match goal with
  | |- (if ?b then _ else _) = _ -> _ => destruct b
  end;
  intros E; inversion E; subst; intros c g p;
  auto using silent_Point, silent_LineString, silent_LinearRing,
    silent_Polygon, silent_MultiPoint, silent_MultiLineString,
    silent_MultiPolygon.
Qed.

Lemma silent_GeometryCollection_n (n : nat) (cfg : Config) :
  forall c g p, silent (GeometryCollection_n n cfg c g p).
Proof.
  induction n as [| n IH]; intros c g p;
    rewrite GeometryCollection_n_unfold; apply silent_multi;
    apply silent_converter_with.
  - intros ? ? ?. apply silent_throw.
  - exact IH.
Qed.

Lemma silent_geomToGml (cfg : Config) (geom gmlId : value)
    (params : GmlParams) :
  silent (geomToGml cfg geom gmlId params).
Proof.
  unfold geomToGml. silent_step; [silence |].
  destruct (converter cfg (to_string a)) as [f |] eqn:E; [| silence].
  silent_step; [| silence].
  unfold converter in E.
  eapply (silent_converter_with cfg (GeometryCollection cfg)); [| exact E].
  intros c g p. apply silent_GeometryCollection_n.
Qed.

Lemma silent_tag (ns tagName : value) (attrsObj : obj) (inner : value) :
  silent (tag ns tagName attrsObj inner).
Proof. unfold tag. silence. Qed.

Lemma silent_wfs (tagName : string) (attrsObj : obj) (inner : value) :
  silent (wfs tagName attrsObj inner).
Proof. apply silent_tag. Qed.

#[local] Hint Resolve silent_geomToGml silent_tag silent_wfs : silent.

Lemma silent_array (v : value) : silent (array v).
Proof. unfold array. silence. Qed.

Lemma silent_unpack_arg (feature : value) (params : obj) (arg : string) :
  silent (unpack_arg feature params arg).
Proof. unfold unpack_arg. silence. Qed.

#[local] Hint Resolve silent_array silent_unpack_arg : silent.

Lemma silent_unpack (feature : value) (params : obj) (args : list string) :
  silent (unpack feature params args).
Proof. unfold unpack. silence. Qed.

Lemma silent_typeName (ns layer _typeName : value) :
  silent (typeName ns layer _typeName).
Proof. unfold typeName. silence. Qed.

#[local] Hint Resolve silent_unpack silent_typeName : silent.

Lemma silent_filter (flt : value) (features : list value) (params : obj) :
  silent (filter flt features params).
Proof. unfold filter. silence. Qed.

Lemma silent_useWhitelistIfAvailable {S : Type} (whitelist properties : value)
    (cb : S -> value -> value -> M S) (s : S) :
  (forall s k v, silent (cb s k v)) ->
  silent (useWhitelistIfAvailable whitelist properties cb s).
Proof. intros H. unfold useWhitelistIfAvailable. silence. Qed.

Lemma silent_makeKvp (prop val action : value) :
  silent (makeKvp prop val action).
Proof. unfold makeKvp. silence. Qed.

#[local] Hint Resolve silent_filter silent_makeKvp : silent.

Lemma silent_Update_fields (whitelist properties : value) :
  silent (Update_fields whitelist properties).
Proof.
  unfold Update_fields. apply silent_useWhitelistIfAvailable.
  intros s k v. silence.
Qed.

Lemma silent_feature_fields (cfg : Config) (srsName srsDimension f : value)
    (u : obj) :
  silent (feature_fields cfg srsName srsDimension f u).
Proof.
  unfold feature_fields. silent_step.
  - silence.
  - apply silent_useWhitelistIfAvailable. intros s k v. silence.
Qed.

#[local] Hint Resolve silent_Update_fields silent_feature_fields : silent.

Lemma silent_translateFeatures (cfg : Config) (features : list value)
    (params : obj) :
  silent (translateFeatures cfg features params).
Proof. unfold translateFeatures. silence. Qed.

#[local] Hint Resolve silent_translateFeatures : silent.

(** What [filter] returns is never falsy. *)
Lemma filter_truthy (flt : value) (features : list value) (params : obj)
    (v : value) :
  filter flt features params = ret v -> truthy v = true.
Proof.
  unfold filter. destruct (truthy flt) eqn:E; cbn [negb].
  - intros H. inversion H; subst. exact E.
  - intros H. apply bind_Ret_inv in H.
    destruct H as (s & w1 & w2 & _ & H & _). inversion H. reflexivity.
Qed.

Lemma silent_Update_bulk (cfg : Config) (features : list value)
    (params : obj) :
  silent (Update_bulk cfg features params).
Proof.
  unfold Update_bulk. silent_step; [silence |].
  silent_step; [silence |].
  apply silent_bind_dep; [silence |]. intros flt Hflt.
  rewrite (filter_truthy _ _ _ _ Hflt). cbn [negb andb]. silence.
Qed.

Lemma silent_Update (stack : nat) :
  forall (cfg : Config) (features : value) (params : obj),
    silent (Update stack cfg features params).
Proof.
  induction stack as [| stack IH]; intros cfg features params;
    cbn [Update].
  - silent_step; [silence |]. silent_step; [apply silent_Update_bulk |].
    silence.
  - silent_step; [silence |]. silent_step; [apply silent_Update_bulk |].
    silent_step; [| silence]. apply silent_mapM. intros f. apply IH.
Qed.

(** X11: [Update] never logs a warning: the branch that would log
    [neither features nor filter supplied] asks for a falsy filter, and
    what [filter] returns is never falsy. *)
Theorem Update_never_warns :
  forall (stack : nat) (cfg : Config) (features : value) (params : obj),
    warnings (Update stack cfg features params) = [].
Proof. intros. apply silent_Update. Qed.

Lemma warnings_bind {A B : Type} (m : M A) (f : A -> M B) :
  warnings (bind m f)
  = (warnings m
       ++ match result m with
          | Ret a => warnings (f a)
          | Throw _ => []
          end)%list.
Proof.
  unfold warnings, result. destruct m as [[a | e] w]; simpl.
  - destruct (f a); reflexivity.
  - rewrite app_nil_r. reflexivity.
Qed.

Lemma silent_Delete (features : value) (params : obj) :
  silent (Delete features params).
Proof. unfold Delete. silence. Qed.

Lemma silent_generateNsAssignments (nsAssignments xml : value) :
  silent (generateNsAssignments nsAssignments xml).
Proof. unfold generateNsAssignments. silence. Qed.

Lemma silent_generateSchemaLines (schemaLocations : value) :
  silent (generateSchemaLines schemaLocations).
Proof. unfold generateSchemaLines. silence. Qed.

Lemma silent_transaction_attrs (actions : value) (params : obj) :
  silent (transaction_attrs actions params).
Proof.
  unfold transaction_attrs.
  silent_step; [apply silent_generateNsAssignments |].
  silent_step; [apply silent_generateSchemaLines |]. silence.
Qed.

(** The log of [Insert]: one warning when there is no feature, none
    otherwise. *)
Lemma Insert_warnings (cfg : Config) (features : value) (params : obj) :
  warnings (Insert cfg features params) = []
  \/ (warnings (Insert cfg features params) = ["no features supplied"]
      /\ array features = ret []).
Proof.
  unfold Insert. rewrite warnings_bind.
  pose proof (silent_array features) as Ha. unfold silent in Ha.
  rewrite Ha. cbn [app].
  destruct (array features) as [[fs | e] w] eqn:E; cbn [result fst].
  - destruct fs as [| f fs]; cbn [length Nat.eqb].
    + right. split; [reflexivity |]. cbn [warnings snd] in Ha. subst w.
      reflexivity.
    + left. change (silent (toInsert <- translateFeatures cfg (f :: fs) params ;;
                            tag (VStr "wfs") (VStr "Insert")
                              [("inputFormat", get (VObj params) "inputFormat");
                               ("srsName", get (VObj params) "srsName");
                               ("handle", get (VObj params) "handle")]
                              (VStr toInsert))).
      silence.
  - left. reflexivity.
Qed.

(** X12: the log of [Transaction] is empty, or holds the one warning
    [no features supplied]; it holds it only for a structured bag whose
    [insert] payload comes to no feature at all.  No other warning is ever
    logged. *)
Theorem Transaction_warnings :
  forall (stack : nat) (cfg : Config) (actions : value) (params : obj),
    warnings (Transaction stack cfg actions params) = []
    \/ (warnings (Transaction stack cfg actions params)
        = ["no features supplied"]
        /\ array (get (or_else actions (VObj [])) "insert") = ret []).
Proof.
  intros stack cfg actions params.
  assert (Hrest : forall body : string,
             silent (attrs <- transaction_attrs actions params ;;
                     wfs "Transaction" attrs (VStr body))).
  { intros body. silent_step; [apply silent_transaction_attrs | silence]. }
  assert (Hact :
            warnings (transaction_actions stack cfg actions params) = []
            \/ (warnings (transaction_actions stack cfg actions params)
                = ["no features supplied"]
                /\ array (get (or_else actions (VObj [])) "insert") = ret [])).
  { unfold transaction_actions.
    destruct (is_array actions && every_string actions);
      [left; apply silent_join |].
    destruct (is_string actions); [left; reflexivity |].
    destruct (existsb truthy _); [| left; reflexivity].
    rewrite warnings_bind.
    assert (Htail : forall i : string,
               silent (u <- Update stack cfg
                              (get (or_else actions (VObj [])) "update")
                              params ;;
                       d <- Delete (get (or_else actions (VObj [])) "delete")
                              params ;;
                       ret (i ++ u ++ d))).
    { intros i. silent_step; [apply silent_Update |].
      silent_step; [apply silent_Delete | silence]. }
    destruct (Insert_warnings cfg (get (or_else actions (VObj [])) "insert")
                params) as [Hi | [Hi Harr]]; rewrite Hi.
    - left. destruct (result _); [apply Htail | reflexivity].
    - right. split; [| exact Harr].
      destruct (result _); [rewrite Htail |]; reflexivity. }
  unfold Transaction. rewrite warnings_bind.
  destruct Hact as [Ha | [Ha Harr]]; rewrite Ha.
  - left. destruct (result _); [apply Hrest | reflexivity].
  - right. split; [| exact Harr].
    destruct (result _); [rewrite Hrest |]; reflexivity.
Qed.

(** ** [Update]: one call per feature *)

Lemma array_object (f : obj) :
  truthy (get (VObj f) "features") = false -> array (VObj f) = ret [VObj f].
Proof.
  intros H. unfold array, getM. cbn [is_nullish]. rewrite bind_ret, H.
  reflexivity.
Qed.

(** X13: [Update] on a feature that carries no [properties], with options
    that carry none either, never comes to an end: whatever depth of calls
    the engine allows is used up, and the call ends in a [RangeError]. *)
Theorem Update_without_properties_overflows :
  forall (stack : nat) (cfg : Config) (f params : obj),
    truthy (get (VObj f) "features") = false ->
    truthy (get (VObj f) "properties") = false ->
    truthy (get (VObj params) "properties") = false ->
    Update stack cfg (VObj f) params = throw RangeError.
Proof.
  induction stack as [| stack IH]; intros cfg f params Hfe Hfp Hpp;
    cbn [Update]; rewrite (array_object f Hfe), bind_ret, Hpp; cbn [mapM].
  - reflexivity.
  - rewrite IH; [reflexivity | exact Hfe | exact Hfp |].
    rewrite get_set, String.eqb_refl. exact Hfp.
Qed.

Lemma Update_without_properties_overflows_witness :
  truthy (get (VObj [("id", VStr "1")]) "features") = false
  /\ truthy (get (VObj [("id", VStr "1")]) "properties") = false
  /\ truthy (get (VObj tiger_poi) "properties") = false
  /\ Update 40 config (VObj [("id", VStr "1")]) tiger_poi
     = throw RangeError.
Proof.
  repeat (split; [reflexivity |]).
  exact (Update_without_properties_overflows 40 config
           [("id", VStr "1")] tiger_poi eq_refl eq_refl eq_refl).
Defined.

Lemma array_of_truthy (fs : list value) :
  Forall (fun f => truthy f = true) fs -> array (VArr fs) = ret fs.
Proof.
  intros Ht. unfold array, getM. cbn [is_nullish].
  rewrite bind_ret, (get_array_name fs "f" "eatures") by reflexivity.
  cbn [truthy]. rewrite bind_ret, (filter_all _ _ Ht). reflexivity.
Qed.

(** X14: without [params.properties], and with calls to spare, [Update] on
    a list of features is the concatenation of one bulk update per feature,
    each taking the feature's own [properties] as the bulk properties and
    the feature alone as its feature list. *)
Theorem Update_per_feature :
  forall (stack : nat) (cfg : Config) (fs : list obj) (params : obj),
    truthy (get (VObj params) "properties") = false ->
    Forall (fun f => truthy (get (VObj f) "features") = false
                     /\ truthy (get (VObj f) "properties") = true) fs ->
    Update (S stack) cfg (VArr (map VObj fs)) params
    = (parts <-
         mapM (fun f =>
                 Update_bulk cfg [VObj f]
                   (set params "properties" (get (VObj f) "properties")))
           fs ;;
       ret (String.concat "" parts)).
Proof.
  intros stack cfg fs params Hp Hfs. cbn [Update].
  rewrite array_of_truthy
    by (apply Forall_forall; intros f Hf; apply in_map_iff in Hf;
        destruct Hf as (o & <- & _); reflexivity).
  rewrite bind_ret, Hp. apply (f_equal (fun m => bind m _)).
  induction Hfs as [| f fs [Hfe Hfp] _ IH]; [reflexivity |].
  cbn [map mapM]. rewrite IH. apply (f_equal (fun m => bind m _)).
  destruct stack; cbn [Update];
    rewrite (array_object f Hfe), bind_ret, get_set, String.eqb_refl, Hfp;
    reflexivity.
Qed.

Lemma Update_per_feature_witness :
  truthy (get (VObj tiger_poi) "properties") = false
  /\ Forall (fun f => truthy (get (VObj f) "features") = false
                      /\ truthy (get (VObj f) "properties") = true)
       [[("id", VStr "1"); ("properties", VObj [("name", VStr "a")])];
        [("id", VStr "2"); ("properties", VObj [("name", VStr "b")])]]
  /\ Update 1 config
       (VArr (map VObj
                [[("id", VStr "1"); ("properties", VObj [("name", VStr "a")])];
                 [("id", VStr "2");
                  ("properties", VObj [("name", VStr "b")])]]))
       tiger_poi
     = (parts <-
          mapM (fun f =>
                  Update_bulk config [VObj f]
                    (set tiger_poi "properties" (get (VObj f) "properties")))
            [[("id", VStr "1"); ("properties", VObj [("name", VStr "a")])];
             [("id", VStr "2"); ("properties", VObj [("name", VStr "b")])]] ;;
        ret (String.concat "" parts)).
Proof.
  assert (H : Forall (fun f => truthy (get (VObj f) "features") = false
                               /\ truthy (get (VObj f) "properties") = true)
                [[("id", VStr "1");
                  ("properties", VObj [("name", VStr "a")])];
                 [("id", VStr "2");
                  ("properties", VObj [("name", VStr "b")])]])
    by (repeat constructor).
  split; [reflexivity |]. split; [exact H |].
  exact (Update_per_feature 0 config _ tiger_poi eq_refl H).
Defined.

(** ** [Delete] and [Replace] *)

Lemma filter_returns (flt : value) (features : list value) (params : obj) :
  Forall (fun f => truthy f = true) features ->
  filter flt features params = ret (filter_result flt features).
Proof.
  intros Ht. unfold filter_result. destruct (truthy flt) eqn:E.
  - apply filter_explicit, E.
  - assert (Hn : Forall (fun f => is_nullish f = false) features).
    { eapply Forall_impl; [| exact Ht]. intros f. apply truthy_not_nullish. }
    unfold filter. rewrite E. cbn [negb].
    rewrite (filter_loop features params Hn ""), bind_ret. reflexivity.
Qed.

Lemma first_feature_not_nullish (features : list value) :
  is_nullish (first_feature features) = false.
Proof.
  unfold first_feature, or_else.
  destruct (truthy (get (VArr features) "0")) eqn:E; [| reflexivity].
  apply truthy_not_nullish, E.
Qed.

Lemma filter_result_not_null (flt : value) (features : list value) :
  is_null (filter_result flt features) = false.
Proof.
  unfold filter_result. destruct (truthy flt) eqn:E; [| reflexivity].
  destruct flt; try reflexivity. discriminate E.
Qed.

(** What [Delete] does once [array] has returned. *)
Lemma Delete_after_array (features : value) (params : obj)
    (fs : list value) :
  array features = ret fs ->
  Delete features params
  = (typeName__1 <-
       typeName (resolve (first_feature fs) params "ns")
         (resolve (first_feature fs) params "layer")
         (get (VObj params) "typeName") ;;
     ret ("<wfs:Delete" ++ attrs_1 [("typeName", typeName__1)] ++ ">"
            ++ to_string (filter_result (get (VObj params) "filter") fs)
            ++ "</wfs:Delete>")).
Proof.
  intros Ha. unfold Delete. rewrite Ha, bind_ret.
  destruct (unpack_resolve (first_feature fs) params ["layer"; "ns"]
              (first_feature_not_nullish fs)) as (u & Hu & Hget).
  fold (first_feature fs). rewrite Hu, bind_ret.
  rewrite (Hget "ns"), (Hget "layer"). cbn [has existsb String.eqb Ascii.eqb Bool.eqb orb].
  apply bind_ext. intros tn.
  rewrite filter_returns
    by (apply Forall_forall; intros f Hf; exact (array_truthy _ _ _ Ha Hf)).
  rewrite bind_ret. unfold wfs, tag. cbn [truthy String.eqb negb].
  rewrite filter_result_not_null. cbn [to_string].
  repeat (rewrite ?append_assoc; cbn [String.append]). reflexivity.
Qed.

(** X15: [Delete] takes its type name from the options' [typeName], or
    else from the namespace and layer resolved on the first feature alone;
    with neither it raises [no typename possible].  Otherwise it returns
    one [wfs:Delete] whose filter is the explicit one or names every
    feature. *)
Theorem Delete_result :
  forall (features : value) (params : obj) (fs : list value),
    array features = ret fs ->
    let ns := resolve (first_feature fs) params "ns" in
    let layer := resolve (first_feature fs) params "layer" in
    let explicit := get (VObj params) "typeName" in
    (truthy explicit = false -> truthy ns && truthy layer = false ->
     Delete features params
     = throw (ErrorJSON "no typename possible: "
                (VObj [("typeName", explicit); ("ns", ns);
                       ("layer", layer)])))
    /\ (truthy explicit = true \/ truthy ns && truthy layer = true ->
        Delete features params
        = ret ("<wfs:Delete"
                 ++ attrs_1 [("typeName",
                              or_else explicit (derived_typeName ns layer))]
                 ++ ">"
                 ++ to_string
                      (filter_result (get (VObj params) "filter") fs)
                 ++ "</wfs:Delete>")).
Proof.
  intros features params fs Ha ns layer explicit.
  rewrite (Delete_after_array features params fs Ha).
  fold ns layer explicit. unfold typeName. split.
  - intros He Hnl. rewrite He, Hnl. reflexivity.
  - intros H.
    assert (E : negb (truthy explicit) && negb (truthy ns && truthy layer)
                = false).
    { destruct H as [-> | ->]; [reflexivity | apply andb_false_r]. }
    rewrite E, bind_ret. reflexivity.
Qed.

Lemma Delete_result_witness :
  array (VArr road_and_river) = ret road_and_river
  /\ Delete (VArr road_and_river) []
     = ret ("<wfs:Delete typeName=" ++ dq ++ "topp:roadsType" ++ dq ++ ">"
              ++ "<fes:Filter><fes:ResourceId rid=" ++ dq
              ++ "[object Object].5" ++ dq ++ "/><fes:ResourceId rid=" ++ dq
              ++ "[object Object].6" ++ dq ++ "/></fes:Filter></wfs:Delete>")
  /\ Delete (VArr road_and_river) [("ns", VStr ""); ("layer", VNull)]
     = ret ("<wfs:Delete typeName=" ++ dq ++ "topp:roadsType" ++ dq ++ ">"
              ++ "<fes:Filter><fes:ResourceId rid=" ++ dq
              ++ "[object Object].5" ++ dq ++ "/><fes:ResourceId rid=" ++ dq
              ++ "[object Object].6" ++ dq ++ "/></fes:Filter></wfs:Delete>")
  /\ Delete (VArr [VObj [("id", VStr "5")]]) []
     = throw (ErrorJSON "no typename possible: "
                (VObj [("typeName", VUndef); ("ns", VStr "");
                       ("layer", VStr "")])).
Proof.
  assert (Ha : array (VArr road_and_river) = ret road_and_river)
    by reflexivity.
  split; [exact Ha |]. split; [| split].
  - apply (proj2 (Delete_result (VArr road_and_river) [] road_and_river Ha)).
    right. reflexivity.
  - apply (proj2 (Delete_result (VArr road_and_river)
                    [("ns", VStr ""); ("layer", VNull)] road_and_river Ha)).
    right. reflexivity.
  - apply (proj1 (Delete_result (VArr [VObj [("id", VStr "5")]]) []
                    [VObj [("id", VStr "5")]] eq_refl)); reflexivity.
Defined.

(** X16: [Delete] on an empty list of features, with a type name that the
    options give, raises nothing and logs nothing: it returns a
    [wfs:Delete] whose [fes:Filter] is empty. *)
Theorem Delete_no_features :
  forall params : obj,
    truthy (get (VObj params) "filter") = false ->
    truthy (get (VObj params) "typeName") = true ->
    Delete (VArr []) params
    = ret ("<wfs:Delete"
             ++ attrs_1 [("typeName", get (VObj params) "typeName")] ++ ">"
             ++ "<fes:Filter></fes:Filter>" ++ "</wfs:Delete>").
Proof.
  intros params Hf Ht.
  rewrite (Delete_after_array (VArr []) params [] eq_refl).
  unfold typeName. rewrite Ht. cbn [negb andb]. rewrite bind_ret.
  unfold or_else, filter_result. rewrite Ht, Hf. reflexivity.
Qed.

Lemma Delete_no_features_witness :
  truthy (get (VObj [("typeName", VStr "topp:roadsType")]) "filter") = false
  /\ truthy (get (VObj [("typeName", VStr "topp:roadsType")]) "typeName")
     = true
  /\ Delete (VArr []) [("typeName", VStr "topp:roadsType")]
     = ret ("<wfs:Delete typeName=" ++ dq ++ "topp:roadsType" ++ dq ++ ">"
              ++ "<fes:Filter></fes:Filter></wfs:Delete>").
Proof.
  repeat (split; [reflexivity |]).
  exact (Delete_no_features [("typeName", VStr "topp:roadsType")]
           eq_refl eq_refl).
Defined.

(** X17: [Replace] translates the first feature only; the further features
    reach the result through the filter alone, which is the [filter]
    setting of the first feature or of the options, or else names every
    feature.  (The first feature is not itself an array: on an array the
    source finds [Array.prototype.filter] under [filter].) *)
Theorem Replace_first_feature_only :
  forall (cfg : Config) (f : value) (rest : list value) (params : obj)
         (replacements : string) (w : list string),
    Forall (fun x => truthy x = true) (f :: rest) ->
    is_array f = false ->
    translateFeatures cfg [f] params = (Ret replacements, w) ->
    Replace cfg (VArr (f :: rest)) params
    = (Ret ("<wfs:Replace"
              ++ attrs_1 [("inputFormat", resolve f params "inputFormat");
                          ("srsName", resolve f params "srsName")]
              ++ ">" ++ replacements
              ++ to_string
                   (filter_result (resolve f params "filter") (f :: rest))
              ++ "</wfs:Replace>"),
       w).
Proof.
  intros cfg f rest params replacements w Ht _ Htr.
  assert (Hf : truthy f = true) by (inversion Ht; assumption).
  unfold Replace. rewrite (array_of_truthy _ Ht), bind_ret.
  change (get (VArr (f :: rest)) "0") with f.
  assert (Eo : or_else f (VObj []) = f) by (unfold or_else; rewrite Hf; reflexivity).
  rewrite Eo.
  destruct (unpack_resolve f params ["filter"; "inputFormat"; "srsName"]
              (truthy_not_nullish f Hf)) as (u & Hu & Hget).
  rewrite Hu, bind_ret. cbn [List.filter]. rewrite Hf, Htr.
  rewrite (Hget "filter"), (Hget "inputFormat"), (Hget "srsName").
  cbn [has existsb String.eqb Ascii.eqb Bool.eqb orb].
  rewrite (filter_returns _ _ params Ht).
  unfold wfs, tag, ret, bind. cbn [truthy String.eqb negb is_null to_string].
  rewrite app_nil_r. do 2 f_equal.
  repeat (rewrite ?append_assoc; cbn [String.append]). reflexivity.
Qed.

Lemma Replace_first_feature_only_witness :
  Forall (fun x => truthy x = true) road_and_river
  /\ exists replacements,
       translateFeatures config [VObj [("id", VStr "5");
                                       ("layer", VStr "roads");
                                       ("ns", VStr "topp")]] []
       = (Ret replacements, [])
       /\ contains "rivers" replacements = false
       /\ Replace config (VArr road_and_river) []
          = (Ret ("<wfs:Replace>" ++ replacements
                    ++ "<fes:Filter><fes:ResourceId rid=" ++ dq
                    ++ "[object Object].5" ++ dq ++ "/><fes:ResourceId rid="
                    ++ dq ++ "[object Object].6" ++ dq
                    ++ "/></fes:Filter></wfs:Replace>"),
             []).
Proof.
  assert (Ht : Forall (fun x => truthy x = true) road_and_river)
    by (repeat constructor).
  split; [exact Ht |].
  exists ("<topp:roads gml:id=" ++ dq ++ "roads.5" ++ dq ++ "></topp:roads>").
  assert (Htr : translateFeatures config
                  [VObj [("id", VStr "5"); ("layer", VStr "roads");
                         ("ns", VStr "topp")]] []
                = (Ret ("<topp:roads gml:id=" ++ dq ++ "roads.5" ++ dq
                          ++ "></topp:roads>"), []))
    by reflexivity.
  split; [exact Htr |]. split; [reflexivity |].
  exact (Replace_first_feature_only config _ _ [] _ [] Ht eq_refl Htr).
Defined.

(** ** [generateSchemaLines] *)

Lemma set_set (o : obj) (k : string) (v v' : value) :
  set (set o k v) k v' = set o k v'.
Proof.
  induction o as [| [k0 v0] o IH]; simpl.
  - rewrite String.eqb_refl. reflexivity.
  - destruct (k0 =? k) eqn:E; simpl.
    + rewrite String.eqb_refl. reflexivity.
    + rewrite E, IH. reflexivity.
Qed.

Lemma In_set (o : obj) (k : string) (v : value) : In (k, v) (set o k v).
Proof.
  induction o as [| [k0 v0] o IH]; simpl; [auto |].
  destruct (k0 =? k); simpl; auto.
Qed.

Lemma join_strings_In (sep x : string) (l : list string) :
  In x l -> exists pre post, join_strings sep l = pre ++ x ++ post.
Proof.
  induction l as [| y l IH]; [contradiction |].
  intros [-> | H].
  - destruct l as [| z l].
    + exists "", "". cbn. rewrite append_empty_r. reflexivity.
    + exists "", (sep ++ join_strings sep (z :: l)). reflexivity.
  - destruct (IH H) as (pre & post & E).
    destruct l as [| z l]; [contradiction |].
    exists (y ++ sep ++ pre), post.
    rewrite join_strings_cons by discriminate. rewrite E.
    rewrite !append_assoc. reflexivity.
Qed.

(** X18: for an object of schema locations, [generateSchemaLines] always
    returns, its text holds the line of the default WFS 2.0 location, and
    an entry of the caller for that namespace has no effect. *)
Theorem generateSchemaLines_default_wins :
  forall (o : obj) (v : value),
    (exists pre post,
       generateSchemaLines (VObj o) = ret (pre ++ wfs_schema_line ++ post))
    /\ generateSchemaLines (VObj (set o wfs_uri v))
       = generateSchemaLines (VObj o).
Proof.
  intros o v. split.
  - unfold generateSchemaLines. rewrite bind_ret.
    destruct (join_strings_In nl wfs_schema_line
                (map (fun '(k, v0) => join_strings nl [k; elt_to_string v0])
                   (set o wfs_uri (VStr wfs_xsd))))
      as (pre & post & E).
    + apply in_map_iff. exists (wfs_uri, VStr wfs_xsd).
      split; [reflexivity | apply In_set].
    + exists pre, post. unfold wfs_uri, wfs_xsd in E |- *. rewrite E.
      reflexivity.
  - unfold generateSchemaLines. unfold wfs_uri. rewrite set_set.
    reflexivity.
Qed.

(** ** [Transaction]: the envelope *)

Lemma transaction_namespaces (params : obj) :
  absent_or_object (get (VObj params) "nsAssignments") = true ->
  match get (VObj params) "nsAssignments" with
  | VUndef => VObj []
  | v => v
  end = VObj (declared_namespaces params).
Proof.
  unfold declared_namespaces.
  destruct (get (VObj params) "nsAssignments"); try discriminate; reflexivity.
Qed.

Lemma generateSchemaLines_returns (v : value) :
  absent_or_object v = true -> exists s, generateSchemaLines v = ret s.
Proof.
  destruct v; try discriminate; intros _; unfold generateSchemaLines;
    rewrite bind_ret; eauto.
Qed.

Lemma generateNsAssignments_returns (declared : obj) (xml : value) :
  (forall ns, In ns (discovered (to_string xml)) ->
     truthy (uri_after_defaults declared (discovered (to_string xml)) ns)
     = true) ->
  exists attrs,
    generateNsAssignments (VObj declared) xml = ret attrs
    /\ forall ns,
         get (VObj attrs) ("xmlns:" ++ ns)
         = uri_after_defaults declared (discovered (to_string xml)) ns.
Proof.
  intros Hall. unfold generateNsAssignments. cbn [Object_keys].
  rewrite bind_ret. fold (discovered (to_string xml)).
  eexists. split.
  - rewrite ns_check_passes; [rewrite bind_ret; reflexivity |].
    intros ns Hin. rewrite ns_attrs_lookup. apply Hall, Hin.
  - intros ns. apply ns_attrs_lookup.
Qed.

Lemma generateNsAssignments_fails (declared : obj) (xml : value) :
  (exists ns, In ns (discovered (to_string xml))
              /\ truthy (uri_after_defaults declared
                           (discovered (to_string xml)) ns) = false) ->
  exists missing,
    In missing (discovered (to_string xml))
    /\ generateNsAssignments (VObj declared) xml
       = throw (Error ("unassigned namespace " ++ missing)).
Proof.
  intros (bad & Hin & Hbad). unfold generateNsAssignments.
  cbn [Object_keys]. rewrite bind_ret. fold (discovered (to_string xml)).
  edestruct ns_check_fails as (m & Hm & _ & Hr);
    [exists bad; split; [exact Hin | rewrite ns_attrs_lookup; exact Hbad] |].
  exists m. split; [exact Hm |]. rewrite Hr. reflexivity.
Qed.

Lemma wfs_Transaction_text (attrs : obj) (body : string) :
  wfs "Transaction" attrs (VStr body) = ret (transaction_element attrs body).
Proof.
  unfold wfs, tag, transaction_element. cbn [truthy String.eqb negb is_null].
  unfold ret. do 2 f_equal. cbn [to_string].
  repeat (rewrite ?append_assoc; cbn [String.append]). reflexivity.
Qed.

(** The attributes [Transaction] adds leave the namespace declarations as
    [generateNsAssignments] made them. *)
Lemma transaction_attrs_xmlns (actions : value) (params a attrs : obj)
    (ns : string) :
  generateNsAssignments
    match get (VObj params) "nsAssignments" with
    | VUndef => VObj []
    | v => v
    end actions = ret a ->
  transaction_attrs actions params = ret attrs ->
  get (VObj attrs) ("xmlns:" ++ ns) = get (VObj a) ("xmlns:" ++ ns).
Proof.
  intros Ha H. unfold transaction_attrs in H. rewrite Ha, bind_ret in H.
  apply bind_Ret_inv in H. destruct H as (sl & w3 & w4 & _ & H & _).
  inversion H; subst. clear H. cbn [fold_left].
  repeat match goal with
  | |- context [if ?c then _ else _] => destruct c
  end;
  repeat (rewrite get_set;
          cbn [String.eqb Ascii.eqb Bool.eqb String.append]);
  reflexivity.
Qed.

(** [Transaction] once its actions are there and the namespace check
    passes. *)
Lemma Transaction_returns_with (stack : nat) (cfg : Config) (actions : value)
    (params : obj) (body : string) (w : list string) :
  transaction_actions stack cfg actions params = (Ret body, w) ->
  absent_or_object (get (VObj params) "nsAssignments") = true ->
  absent_or_object (get (VObj params) "schemaLocations") = true ->
  (forall ns, In ns (discovered (to_string actions)) ->
     truthy (uri_after_defaults (declared_namespaces params)
               (discovered (to_string actions)) ns) = true) ->
  exists attrs,
    Transaction stack cfg actions params
    = (Ret (transaction_element attrs body), w)
    /\ forall ns,
         get (VObj attrs) ("xmlns:" ++ ns)
         = uri_after_defaults (declared_namespaces params)
             (discovered (to_string actions)) ns.
Proof.
  intros Hact Hns Hsl Hall. unfold Transaction. rewrite Hact.
  destruct (generateNsAssignments_returns _ actions Hall) as (a & Ha & Hget).
  rewrite <- (transaction_namespaces params Hns) in Ha.
  destruct (generateSchemaLines_returns _ Hsl) as (sl & Hsl').
  destruct (transaction_attrs actions params) as [[attrs | e] w'] eqn:E.
  - assert (Hw : w' = []).
    { pose proof (silent_transaction_attrs actions params) as Hs.
      unfold silent in Hs. rewrite E in Hs. exact Hs. }
    subst w'. exists attrs. split.
    + cbn [bind]. rewrite wfs_Transaction_text. cbn [ret].
      rewrite !app_nil_r. reflexivity.
    + intros ns. rewrite (transaction_attrs_xmlns _ _ _ _ ns Ha E).
      apply Hget.
  - exfalso. unfold transaction_attrs in E.
    rewrite Ha, bind_ret, Hsl', bind_ret in E. discriminate E.
Qed.

(** X19: once the actions of a [Transaction] are assembled, the namespace
    check decides: when every prefix discovered in the text of the
    [actions] argument has a URI, the call returns the [wfs:Transaction]
    element around the assembled actions, unescaped; when one has none, it
    raises [unassigned namespace] with such a prefix. *)
Theorem Transaction_envelope :
  forall (stack : nat) (cfg : Config) (actions : value) (params : obj)
         (body : string) (w : list string),
    transaction_actions stack cfg actions params = (Ret body, w) ->
    absent_or_object (get (VObj params) "nsAssignments") = true ->
    absent_or_object (get (VObj params) "schemaLocations") = true ->
    let found := discovered (to_string actions) in
    let uri := uri_after_defaults (declared_namespaces params) found in
    ((forall ns, In ns found -> truthy (uri ns) = true) ->
     exists attrs,
       Transaction stack cfg actions params
       = (Ret (transaction_element attrs body), w)
       /\ forall ns, get (VObj attrs) ("xmlns:" ++ ns) = uri ns)
    /\ ((exists ns, In ns found /\ truthy (uri ns) = false) ->
        exists missing,
          In missing found
          /\ Transaction stack cfg actions params
             = (Throw (Error ("unassigned namespace " ++ missing)), w)).
Proof.
  intros stack cfg actions params body w Hact Hns Hsl found uri. split.
  - intros Hall.
    exact (Transaction_returns_with stack cfg actions params body w
             Hact Hns Hsl Hall).
  - intros Hbad.
    destruct (generateNsAssignments_fails _ actions Hbad) as (m & Hm & Hr).
    exists m. split; [exact Hm |].
    unfold Transaction. rewrite Hact. unfold transaction_attrs.
    rewrite (transaction_namespaces params Hns), Hr. cbn [bind throw].
    rewrite app_nil_r. reflexivity.
Qed.

Lemma Transaction_envelope_witness :
  exists attrs,
    Transaction 0 config (VArr [VStr "<wfs:Delete/>"; VStr "<topp:a/>"])
      [("nsAssignments", VObj [("topp", VStr "urn:topp")])]
    = (Ret (transaction_element attrs "<wfs:Delete/><topp:a/>"), [])
    /\ forall ns,
         get (VObj attrs) ("xmlns:" ++ ns)
         = uri_after_defaults [("topp", VStr "urn:topp")] ["wfs"; "topp"] ns.
Proof.
  assert (F : discovered
                (to_string (VArr [VStr "<wfs:Delete/>"; VStr "<topp:a/>"]))
              = ["wfs"; "topp"]) by (vm_compute; reflexivity).
  pose proof (proj1 (Transaction_envelope 0 config
                       (VArr [VStr "<wfs:Delete/>"; VStr "<topp:a/>"])
                       [("nsAssignments", VObj [("topp", VStr "urn:topp")])]
                       "<wfs:Delete/><topp:a/>" [] eq_refl eq_refl eq_refl))
    as H.
  cbv zeta in H. rewrite F in H. apply H.
  intros ns [<- | [<- | []]]; vm_compute; reflexivity.
Defined.

(** X20: for a structured bag the namespace check is empty: once the three
    builders have returned, [Transaction] returns, whatever prefixes the
    assembled actions use and whatever the caller declared. *)
Theorem Transaction_bag_prefixes_unchecked :
  forall (stack : nat) (cfg : Config) (bag params : obj) (body : string)
         (w : list string),
    transaction_actions stack cfg (VObj bag) params = (Ret body, w) ->
    absent_or_object (get (VObj params) "nsAssignments") = true ->
    absent_or_object (get (VObj params) "schemaLocations") = true ->
    discovered (to_string (VObj bag)) = []
    /\ exists attrs,
         Transaction stack cfg (VObj bag) params
         = (Ret (transaction_element attrs body), w)
         /\ forall ns,
              get (VObj attrs) ("xmlns:" ++ ns)
              = uri_after_defaults (declared_namespaces params) [] ns.
Proof.
  intros stack cfg bag params body w Hact Hns Hsl.
  assert (F : discovered (to_string (VObj bag)) = [])
    by (vm_compute; reflexivity).
  split; [exact F |].
  destruct (Transaction_returns_with stack cfg (VObj bag) params body w
              Hact Hns Hsl) as (attrs & Ht & Hget).
  - rewrite F. intros ns [].
  - exists attrs. split; [exact Ht |]. intros ns. rewrite Hget, F.
    reflexivity.
Qed.

Lemma Transaction_bag_prefixes_unchecked_witness :
  exists body attrs,
    Transaction 2 config
      (VObj [("insert", poi_feature); ("update", poi_feature);
             ("delete", poi_feature)])
      tiger_poi
    = (Ret (transaction_element attrs body), [])
    /\ contains "<tiger:poi" body = true
    /\ get (VObj attrs) "xmlns:tiger" = VUndef.
Proof.
  destruct (transaction_actions 2 config
              (VObj [("insert", poi_feature); ("update", poi_feature);
                     ("delete", poi_feature)]) tiger_poi)
    as [[body | e] w] eqn:E; [| vm_compute in E; discriminate E].
  destruct (Transaction_bag_prefixes_unchecked 2 config _ tiger_poi body w
              E eq_refl eq_refl) as (_ & attrs & Ht & Hget).
  vm_compute in E. inversion E; subst body w. clear E.
  eexists. exists attrs. split; [exact Ht |].
  split; [vm_compute; reflexivity |]. exact (Hget "tiger").
Defined.



(** ** [Transaction]: attributes and rejected input *)

Lemma xmlns_keys_set (o : obj) (ns : string) (v : value) (k : string) :
  (forall ns', k <> "xmlns:" ++ ns') ->
  lookup o k = None -> lookup (set o ("xmlns:" ++ ns) v) k = None.
Proof.
  intros Hk Ho. rewrite lookup_set.
  destruct ("xmlns:" ++ ns =? k) eqn:E; [| exact Ho].
  apply String.eqb_eq in E. exfalso. apply (Hk ns). symmetry. exact E.
Qed.

Lemma xmlns_keys_fold (nsAssignments : value) (ks : list string) (k : string) :
  (forall ns', k <> "xmlns:" ++ ns') ->
  forall acc,
    lookup acc k = None ->
    lookup (fold_left
              (fun attrs ns => set attrs ("xmlns:" ++ ns) (get nsAssignments ns))
              ks acc) k = None.
Proof.
  intros Hk. induction ks as [| ns ks IH]; intros acc Ha; [exact Ha |].
  cbn [fold_left]. apply IH, xmlns_keys_set; assumption.
Qed.

(** The object [generateNsAssignments] returns holds [xmlns:] keys only. *)
Lemma generateNsAssignments_keys (nsAssignments xml : value) (a : obj)
    (k : string) :
  generateNsAssignments nsAssignments xml = ret a ->
  (forall ns', k <> "xmlns:" ++ ns') ->
  get (VObj a) k = VUndef.
Proof.
  intros H Hk. unfold generateNsAssignments in H.
  apply bind_Ret_inv in H. destruct H as (ks & w1 & w2 & _ & H & _).
  apply bind_Ret_inv in H. destruct H as (u & w3 & w4 & _ & H & _).
  inversion H; subst. clear H. cbn [get].
  match goal with
  | |- match lookup ?o k with _ => _ end = _ =>
      assert (L : lookup o k = None); [| rewrite L; reflexivity]
  end.
  apply (xmlns_keys_set _ "wfs" _ k Hk).
  apply (xmlns_keys_set _ "gml" _ k Hk).
  apply (xmlns_keys_set _ "xsi" _ k Hk).
  destruct (has _ "fes");
    [apply (xmlns_keys_set _ "fes" _ k Hk) |];
    apply xmlns_keys_fold; auto.
Qed.

(** X21: the attribute object of [wfs:Transaction] has [service] set to
    [WFS], and holds each of [srsName], [lockId], [releaseAction] and
    [handle] exactly when the options give it a truthy value, with that
    value. *)
Theorem Transaction_optional_attributes :
  forall (actions : value) (params attrs : obj),
    transaction_attrs actions params = ret attrs ->
    get (VObj attrs) "service" = VStr "WFS"
    /\ forall p, In p transactionParams ->
         get (VObj attrs) p
         = if truthy (get (VObj params) p) then get (VObj params) p
           else VUndef.
Proof.
  intros actions params attrs H. unfold transaction_attrs in H.
  apply bind_Ret_inv in H. destruct H as (a & w1 & w2 & Ha & H & Hw).
  assert (Hw1 : w1 = []).
  { pose proof (silent_generateNsAssignments
                  match get (VObj params) "nsAssignments" with
                  | VUndef => VObj []
                  | v => v
                  end actions) as Hs.
    unfold silent in Hs. rewrite Ha in Hs. exact Hs. }
  subst w1.
  apply bind_Ret_inv in H. destruct H as (sl & w3 & w4 & _ & H & _).
  unfold ret in H. injection H as Hattrs _. subst attrs.
  assert (Hbase : forall k, (forall ns', k <> "xmlns:" ++ ns') ->
                            get (VObj a) k = VUndef).
  { intros k Hk. exact (generateNsAssignments_keys _ _ a k Ha Hk). }
  split; [| intros p Hp; unfold transactionParams in Hp;
            destruct Hp as [<- | [<- | [<- | [<- | []]]]]];
    cbn [fold_left get];
    repeat match goal with
    | |- context [if ?c then _ else _] => destruct c
    end;
    repeat (rewrite lookup_set; cbn [String.eqb Ascii.eqb Bool.eqb]);
    try reflexivity;
    apply Hbase; intros ns' E; discriminate E.
Qed.

Lemma Transaction_optional_attributes_witness :
  exists attrs,
    transaction_attrs (VStr "")
      [("srsName", VStr "EPSG:4326"); ("lockId", VStr "");
       ("handle", VStr "h1")] = ret attrs
    /\ get (VObj attrs) "service" = VStr "WFS"
    /\ get (VObj attrs) "srsName" = VStr "EPSG:4326"
    /\ get (VObj attrs) "lockId" = VUndef
    /\ get (VObj attrs) "releaseAction" = VUndef
    /\ get (VObj attrs) "handle" = VStr "h1".
Proof.
  destruct (transaction_attrs (VStr "")
              [("srsName", VStr "EPSG:4326"); ("lockId", VStr "");
               ("handle", VStr "h1")]) as [[attrs | e] w] eqn:E;
    [| vm_compute in E; discriminate E].
  assert (Hw : w = []) by (vm_compute in E; inversion E; reflexivity).
  subst w. exists attrs. split; [reflexivity |].
  destruct (Transaction_optional_attributes _ _ _ E) as [Hs Hp].
  split; [exact Hs |].
  split; [exact (Hp "srsName" (or_introl eq_refl)) |].
  split; [exact (Hp "lockId" (or_intror (or_introl eq_refl))) |].
  split;
    [exact (Hp "releaseAction"
              (or_intror (or_intror (or_introl eq_refl)))) |].
  exact (Hp "handle"
           (or_intror (or_intror (or_intror (or_introl eq_refl))))).
Defined.

(** X22: [Transaction] rejects, with the error [unexpected input] and the
    JSON text of the argument, every [actions] argument that is neither a
    string, nor an array all of whose elements are strings, nor an object
    with a truthy [insert], [update] or [delete]: so [undefined], [null],
    numbers, booleans, and an array with a single element that is not a
    string. *)
Theorem Transaction_unexpected_input :
  forall (stack : nat) (cfg : Config) (actions : value) (params : obj),
    is_string actions = false ->
    every_string actions = false ->
    (forall bag, actions = VObj bag ->
       existsb truthy [get actions "insert"; get actions "update";
                       get actions "delete"] = false) ->
    Transaction stack cfg actions params
    = throw (ErrorJSON "unexpected input: " actions).
Proof.
  intros stack cfg actions params Hs He Hb.
  unfold Transaction, transaction_actions. rewrite Hs, He, andb_false_r.
  assert (E : existsb truthy
                [get (or_else actions (VObj [])) "insert";
                 get (or_else actions (VObj [])) "update";
                 get (or_else actions (VObj [])) "delete"] = false).
  { destruct actions as [| | b | n | m e | | s | l | o | msg];
      try discriminate Hs; unfold or_else.
    - reflexivity.
    - reflexivity.
    - destruct (truthy (VBool b)); reflexivity.
    - destruct (truthy (VNum n)); reflexivity.
    - destruct (truthy (VDec m e)); reflexivity.
    - reflexivity.
    - cbn [truthy]. rewrite !get_array_name by reflexivity. reflexivity.
    - cbn [truthy]. exact (Hb o eq_refl).
    - reflexivity. }
  rewrite E. reflexivity.
Qed.

Lemma Transaction_unexpected_input_witness :
  Transaction 0 config (VArr [VStr "<wfs:Delete/>"; VNum 7]) []
  = throw (ErrorJSON "unexpected input: "
             (VArr [VStr "<wfs:Delete/>"; VNum 7]))
  /\ Transaction 0 config (VObj [("insert", VStr "")]) []
     = throw (ErrorJSON "unexpected input: " (VObj [("insert", VStr "")])).
Proof.
  split.
  - apply (Transaction_unexpected_input 0 config
             (VArr [VStr "<wfs:Delete/>"; VNum 7]) []);
      [reflexivity | reflexivity | intros bag E; discriminate E].
  - apply (Transaction_unexpected_input 0 config
             (VObj [("insert", VStr "")]) []);
      [reflexivity | reflexivity | intros bag E; reflexivity].
Defined.

(** ** [translateFeatures] *)




(** A loop whose body appends to the accumulator can start from the empty
    string. *)
Lemma foldM_appending {A : Type} (body : A -> M string) (l : list A) :
  forall acc,
    foldM (fun acc x => t <- body x ;; ret (acc ++ t)) l acc
    = (r <- foldM (fun acc x => t <- body x ;; ret (acc ++ t)) l "" ;;
       ret (acc ++ r)).
Proof.
  induction l as [| x l IH]; intros acc.
  - cbn [foldM]. rewrite bind_ret, append_empty_r. reflexivity.
  - cbn [foldM]. rewrite !bind_assoc. apply bind_ext. intros t.
    rewrite !bind_ret. rewrite (IH (acc ++ t)), (IH ("" ++ t)).
    rewrite bind_assoc. apply bind_ext. intros r. rewrite bind_ret.
    cbn [String.append]. rewrite append_assoc. reflexivity.
Qed.

Lemma translateFeatures_appending (cfg : Config) (features : list value)
    (params : obj) (acc : string) :
  foldM
    (fun inner feature =>
       u <- unpack feature params
              ["ns"; "layer"; "geometry_name"; "properties"; "id";
               "whitelist"] ;;
       fields <- feature_fields cfg (get (VObj params) "srsName")
                   (get (VObj params) "srsDimension") feature u ;;
       t <- tag (get (VObj u) "ns") (get (VObj u) "layer")
              [("gml:id", id_1 (get (VObj u) "layer") (get (VObj u) "id"))]
              (VStr fields) ;;
       ret (inner ++ t))
    features acc
  = (r <- translateFeatures cfg features params ;; ret (acc ++ r)).
Proof.
  unfold translateFeatures.
  set (body := fun feature : value =>
                 u <- unpack feature params
                        ["ns"; "layer"; "geometry_name"; "properties";
                         "id"; "whitelist"] ;;
                 fields <- feature_fields cfg (get (VObj params) "srsName")
                             (get (VObj params) "srsDimension") feature u ;;
                 tag (get (VObj u) "ns") (get (VObj u) "layer")
                   [("gml:id",
                     id_1 (get (VObj u) "layer") (get (VObj u) "id"))]
                   (VStr fields)).
  assert (E : forall l s,
             foldM
               (fun inner feature =>
                  u <- unpack feature params
                         ["ns"; "layer"; "geometry_name"; "properties";
                          "id"; "whitelist"] ;;
                  fields <- feature_fields cfg (get (VObj params) "srsName")
                              (get (VObj params) "srsDimension") feature u ;;
                  t <- tag (get (VObj u) "ns") (get (VObj u) "layer")
                         [("gml:id",
                           id_1 (get (VObj u) "layer") (get (VObj u) "id"))]
                         (VStr fields) ;;
                  ret (inner ++ t))
               l s
             = foldM (fun acc x => t <- body x ;; ret (acc ++ t)) l s).
  { intros l s. apply foldM_ext_in. intros s' x _. unfold body.
    rewrite !bind_assoc. apply bind_ext. intros u. rewrite !bind_assoc.
    reflexivity. }
  rewrite !E. apply foldM_appending.
Qed.

(** X23: [translateFeatures] translates each feature on its own:
    translating two lists one after the other and joining the texts is
    translating the joined list, errors and all. *)
Theorem translateFeatures_app :
  forall (cfg : Config) (fs1 fs2 : list value) (params : obj),
    translateFeatures cfg (fs1 ++ fs2) params
    = (x <- translateFeatures cfg fs1 params ;;
       y <- translateFeatures cfg fs2 params ;;
       ret (x ++ y)).
Proof.
  intros cfg fs1 fs2 params. unfold translateFeatures at 1.
  rewrite foldM_app. apply bind_ext. intros x.
  apply translateFeatures_appending.
Qed.

(** ** [Insert]: the property fields *)

Lemma tag_field (ns : value) (k : string) (v : value) :
  k <> "" -> is_undefined v = false -> is_null v = false ->
  tag ns (VStr k) [] (escape v) = ret (field_text ns k v).
Proof.
  intros Hk Hu Hn. unfold tag, field_text. cbn [truthy to_string].
  assert (E : (k =? "") = false) by (apply String.eqb_neq, Hk).
  rewrite E, escape_is_null, Hn. cbn [negb attrs_1 map String.concat].
  unfold ret. do 2 f_equal.
  destruct v; try discriminate;
    repeat (rewrite ?append_assoc; cbn [String.append]); reflexivity.
Qed.

Lemma feature_fields_loop (ns : value) (names : list string)
    (properties : obj) :
  Forall (fun k => k <> ""
                   /\ Number_isNaN (get (VObj properties) k) = false) names ->
  forall acc,
    useWhitelistIfAvailable (VArr (map VStr names)) (VObj properties)
      (fun fields prop val =>
         if is_null val then ret fields
         else
           t <- tag ns prop []
                  (escape (get (VObj properties) (to_string prop))) ;;
           ret (fields ++ t))
      acc
    = ret (acc ++ String.concat ""
                    (map (fun k => field_text ns k (get (VObj properties) k))
                       names)).
Proof.
  intros H acc.
  unfold useWhitelistIfAvailable. cbn [truthy iterate]. rewrite bind_ret.
  revert acc. induction H as [| k names [Hk Hnan] _ IH]; intros acc.
  - simpl. rewrite append_empty_r. reflexivity.
  - cbn [map foldM]. unfold getM at 1. cbn [is_nullish to_string].
    rewrite bind_ret, Hnan.
    destruct (is_undefined (get (VObj properties) k)) eqn:Hu; cbn [negb].
    + rewrite bind_ret, IH, concat_cons.
      destruct (get (VObj properties) k); try discriminate. reflexivity.
    + destruct (is_null (get (VObj properties) k)) eqn:Hn.
      * rewrite bind_ret, IH, concat_cons.
        destruct (get (VObj properties) k); try discriminate. reflexivity.
      * rewrite (tag_field ns k _ Hk Hu Hn), !bind_ret, IH, concat_cons.
        rewrite append_assoc. reflexivity.
Qed.

(** X24: for a feature without a geometry field, the fields of [Insert]
    follow the whitelisted names (none of them a name that
    [Object.prototype] defines), or the keys of the property map when
    there is no whitelist.  A property whose value is [undefined] or
    [null] gives no field; any other gives an element named after the
    property, in the feature's namespace, around the escaped value.  This
    holds when no name is empty and no value is [NaN]. *)
Theorem Insert_property_fields :
  forall (cfg : Config) (srsName srsDimension feature : value) (u : obj)
         (names : list string) (properties : obj),
    truthy (get (VObj u) "geometry_name") = false ->
    get (VObj u) "properties" = VObj properties ->
    (get (VObj u) "whitelist" = VArr (map VStr names)
     /\ Forall (fun k => ~ In k Object_prototype_names) names)
    \/ (truthy (get (VObj u) "whitelist") = false
        /\ names = map fst properties) ->
    Forall (fun k => k <> ""
                     /\ Number_isNaN (get (VObj properties) k) = false)
      names ->
    feature_fields cfg srsName srsDimension feature u
    = ret (String.concat ""
             (map (fun k =>
                     field_text (get (VObj u) "ns") k
                       (get (VObj properties) k))
                names)).
Proof.
  intros cfg srsName srsDimension feature u names properties Hg Hp Hw Hn.
  unfold feature_fields. rewrite Hg, bind_ret, Hp.
  assert (E : forall cb,
             useWhitelistIfAvailable (get (VObj u) "whitelist")
               (VObj properties) cb ""
             = useWhitelistIfAvailable (VArr (map VStr names))
                 (VObj properties) cb "").
  { intros cb. destruct Hw as [[-> _] | [Hf ->]]; [reflexivity |].
    apply useWhitelist_keys, Hf. }
  rewrite E. exact (feature_fields_loop _ names properties Hn "").
Qed.

Lemma Insert_property_fields_witness :
  feature_fields config VUndef VUndef (VObj [])
    [("ns", VStr "topp"); ("geometry_name", VStr "");
     ("properties",
      VObj [("name", VStr "A&B"); ("lanes", VNum 2); ("note", VNull)]);
     ("whitelist", VStr "")]
  = ret "<topp:name>A&amp;B</topp:name><topp:lanes>2</topp:lanes>".
Proof.
  apply (Insert_property_fields config VUndef VUndef (VObj [])
           [("ns", VStr "topp"); ("geometry_name", VStr "");
            ("properties",
             VObj [("name", VStr "A&B"); ("lanes", VNum 2); ("note", VNull)]);
            ("whitelist", VStr "")]
           ["name"; "lanes"; "note"]
           [("name", VStr "A&B"); ("lanes", VNum 2); ("note", VNull)]).
  - reflexivity.
  - reflexivity.
  - right. split; reflexivity.
  - repeat constructor; discriminate.
Defined.

(** ** [Transaction] on action strings *)

Lemma every_string_strings (l : list string) :
  every_string (VArr (map VStr l)) = true.
Proof. cbn. induction l; simpl; auto. Qed.

Lemma join_strings_empty_sep (l : list string) :
  join_strings "" l = String.concat "" l.
Proof.
  induction l as [| s l IH]; [reflexivity |].
  destruct l as [| t l]; [reflexivity |].
  rewrite join_strings_cons by discriminate. rewrite IH. reflexivity.
Qed.

(** X25: [Transaction] on an array of action strings, every prefix of which
    has a URI, returns the envelope around the strings put end to end,
    unchanged; the prefixes are looked for in the strings joined by
    commas. *)
Theorem Transaction_of_strings :
  forall (stack : nat) (cfg : Config) (l : list string) (params : obj),
    absent_or_object (get (VObj params) "nsAssignments") = true ->
    absent_or_object (get (VObj params) "schemaLocations") = true ->
    (forall ns, In ns (discovered (join_strings "," l)) ->
       truthy (uri_after_defaults (declared_namespaces params)
                 (discovered (join_strings "," l)) ns) = true) ->
    exists attrs,
      Transaction stack cfg (VArr (map VStr l)) params
      = ret (transaction_element attrs (String.concat "" l)).
Proof.
  intros stack cfg l params Hns Hsl Hall.
  assert (Ets : to_string (VArr (map VStr l)) = join_strings "," l).
  { cbn [to_string]. rewrite map_map. f_equal.
    rewrite <- (map_id l) at 2. apply map_ext. reflexivity. }
  assert (Hact : transaction_actions stack cfg (VArr (map VStr l)) params
                 = (Ret (String.concat "" l), [])).
  { unfold transaction_actions. rewrite every_string_strings.
    cbn [is_array andb]. unfold join. cbn [as_array]. rewrite bind_ret.
    rewrite map_map, join_strings_empty_sep. unfold ret. do 3 f_equal.
    rewrite <- (map_id l) at 2. apply map_ext. reflexivity. }
  destruct (Transaction_returns_with stack cfg _ params _ [] Hact Hns Hsl)
    as (attrs & Ht & _).
  - rewrite Ets. exact Hall.
  - exists attrs. exact Ht.
Qed.

Lemma Transaction_of_strings_witness :
  exists attrs,
    Transaction 0 config
      (VArr (map VStr ["<wfs:Delete/>"; "<wfs:Insert/>"])) []
    = ret (transaction_element attrs "<wfs:Delete/><wfs:Insert/>").
Proof.
  apply (Transaction_of_strings 0 config
           ["<wfs:Delete/>"; "<wfs:Insert/>"] [] eq_refl eq_refl).
  assert (F : discovered (join_strings "," ["<wfs:Delete/>"; "<wfs:Insert/>"])
              = ["wfs"]) by (vm_compute; reflexivity).
  rewrite F. intros ns [<- | []]. vm_compute. reflexivity.
Defined.

(** ** [orderCoords], called twice *)

Lemma store_update_twice (h : store) (c : nat) (a b : list value) :
  store_update c b (store_update c a h) = store_update c b h.
Proof.
  revert c. induction h as [| x h IH]; intros c; [destruct c; reflexivity |].
  destruct c; simpl; [reflexivity |]. rewrite IH. reflexivity.
Qed.

Lemma store_update_same (h : store) (c : nat) :
  c < length h -> store_update c (deref h c) h = h.
Proof.
  unfold deref. revert c. induction h as [| x h IH]; intros c Hc; simpl in *.
  - lia.
  - destruct c; simpl; [reflexivity |]. rewrite IH by lia. reflexivity.
Qed.

(** X26: with the coordinate order swapped, [orderCoords] called on a
    pair returns it swapped, and called again on the same array returns it
    in the order it first had: the first call has reversed the caller's
    array, the second reverses it back. *)
Theorem orderCoords_twice_restores :
  forall (h : store) (c : nat) (x y : value),
    c < length h ->
    deref h c = [x; y] ->
    let first := orderCoords_ref swapped c h in
    let second := orderCoords_ref swapped c (snd first) in
    fst first = c
    /\ deref (snd first) c = [y; x]
    /\ fst second = c
    /\ deref (snd second) c = [x; y]
    /\ snd second = h.
Proof.
  intros h c x y Hc Hd first second.
  assert (E1 : first = (c, store_update c [y; x] h)).
  { unfold first, orderCoords_ref. cbn [coordinateOrder swapped].
    rewrite Hd. reflexivity. }
  assert (Hd1 : deref (store_update c [y; x] h) c = [y; x])
    by (apply deref_store_update, Hc).
  assert (E2 : second = (c, h)).
  { unfold second. rewrite E1. cbn [snd]. unfold orderCoords_ref.
    cbn [coordinateOrder swapped]. rewrite Hd1. cbn.
    rewrite store_update_twice, <- Hd, store_update_same by exact Hc.
    reflexivity. }
  rewrite E1, E2. cbn [fst snd]. rewrite Hd1, Hd. auto.
Qed.

Lemma orderCoords_twice_restores_witness :
  0 < length [[VNum 10; VNum 20]]
  /\ deref [[VNum 10; VNum 20]] 0 = [VNum 10; VNum 20]
  /\ deref (snd (orderCoords_ref swapped 0 [[VNum 10; VNum 20]])) 0
     = [VNum 20; VNum 10]
  /\ snd (orderCoords_ref swapped 0
            (snd (orderCoords_ref swapped 0 [[VNum 10; VNum 20]])))
     = [[VNum 10; VNum 20]].
Proof.
  assert (Hc : 0 < length [[VNum 10; VNum 20]]) by (simpl; lia).
  split; [exact Hc |]. split; [reflexivity |].
  destruct (orderCoords_twice_restores [[VNum 10; VNum 20]] 0
              (VNum 10) (VNum 20) Hc eq_refl)
    as (_ & H1 & _ & _ & H2).
  split; [exact H1 | exact H2].
Defined.

(** ** The position list, on a store of arrays *)

Lemma length_store_update (h : store) (c : nat) (a : list value) :
  length (store_update c a h) = length h.
Proof.
  revert c. induction h as [| b h IH]; intros c; [destruct c; reflexivity |].
  destruct c; simpl; [reflexivity | rewrite IH; reflexivity].
Qed.

Lemma deref_store_update_other (h : store) (c r : nat) (a : list value) :
  r <> c -> deref (store_update c a h) r = deref h r.
Proof.
  unfold deref. revert c r. induction h as [| b h IH]; intros c r Hr.
  - destruct c; reflexivity.
  - destruct c, r; simpl; try reflexivity; try congruence.
    apply IH. congruence.
Qed.

(** With the flag off, a pair is reversed in the caller's array. *)
Lemma orderCoords_ref_pair (h : store) (c : nat) :
  length (deref h c) = 2 ->
  orderCoords_ref swapped c h = (c, store_update c (rev (deref h c)) h).
Proof.
  intros Hl. unfold orderCoords_ref. cbn [coordinateOrder swapped].
  destruct (deref h c) as [| x [| y [| z t]]]; try discriminate Hl.
  reflexivity.
Qed.

Lemma posList_ref_loop (coords : list nat) :
  forall (h : store) (ps : list string),
    NoDup coords ->
    Forall (fun c => c < length h /\ length (deref h c) = 2) coords ->
    exists h',
      fold_left
        (fun '(ps, h) e =>
           let '(r, h') := orderCoords_ref swapped e h in
           ((ps ++ [join_strings " " (map elt_to_string (deref h' r))])%list,
            h'))
        coords (ps, h)
      = ((ps ++ map (fun c => components (rev (deref h c))) coords)%list, h')
      /\ forall c, deref h' c
                   = if existsb (Nat.eqb c) coords then rev (deref h c)
                     else deref h c.
Proof.
  induction coords as [| c coords IH]; intros h ps Hnd Hv.
  - exists h. rewrite app_nil_r. split; reflexivity.
  - inversion Hnd as [| ? ? Hnotin Hnd']; subst.
    inversion Hv as [| ? ? [Hc Hl] Hv']; subst.
    cbn [fold_left]. rewrite (orderCoords_ref_pair h c Hl).
    rewrite (deref_store_update h c _ Hc).
    set (h1 := store_update c (rev (deref h c)) h).
    assert (Hsame : forall c', In c' coords -> deref h1 c' = deref h c').
    { intros c' Hin. apply deref_store_update_other. intros ->. contradiction. }
    destruct (IH h1 (ps ++ [join_strings " "
                              (map elt_to_string (rev (deref h c)))])%list
                Hnd') as (h' & Hfold & Hd).
    { rewrite Forall_forall in Hv' |- *. intros c' Hin.
      destruct (Hv' c' Hin) as [Hc' Hl'].
      rewrite (Hsame c' Hin). unfold h1. rewrite length_store_update. auto. }
    exists h'. split.
    + rewrite Hfold. f_equal. rewrite <- app_assoc. cbn [app map]. f_equal.
      f_equal. apply map_ext_in. intros c' Hin. rewrite (Hsame c' Hin).
      reflexivity.
    + intros c'. rewrite Hd. cbn [existsb].
      destruct (Nat.eqb c' c) eqn:E; cbn [orb].
      * apply Nat.eqb_eq in E. subst c'.
        assert (Hn : existsb (Nat.eqb c) coords = false).
        { destruct (existsb (Nat.eqb c) coords) eqn:Ex; [| reflexivity].
          apply existsb_exists in Ex. destruct Ex as (y & Hy & Ey).
          apply Nat.eqb_eq in Ey. subst y. contradiction. }
        rewrite Hn. unfold h1. apply deref_store_update, Hc.
      * apply Nat.eqb_neq in E.
        unfold h1. rewrite (deref_store_update_other h c c' _ E).
        reflexivity.
Qed.

(** X28: with the coordinate order swapped, the position list of distinct
    two-component tuples lists each pair swapped, in the order of the
    tuples, and leaves each of the caller's tuples reversed and every other
    array as it was; the position list seen through values is the same
    text. *)
Theorem posList_ref_swapped :
  forall (h : store) (coords : list nat),
    NoDup coords ->
    Forall (fun c => c < length h /\ length (deref h c) = 2) coords ->
    fst (posList_ref swapped coords h)
    = components (List.concat (map (fun c => rev (deref h c)) coords))
    /\ (forall c,
          deref (snd (posList_ref swapped coords h)) c
          = if existsb (Nat.eqb c) coords then rev (deref h c)
            else deref h c)
    /\ posList swapped (VArr (map (fun c => VArr (deref h c)) coords))
       = ret (fst (posList_ref swapped coords h)).
Proof.
  intros h coords Hnd Hv.
  destruct (posList_ref_loop coords h [] Hnd Hv) as (h' & Hfold & Hd).
  assert (Ht : join_strings " "
                 (map (fun c => components (rev (deref h c))) coords)
               = components
                   (List.concat (map (fun c => rev (deref h c)) coords))).
  { unfold components. rewrite concat_map, <- join_strings_flat.
    - rewrite !map_map. reflexivity.
    - apply Forall_forall. intros t Hin. rewrite map_map in Hin.
      apply in_map_iff in Hin. destruct Hin as (c & <- & Hc).
      rewrite Forall_forall in Hv. destruct (Hv c Hc) as [_ Hl].
      destruct (deref h c) as [| x [| y [| z t]]]; try discriminate Hl.
      discriminate. }
  unfold posList_ref. rewrite Hfold. cbn [app fst snd]. rewrite Ht.
  split; [reflexivity |]. split; [exact Hd |].
  unfold posList. cbn [as_array]. rewrite bind_ret.
  rewrite (mapM_ret _ (fun e => match e with
                                | VArr t => components (rev t)
                                | _ => ""
                                end)).
  - rewrite bind_ret, map_map, Ht. reflexivity.
  - intros e Hin. apply in_map_iff in Hin. destruct Hin as (c & <- & Hc).
    rewrite Forall_forall in Hv. destruct (Hv c Hc) as [_ Hl].
    destruct (deref h c) as [| x [| y [| z t]]]; try discriminate Hl.
    reflexivity.
Qed.

Lemma posList_ref_swapped_witness :
  NoDup [0; 1]
  /\ Forall (fun c => c < length [[VNum 1; VDec 25 (-1)]; [VNum 3; VNum 4]]
                     /\ length (deref [[VNum 1; VDec 25 (-1)];
                                       [VNum 3; VNum 4]] c) = 2) [0; 1]
  /\ fst (posList_ref swapped [0; 1]
            [[VNum 1; VDec 25 (-1)]; [VNum 3; VNum 4]])
     = "2.5 1 4 3"
  /\ posList swapped (VArr [VArr [VNum 1; VDec 25 (-1)];
                            VArr [VNum 3; VNum 4]])
     = ret "2.5 1 4 3".
Proof.
  assert (Hnd : NoDup [0; 1]).
  { repeat constructor; simpl; intuition discriminate. }
  assert (Hv : Forall (fun c => c < length [[VNum 1; VDec 25 (-1)];
                                            [VNum 3; VNum 4]]
                                /\ length (deref [[VNum 1; VDec 25 (-1)];
                                                  [VNum 3; VNum 4]] c) = 2)
                 [0; 1]).
  { repeat constructor. }
  split; [exact Hnd |]. split; [exact Hv |].
  destruct (posList_ref_swapped [[VNum 1; VDec 25 (-1)]; [VNum 3; VNum 4]]
              [0; 1] Hnd Hv) as (Ht & _ & Hp).
  split.
  - rewrite Ht. vm_compute. reflexivity.
  - rewrite <- Ht at 1. exact Hp.
Defined.

(** A tuple reached twice is swapped and then swapped back, which the
    encoders seen through values do not show. *)
Lemma posList_ref_shared :
  posList_ref swapped [0; 1; 0] [[VNum 1; VNum 2]; [VNum 3; VNum 4]]
  = ("2 1 4 3 1 2", [[VNum 1; VNum 2]; [VNum 4; VNum 3]])
  /\ posList swapped (VArr [VArr [VNum 1; VNum 2]; VArr [VNum 3; VNum 4];
                            VArr [VNum 1; VNum 2]])
     = ret "2 1 4 3 2 1".
Proof. split; vm_compute; reflexivity. Qed.

(** ** [multi]: the ids of the members *)

Lemma to_uint_not_Nil (n : nat) : Nat.to_uint n <> Decimal.Nil.
Proof.
  intros E. pose proof (DecimalNat.Unsigned.of_to n) as H.
  rewrite E in H. cbn in H. subst n. discriminate E.
Qed.

Lemma nat_to_string_inj (i j : nat) :
  nat_to_string i = nat_to_string j -> i = j.
Proof.
  unfold nat_to_string. intros E.
  apply DecimalNat.Unsigned.to_uint_inj.
  pose proof (NilZero.usu _ (to_uint_not_Nil i)) as Hi.
  pose proof (NilZero.usu _ (to_uint_not_Nil j)) as Hj.
  rewrite E in Hi. congruence.
Qed.

Lemma lookup_index_seq {A : Type} (l : list A) :
  forall start i,
    lookup_index (map nat_to_string (seq start (length l))) l
      (nat_to_string (start + i))
    = nth_error l i.
Proof.
  induction l as [| x l IH]; intros start i.
  - destruct i; reflexivity.
  - cbn [length seq map lookup_index]. destruct i as [| i].
    + rewrite Nat.add_0_r, String.eqb_refl. reflexivity.
    + destruct (nat_to_string start =? nat_to_string (start + S i)) eqn:E.
      * apply String.eqb_eq, nat_to_string_inj in E. lia.
      * replace (start + S i) with (S start + i) by lia. apply IH.
Qed.

(** [a[i]] for an index inside the array. *)
Lemma get_array_index (l : list value) (i : nat) (x : value) :
  nth_error l i = Some x -> get (VArr l) (nat_to_string i) = x.
Proof.
  intros H. cbn [get]. rewrite nat_to_string_not_length. unfold index_keys.
  change (nat_to_string i) with (nat_to_string (0 + i)) at 1.
  rewrite (lookup_index_seq l 0 i), H. reflexivity.
Qed.

Lemma multi_loop (name : string) (f : encoder) (params : GmlParams)
    (g : value -> value -> string) (all : list value) :
  (name =? "MultiGeometry") = false ->
  gmlIds params = VArr all ->
  forall (members ids pre : list value) (acc : string),
    all = (pre ++ ids)%list ->
    length ids = length members ->
    Forall (fun m => is_nullish m = false
                     /\ truthy (get m "id") = false) members ->
    Forall (fun id => truthy id = true) ids ->
    (forall m id, In m members -> In id ids -> f m id params = ret (g m id)) ->
    foldM
      (fun acc '(i, member) =>
         member_id <- getM member "id" ;;
         let _gmlId :=
           or_else
             (or_else member_id
                (get (or_else (gmlIds params) (VArr [])) (nat_to_string i)))
             (VStr "") in
         if name =? "MultiGeometry" then
           let memberType := get member "type" in
           let member := get member "coordinates" in
           match Callback f with
           | Table t =>
               match t (to_string memberType) with
               | Some f => s <- f member _gmlId params ;; ret (acc ++ s)
               | None => throw TypeError
               end
           | Callback _ => throw TypeError
           end
         else
           match Callback f with
           | Callback f => s <- f member _gmlId params ;; ret (acc ++ s)
           | Table _ => throw TypeError
           end)
      (combine (seq (length pre) (length members)) members) acc
    = ret (acc
             ++ String.concat ""
                  (map (fun p => g (fst p) (snd p)) (combine members ids))).
Proof.
  intros Hname Hg members.
  match goal with
  | |- forall ids pre acc, _ -> _ -> _ -> _ -> _ -> foldM ?b _ _ = _ =>
      set (body := b)
  end.
  induction members as [| m members IH]; intros ids pre acc Hall Hlen Hm Hi Hf.
  - cbn. rewrite append_empty_r. reflexivity.
  - destruct ids as [| id ids]; [discriminate Hlen |].
    inversion Hm as [| ? ? [Hnn Hid] Hm']; subst.
    inversion Hi as [| ? ? Hid' Hi']; subst.
    cbn [length seq combine foldM map fst snd].
    unfold body at 1. unfold getM at 1. rewrite Hnn, bind_ret, Hname.
    assert (E : get (VArr (pre ++ id :: ids)) (nat_to_string (length pre))
                = id).
    { apply get_array_index. rewrite nth_error_app2 by lia.
      rewrite Nat.sub_diag. reflexivity. }
    assert (Eo : or_else
                   (or_else (get m "id")
                      (get (or_else (gmlIds params) (VArr []))
                         (nat_to_string (length pre))))
                   (VStr "") = id).
    { rewrite Hg. unfold or_else at 3. cbn [truthy]. rewrite E.
      unfold or_else. rewrite Hid, Hid'. reflexivity. }
    rewrite Eo, (Hf m id) by (left; reflexivity). rewrite !bind_ret.
    replace (S (length pre)) with (length (pre ++ [id])%list)
      by (rewrite length_app; simpl; lia).
    rewrite (IH ids (pre ++ [id])%list).
    + rewrite concat_cons, append_assoc. reflexivity.
    + rewrite <- app_assoc. reflexivity.
    + simpl in Hlen. lia.
    + exact Hm'.
    + exact Hi'.
    + intros m' id' Hm1 Hi1. apply Hf; right; assumption.
Qed.

(** X27: [multi] with a single encoder gives the i-th member the i-th
    entry of [params.gmlIds] as its id, when the members carry no id of
    their own and there is one truthy entry for each member; the encoded
    members follow each other, in order, inside the member element. *)
Theorem multi_member_ids :
  forall (name memberName : string) (f : encoder) (members ids : list value)
         (gmlId : value) (params : GmlParams) (g : value -> value -> string),
    (name =? "MultiGeometry") = false ->
    gmlIds params = VArr ids ->
    length ids = length members ->
    Forall (fun m => is_nullish m = false
                     /\ truthy (get m "id") = false) members ->
    Forall (fun id => truthy id = true) ids ->
    (forall m id, In m members -> In id ids -> f m id params = ret (g m id)) ->
    multi name memberName (Callback f) (VArr members) gmlId params
    = ret ("<gml:" ++ name
             ++ attrs [("srsName", srsName params); ("gml:id", gmlId)] ++ ">"
             ++ "<gml:" ++ memberName ++ ">"
             ++ String.concat ""
                  (map (fun p => g (fst p) (snd p)) (combine members ids))
             ++ "</gml:" ++ memberName ++ ">" ++ "</gml:" ++ name ++ ">").
Proof.
  intros name memberName f members ids gmlId params g Hname Hg Hlen Hm Hi Hf.
  unfold multi. cbn [as_array]. rewrite bind_ret.
  rewrite (multi_loop name f params g ids Hname Hg members ids []
             _ eq_refl Hlen Hm Hi Hf), bind_ret.
  unfold ret. do 2 f_equal.
  repeat (rewrite ?append_assoc; cbn [String.append]). reflexivity.
Qed.

Lemma multi_member_ids_witness :
  MultiLineString config
    (VArr [tuples [[1; 2]; [3; 4]]%Z; tuples [[5; 6]; [7; 8]]%Z])
    (VStr "roads")
    {| srsName := VUndef; srsDimension := VUndef;
       gmlIds := VArr [VStr "a"; VNum 7] |}
  = ret ("<gml:MultiCurve gml:id=" ++ dq ++ "roads" ++ dq
           ++ "><gml:curveMembers>"
           ++ "<gml:LineString gml:id=" ++ dq ++ "a" ++ dq
           ++ "><gml:posList>1 2 3 4</gml:posList></gml:LineString>"
           ++ "<gml:LineString gml:id=" ++ dq ++ "7" ++ dq
           ++ "><gml:posList>5 6 7 8</gml:posList></gml:LineString>"
           ++ "</gml:curveMembers></gml:MultiCurve>").
Proof.
  apply (multi_member_ids "MultiCurve" "curveMembers" (LineString config)
           [tuples [[1; 2]; [3; 4]]%Z; tuples [[5; 6]; [7; 8]]%Z]
           [VStr "a"; VNum 7] (VStr "roads")
           {| srsName := VUndef; srsDimension := VUndef;
              gmlIds := VArr [VStr "a"; VNum 7] |}
           (fun m id =>
              match LineString config m id
                      {| srsName := VUndef; srsDimension := VUndef;
                         gmlIds := VArr [VStr "a"; VNum 7] |} with
              | (Ret s, _) => s
              | _ => ""
              end)).
  - reflexivity.
  - reflexivity.
  - reflexivity.
  - repeat constructor.
  - repeat constructor.
  - intros m id [<- | [<- | []]] [<- | [<- | []]]; vm_compute; reflexivity.
Defined.
